(** * Beacon Identity service: wallet manager and onboarding worker

    A shallow embedding of [src/identity/wallet_manager.ts], of the HTTP
    wallet client it imports (the nwcli client), of the gateway mapping
    table, of [src/identity/worker.ts] and of the outbound dispatcher
    [src/identity/cvm-dispatcher.ts], followed by the properties of
    the response normalizer, the wallet resolver, the payment dispatcher,
    the onboarding state machine, the approval gate and the outbound
    dispatcher.

    Conventions of the embedding:
    - a JavaScript value is a tree [JsValue]; an object is the list of its
      own enumerable fields in enumeration order, with unique keys, as in
      a freshly parsed JSON document;
    - a JavaScript number is an integer or one of the three non-finite
      values; amounts (sats, msats) are integers, on which the arithmetic
      of the program is exact as long as operands and results are safe
      integers (below 2^53 in absolute value), and [String(n)] is the
      decimal rendering; the doubles themselves are [Double.t], on which
      the conversion of amounts is stated as well;
    - a string is the list of its characters, which have codes below
      256; [trim] strips the JavaScript white space among them (the
      no-break space included) and [toLowerCase] maps the capital letters
      among them;
    - a computation is a function from a [World] (tables, in-memory
      onboarding states, pending store, outbound queue, trace of effects)
      to an outcome (a value or a thrown error) and a new [World];
    - the host and the remote parties (environment variables, database
      failures, URL class, relay wallet, LNURL service, invoice decoder,
      HTTP wallet, signer, notifier) are the fields of [Env]; an answer
      may depend on everything that happened before the call;
    - one message is handled at a time: [await] runs to completion. *)

From Stdlib Require Import ZArith List Bool Ascii String Lia.
From Stdlib Require SpecFloat.
From stdpp Require Import base option list gmap strings pretty.

Local Open Scope string_scope.
Local Open Scope Z_scope.

(** ** JavaScript strings *)

(** the white space and the line terminators of JavaScript among the
    characters below 256: TAB, LF, VT, FF, CR, SP and the no-break space *)
Definition is_space_char (c : ascii) : bool :=
  let n := nat_of_ascii c in
  Nat.eqb n 32 || (Nat.leb 9 n && Nat.leb n 13) || Nat.eqb n 160.

Fixpoint trimStart (s : string) : string :=
  match s with
  | EmptyString => EmptyString
  | String c r => if is_space_char c then trimStart r else s
  end.

Definition trimEnd (s : string) : string :=
  String.rev (trimStart (String.rev s)).

(** [String.prototype.trim] *)
Definition trim (s : string) : string := trimEnd (trimStart s).

(** the lower-case letter of a capital letter, A to Z and, beyond ASCII,
    the codes 192 to 222 without the multiplication sign 215 *)
Definition lower_char (c : ascii) : ascii :=
  let n := nat_of_ascii c in
  if (Nat.leb 65 n && Nat.leb n 90)
     || (Nat.leb 192 n && Nat.leb n 222 && negb (Nat.eqb n 215))
  then ascii_of_nat (n + 32) else c.

(** [String.prototype.toLowerCase] *)
Fixpoint toLowerCase (s : string) : string :=
  match s with
  | EmptyString => EmptyString
  | String c r => String (lower_char c) (toLowerCase r)
  end.

(** [String.prototype.startsWith] *)
Definition startsWith (s p : string) : bool := String.prefix p s.

(** [String.prototype.includes] *)
Fixpoint includes (s needle : string) : bool :=
  String.prefix needle s ||
  match s with
  | EmptyString => false
  | String _ r => includes r needle
  end.

(** [Array.prototype.includes] on an array of strings *)
Definition array_includes (l : list string) (s : string) : bool :=
  existsb (String.eqb s) l.

Definition str_truthy (s : string) : bool :=
  negb (String.eqb s "").

Definition is_digit_char (c : ascii) : bool :=
  let n := nat_of_ascii c in Nat.leb 48 n && Nat.leb n 57.

Definition is_lower_hex_char (c : ascii) : bool :=
  let n := nat_of_ascii c in
  is_digit_char c || (Nat.leb 97 n && Nat.leb n 102).

(** one character of the class [[0-9a-f]] under the [i] flag *)
Definition is_hex_char (c : ascii) : bool :=
  let n := nat_of_ascii c in
  is_lower_hex_char c || (Nat.leb 65 n && Nat.leb n 70).

Fixpoint string_forall (p : ascii -> bool) (s : string) : bool :=
  match s with
  | EmptyString => true
  | String c r => p c && string_forall p r
  end.

(** [/^[0-9a-f]+$/i.test(s)] *)
Definition test_hex_ci (s : string) : bool :=
  str_truthy s && string_forall is_hex_char s.

(** [Array.prototype.join] on strings *)
Fixpoint join (sep : string) (parts : list string) : string :=
  match parts with
  | [] => ""
  | [p] => p
  | p :: rest => p ++ sep ++ join sep rest
  end.

(** ** JavaScript numbers *)

Inductive number : Type :=
| Fin (z : Z)
| NaN
| PosInf
| NegInf.

Definition isFinite (n : number) : bool :=
  match n with Fin _ => true | _ => false end.

Definition isNaN (n : number) : bool :=
  match n with NaN => true | _ => false end.

Definition num_truthy (n : number) : bool :=
  match n with
  | Fin z => negb (z =? 0)
  | NaN => false
  | _ => true
  end.

(** [String(n)] for a number: the decimal digits of an integer, as
    JavaScript prints the integers below 10^21 in absolute value *)
Definition num_toString (n : number) : string :=
  match n with
  | Fin z => pretty z
  | NaN => "NaN"
  | PosInf => "Infinity"
  | NegInf => "-Infinity"
  end.

(** [a - b] *)
Definition num_sub (a b : number) : number :=
  match a, b with
  | NaN, _ | _, NaN => NaN
  | Fin x, Fin y => Fin (x - y)
  | PosInf, PosInf | NegInf, NegInf => NaN
  | PosInf, _ => PosInf
  | NegInf, _ => NegInf
  | Fin _, PosInf => NegInf
  | Fin _, NegInf => PosInf
  end.

(** [a * k] for a positive integer constant [k]; exact on safe integers *)
Definition num_scale (a : number) (k : Z) : number :=
  match a with
  | Fin x => Fin (x * k)
  | other => other
  end.

(** [Math.floor(a / k)] for a positive integer constant [k]; exact on
    safe integers *)
Definition num_floor_div (a : number) (k : Z) : number :=
  match a with
  | Fin x => Fin (x / k)
  | other => other
  end.

(** [Math.max(a, 0)] *)
Definition num_max0 (a : number) : number :=
  match a with
  | Fin x => Fin (Z.max x 0)
  | NaN => NaN
  | PosInf => PosInf
  | NegInf => Fin 0
  end.

(** [a >= 0] *)
Definition num_ge0 (a : number) : bool :=
  match a with
  | Fin x => 0 <=? x
  | PosInf => true
  | _ => false
  end.

(** ** Doubles

    The numbers of JavaScript proper: IEEE-754 binary64 with rounding to
    nearest, ties to even, as the Standard Library specifies them.  The
    conversion of amounts is stated on them as well as on the integers. *)

(** [Number.isSafeInteger] on an integer *)
Definition is_safe_integer (z : Z) : bool := Z.abs z <=? 2 ^ 53 - 1.

Module Double.

Definition t : Type := SpecFloat.spec_float.

(** the double nearest to the integer [n]: the value of the literal [n] *)
Definition of_Z (n : Z) : t := SpecFloat.binary_normalize 53 1024 n 0 false.

(** [a * b] *)
Definition mul (a b : t) : t := SpecFloat.SFmul 53 1024 a b.

(** [a / b] *)
Definition div (a b : t) : t := SpecFloat.SFdiv 53 1024 a b.

(** [Math.floor] *)
Definition floor (x : t) : t :=
  match x with
  | SpecFloat.S754_finite s m e =>
      if 0 <=? e then x
      else
        let below := Z.shiftr (Zpos m) (- e) in
        if s
        then of_Z (- (if Z.shiftl below (- e) =? Zpos m then below else below + 1))
        else of_Z below
  | _ => x
  end.

(** [msatsToSats] of the wallet manager, on doubles *)
Definition msatsToSats (msats : option t) : option t :=
  match msats with
  | None => None
  | Some m => Some (floor (div m (of_Z 1000)))
  end.

End Double.

(** ** JavaScript values *)

Unset Elimination Schemes.
Inductive JsValue : Type :=
| JUndefined
| JNull
| JBool (b : bool)
| JNum (n : number)
| JStr (s : string)
| JArr (items : list JsValue)
| JObj (fields : list (string * JsValue)).
Set Elimination Schemes.

Inductive JsType : Type :=
| TUndefined | TObject | TBoolean | TNumber | TString.

Definition typeof (v : JsValue) : JsType :=
  match v with
  | JUndefined => TUndefined
  | JNull | JArr _ | JObj _ => TObject
  | JBool _ => TBoolean
  | JNum _ => TNumber
  | JStr _ => TString
  end.

(** [Boolean(v)], the test of [if (v)] and of [!v] *)
Definition truthy (v : JsValue) : bool :=
  match v with
  | JUndefined | JNull => false
  | JBool b => b
  | JNum n => num_truthy n
  | JStr s => str_truthy s
  | JArr _ | JObj _ => true
  end.

(** the value of field [key] among the own fields of an object *)
Fixpoint field (key : string) (fields : list (string * JsValue)) : JsValue :=
  match fields with
  | [] => JUndefined
  | (k, v) :: rest => if String.eqb k key then v else field key rest
  end.

(** [record[key]] where [record] is not null or undefined; the keys
    looked up by the program are never array indices or [length] *)
Definition prop (record : JsValue) (key : string) : JsValue :=
  match record with
  | JObj fields => field key fields
  | _ => JUndefined
  end.

(** [a || b] *)
Definition js_or (a b : JsValue) : JsValue :=
  if truthy a then a else b.

(** [String(v)], also the conversion inside a template literal *)
Fixpoint js_String (v : JsValue) : string :=
  match v with
  | JUndefined => "undefined"
  | JNull => "null"
  | JBool true => "true"
  | JBool false => "false"
  | JNum n => num_toString n
  | JStr s => s
  | JArr items =>
      join "," (map (fun item =>
                       match item with
                       | JUndefined | JNull => ""
                       | _ => js_String item
                       end) items)
  | JObj _ => "[object Object]"
  end.

(** first result accepted by [ok] in a [for ... of] loop that returns
    from inside its body *)
Fixpoint first_result {A B : Type} (f : A -> option B) (l : list A) : option B :=
  match l with
  | [] => None
  | x :: rest =>
      match f x with
      | Some y => Some y
      | None => first_result f rest
      end
  end.

(** apply [f] to the value of field [key] when the object has that field *)
Fixpoint with_field {B : Type} (key : string) (f : JsValue -> option B)
    (fields : list (string * JsValue)) : option B :=
  match fields with
  | [] => None
  | kv :: rest =>
      if String.eqb (fst kv) key then f (snd kv) else with_field key f rest
  end.

(** ** Thrown values

    Every [throw] of the program constructs an [Error]; the HTTP client
    attaches the parsed response body to it as [data].  A thrown string is
    kept because [extractMessageFromError] handles it. *)

Inductive Thrown : Type :=
| ErrorObj (message : string) (data : JsValue)
| ThrownString (s : string).

Definition new_Error (message : string) : Thrown := ErrorObj message JUndefined.

(** [error?.message || fallback] *)
Definition message_or (error : Thrown) (fallback : string) : string :=
  match error with
  | ErrorObj message _ => if str_truthy message then message else fallback
  | ThrownString _ => fallback
  end.

(** ** Response normalizer (wallet_manager.ts) *)

Section Normalizer.

(** [Number(s)] on a string: the host's string-to-number conversion *)
Variable Number_of_string : string -> number.

Definition preimage_keys : list string :=
  ["preimage"; "paymentPreimage"; "preImage"].

(** [for (const key of keys) { const candidate = record[key];
      if (typeof candidate === 'string') return candidate; }] *)
Definition first_string_prop (keys : list string) (record : JsValue) : option string :=
  first_result (fun key => match prop record key with
                           | JStr candidate => Some candidate
                           | _ => None
                           end) keys.

(** [if (found) return found;] on a string result *)
Definition if_found (found : option string) : option string :=
  match found with
  | Some s => if str_truthy s then Some s else None
  | None => None
  end.

(** [value.length === 64 && /^[0-9a-f]+$/i.test(value)] *)
Definition looks_like_preimage (s : string) : bool :=
  Nat.eqb (String.length s) 64 && test_hex_ci s.

Fixpoint findPreimage (value : JsValue) : option string :=
  match value with
  | JUndefined | JNull | JBool _ | JNum _ => None
  | JStr s =>
      if str_truthy s && looks_like_preimage s then Some s else None
  | JArr items =>
      first_result (fun nested => if_found (findPreimage nested)) items
  | JObj fields =>
      match first_string_prop preimage_keys (JObj fields) with
      | Some candidate => Some candidate
      | None =>
          first_result (fun kv => if_found (findPreimage (snd kv))) fields
      end
  end.

Definition affirmative_words : list string :=
  ["ok"; "success"; "paid"; "settled"; "completed"].

Definition negative_words : list string :=
  ["error"; "failed"; "rejected"].

(** [findSuccessFlag] on a string argument *)
Definition successOfString (s : string) : option bool :=
  if negb (str_truthy s) then None
  else
    let normalized := toLowerCase s in
    if array_includes affirmative_words normalized then Some true
    else if array_includes negative_words normalized then Some false
    else None.

Fixpoint findSuccessFlag (value : JsValue) : option bool :=
  match value with
  | JUndefined | JNull | JNum _ => None
  | JBool b => if b then Some true else None
  | JStr s => successOfString s
  | JArr items => first_result findSuccessFlag items
  | JObj fields =>
      match field "success" fields with
      | JBool b => Some b
      | _ =>
          match field "status" fields with
          | JStr status => successOfString status
          | _ =>
              match field "state" fields with
              | JStr state => successOfString state
              | _ => first_result (fun kv => findSuccessFlag (snd kv)) fields
              end
          end
      end
  end.

Fixpoint hasPayResult (value : JsValue) : bool :=
  match value with
  | JObj fields =>
      if truthy (field "payResult" fields) then true
      else
        let result := field "result" fields in
        if truthy result
           && match typeof result with TObject => true | _ => false end
           && truthy (prop result "payResult")
        then true
        else existsb (fun kv => hasPayResult (snd kv)) fields
  | JArr items => existsb hasPayResult items
  | _ => false
  end.

Definition msats_direct_keys : list string :=
  ["balanceMsats"; "balance_msats"; "msats"; "amountMsats"; "balance"].

Definition nested_keys : list string := ["data"; "context"; "result"].

Fixpoint extractMsats (value : JsValue) : option number :=
  match value with
  | JUndefined | JNull | JBool _ | JArr _ => None
  | JNum n => if isFinite n then Some n else None
  | JStr s =>
      let parsed := Number_of_string s in
      if negb (isNaN parsed) then Some parsed else None
  | JObj fields =>
      match first_result (fun key => with_field key extractMsats fields)
              msats_direct_keys with
      | Some msats => Some msats
      | None =>
          match first_result (fun key => with_field key extractMsats fields)
                  nested_keys with
          | Some msats => Some msats
          | None =>
              with_field "balances"
                (fun balances =>
                   match balances with
                   | JArr entries => first_result extractMsats entries
                   | _ => None
                   end) fields
          end
      end
  end.

Definition pending_direct_keys : list string :=
  ["pendingMsats"; "pending_msats"; "pendingAmountMsats"; "pending"].

Fixpoint extractPendingMsats (value : JsValue) : option number :=
  match value with
  | JUndefined | JNull | JBool _ | JArr _ => None
  | JNum n => if isFinite n then Some n else None
  | JStr s =>
      let parsed := Number_of_string s in
      if negb (isNaN parsed) then Some parsed else None
  | JObj fields =>
      match first_result (fun key => with_field key extractPendingMsats fields)
              pending_direct_keys with
      | Some msats => Some msats
      | None =>
          match first_result (fun key => with_field key extractPendingMsats fields)
                  nested_keys with
          | Some msats => Some msats
          | None =>
              with_field "pending"
                (fun pending =>
                   match pending with
                   | JArr entries => first_result extractPendingMsats entries
                   | _ => None
                   end) fields
          end
      end
  end.

Record Interpreted : Type := mkInterpreted {
  i_success : bool;
  i_preimage : option string
}.

Definition interpretNwcliPaymentResponse (response : JsValue) : Interpreted :=
  let preimage := findPreimage response in
  let success := findSuccessFlag response in
  let success :=
    match success with
    | None => if hasPayResult response then Some true else None
    | Some _ => success
    end in
  let success :=
    match success with
    | None =>
        match extractMsats response with
        | Some msats => if num_ge0 msats then Some true else None
        | None => None
        end
    | Some _ => success
    end in
  {| i_success := match success with
                  | Some b => b
                  | None => match preimage with
                            | Some p => str_truthy p
                            | None => false
                            end
                  end;
     i_preimage := preimage |}.

Definition looksLikeInvoice (value : JsValue) : bool :=
  match value with
  | JStr s => startsWith (toLowerCase s) "ln" && Nat.ltb 10 (String.length s)
  | _ => false
  end.

Definition invoice_keys : list string :=
  ["invoice"; "pr"; "paymentRequest"; "bolt11"].

Definition as_invoice (value : JsValue) : option string :=
  match value with
  | JStr s => if looksLikeInvoice value then Some s else None
  | _ => None
  end.

Fixpoint extractInvoiceFromResponse (response : JsValue) : option string :=
  match response with
  | JUndefined | JNull | JBool _ | JNum _ => None
  | JStr s => as_invoice response
  | JArr items =>
      first_result (fun value =>
                      match as_invoice value with
                      | Some inv => Some inv
                      | None =>
                          match typeof value with
                          | TObject => if_found (extractInvoiceFromResponse value)
                          | _ => None
                          end
                      end) items
  | JObj fields =>
      match first_result (fun key => as_invoice (field key fields)) invoice_keys with
      | Some inv => Some inv
      | None =>
          first_result (fun kv =>
                          match as_invoice (snd kv) with
                          | Some inv => Some inv
                          | None =>
                              match typeof (snd kv) with
                              | TObject => if_found (extractInvoiceFromResponse (snd kv))
                              | _ => None
                              end
                          end) fields
      end
  end.

Definition error_keys : list string :=
  ["error"; "message"; "reason"; "detail"; "description"].

Fixpoint extractErrorMessage (response : JsValue) : option string :=
  match response with
  | JUndefined | JNull | JBool _ | JNum _ => None
  | JStr s =>
      let trimmed := trim s in
      if str_truthy trimmed then Some trimmed else None
  | JArr items =>
      first_result (fun value =>
                      match typeof value with
                      | TObject => if_found (extractErrorMessage value)
                      | _ => None
                      end) items
  | JObj fields =>
      match first_result (fun key =>
                            match field key fields with
                            | JStr value =>
                                if str_truthy (trim value) then Some value else None
                            | _ => None
                            end) error_keys with
      | Some message => Some message
      | None =>
          let generic :=
            match field "status" fields with
            | JStr status => String.eqb (toLowerCase status) "error"
            | _ => false
            end in
          if generic then Some "Remote wallet API reported an error status."
          else
            first_result (fun kv =>
                            match typeof (snd kv) with
                            | TObject => if_found (extractErrorMessage (snd kv))
                            | _ => None
                            end) fields
      end
  end.

(** [extractMessageFromError]; the branch for a thrown object that is
    not an [Error] is outside [Thrown] *)
Definition extractMessageFromError (error : Thrown) : option string :=
  match error with
  | ThrownString s => if str_truthy s then Some s else None
  | ErrorObj message data =>
      match if_found (extractErrorMessage data) with
      | Some dataMessage => Some dataMessage
      | None => Some message
      end
  end.

Definition msatsToSats (msats : option number) : option number :=
  match msats with
  | None => None
  | Some m => Some (num_floor_div m 1000)
  end.

(** [`${msatsToSats(m)}`] *)
Definition show_sats (m : number) : string :=
  match msatsToSats (Some m) with
  | Some sats => num_toString sats
  | None => "null"
  end.

Definition push_if {A : Type} (c : option A) (part : A -> string)
    (parts : list string) : list string :=
  match c with
  | Some x => parts ++ [part x]
  | None => parts
  end.

Definition buildBalanceInsight
    (balanceMsats pendingMsats requestMsats : option number) : option string :=
  let availableMsats :=
    match balanceMsats with
    | Some b => Some (num_max0 (num_sub b (default (Fin 0) pendingMsats)))
    | None => None
    end in
  let parts := [] in
  let parts := push_if availableMsats (fun m => "available " ++ show_sats m ++ " sats") parts in
  let parts := push_if balanceMsats (fun m => "balance " ++ show_sats m ++ " sats") parts in
  let parts := push_if pendingMsats (fun m => "pending " ++ show_sats m ++ " sats") parts in
  let parts := push_if requestMsats (fun m => "request " ++ show_sats m ++ " sats") parts in
  match parts with
  | [] => None
  | _ => Some ("(" ++ join ", " parts ++ ")")
  end.

End Normalizer.

(** ** Data of the service *)

(** [PendingPayment] (pending_store): the fields the wallet manager reads *)
Record PendingPayment : Type := mkPendingPayment {
  p_npub : string;
  p_type : string;
  p_lnAddress : option string;
  p_amount : option number;
  p_lnInvoice : option string
}.

Record PaymentResult : Type := mkPaymentResult {
  pr_success : bool;
  pr_receipt : option JsValue;
  pr_error : option string
}.

Record BalanceResult : Type := mkBalanceResult {
  br_success : bool;
  br_balance : option number;
  br_error : option string
}.

Record InvoiceResult : Type := mkInvoiceResult {
  ir_success : bool;
  ir_invoice : option JsValue;
  ir_error : option string
}.

Record LNAddressResult : Type := mkLNAddressResult {
  lr_success : bool;
  lr_lnAddress : option JsValue;
  lr_error : option string
}.

Inductive WalletType : Type := nwc | api.

Record WalletDetails : Type := mkWalletDetails {
  wd_type : WalletType;
  wd_npub : string;
  wd_nwcUri : option string;
  wd_lnAddress : option string;
  wd_apiIdentifier : option string;
  wd_apiSubAccountId : option string;
  wd_apiLabel : option string
}.

(** a row of [user_wallets] as the driver returns it: every column is a
    value of unknown type, [JNull] for SQL NULL *)
Record WalletRow : Type := mkWalletRow {
  wallet_type : JsValue;
  encrypted_nwc_string : JsValue;
  ln_address : JsValue;
  api_identifier : JsValue;
  api_subaccount_id : JsValue;
  api_label : JsValue
}.

(** a row of [local_npub_map], keyed by (gateway_type, gateway_npub, gateway_user) *)
Record NpubMapRow : Type := mkNpubMapRow {
  user_npub : string;
  beacon_brain_npub : option string;
  beacon_id_npub : option string;
  gateway_bot_id : option string
}.

Record GatewayInfo : Type := mkGatewayInfo {
  gw_type : string;
  gw_npub : option string
}.

(** [BeaconMessage]: [source.from], [source.text], [source.gateway], [meta?.ctx] *)
Record BeaconMessage : Type := mkBeaconMessage {
  beaconID : string;
  source_from : string;
  source_text : option string;
  source_gateway : GatewayInfo;
  meta_ctx : JsValue
}.

(** a message handed to [enqueueIdentityOut] *)
Record OutMessage : Type := mkOutMessage {
  out_to : string;
  out_body : string;
  out_gateway : GatewayInfo;
  out_ctx : JsValue
}.

Inductive OnboardingStep : Type :=
| awaiting_choice (npub : string)
| awaiting_nwc (npub : string)
| awaiting_ln_address (npub : string).

Definition step_npub (state : OnboardingStep) : string :=
  match state with
  | awaiting_choice npub | awaiting_nwc npub | awaiting_ln_address npub => npub
  end.

Record HttpResponse : Type := mkHttpResponse {
  resp_ok : bool;
  resp_status : Z;
  resp_statusText : string;
  (** [rawText ? safeJsonParse(rawText) : null] *)
  resp_data : JsValue
}.

(** ** Effects *)

(** what the service does to the outside, in order *)
Inductive Event : Type :=
| EvLog (text : string)
| EvDb (statement : string)
| EvHttp (method url : string) (authorization : option string) (body : JsValue)
| EvFetch (url : string)
| EvNwcPayInvoice (nwcUri : string) (invoice : JsValue)
| EvNwcGetBalance (nwcUri : string)
| EvNwcMakeInvoice (nwcUri : string) (amountMsats : number)
| EvNewSigner
| EvNotifyBrain (gatewayType gatewayId npub : string)
| EvPaymentConfirmation (status summary : string) (payment : PendingPayment).

Record World : Type := mkWorld {
  user_wallets : gmap string WalletRow;
  local_npub_map : gmap (string * string * string) NpubMapRow;
  onboardingState : gmap string OnboardingStep;
  pendingStore : gmap string PendingPayment;
  identityOut : list OutMessage;
  trace : list Event
}.

Inductive Outcome (A : Type) : Type :=
| Ok (a : A)
| Raise (e : Thrown).
Arguments Ok {A} a.
Arguments Raise {A} e.

(** a computation of the service: [async] functions run to completion,
    one message at a time *)
Definition M (A : Type) : Type := World -> Outcome A * World.

Definition ret {A : Type} (a : A) : M A := fun w => (Ok a, w).

Definition throw {A : Type} (e : Thrown) : M A := fun w => (Raise e, w).

Definition bind {A B : Type} (c : M A) (k : A -> M B) : M B :=
  fun w =>
    match c w with
    | (Ok a, w') => k a w'
    | (Raise e, w') => (Raise e, w')
    end.

(** [try { body } catch (error) { handler }] *)
Definition try_catch {A : Type} (body : M A) (handler : Thrown -> M A) : M A :=
  fun w =>
    match body w with
    | (Ok a, w') => (Ok a, w')
    | (Raise e, w') => handler e w'
    end.

Definition lift {A : Type} (o : Outcome A) : M A := fun w => (o, w).

Declare Scope js_scope.
Delimit Scope js_scope with js.
Notation "'let*' x ':=' c 'in' k" := (bind c (fun x => k))
  (at level 10, x name, c at level 100, k at level 200) : js_scope.
Notation "c ;;; k" := (bind c (fun _ => k))
  (at level 100, k at level 200, right associativity) : js_scope.
Local Open Scope js_scope.

(** the world with more events on its trace *)
Definition push_events (events : list Event) (w : World) : World :=
  {| user_wallets := user_wallets w; local_npub_map := local_npub_map w;
     onboardingState := onboardingState w; pendingStore := pendingStore w;
     identityOut := identityOut w; trace := trace w ++ events |}.

Definition upd_user_wallets (t : gmap string WalletRow) (w : World) : World :=
  {| user_wallets := t; local_npub_map := local_npub_map w;
     onboardingState := onboardingState w; pendingStore := pendingStore w;
     identityOut := identityOut w; trace := trace w |}.

Definition upd_local_npub_map (t : gmap (string * string * string) NpubMapRow)
    (w : World) : World :=
  {| user_wallets := user_wallets w; local_npub_map := t;
     onboardingState := onboardingState w; pendingStore := pendingStore w;
     identityOut := identityOut w; trace := trace w |}.

Definition upd_onboardingState (t : gmap string OnboardingStep) (w : World) : World :=
  {| user_wallets := user_wallets w; local_npub_map := local_npub_map w;
     onboardingState := t; pendingStore := pendingStore w;
     identityOut := identityOut w; trace := trace w |}.

Definition upd_pendingStore (t : gmap string PendingPayment) (w : World) : World :=
  {| user_wallets := user_wallets w; local_npub_map := local_npub_map w;
     onboardingState := onboardingState w; pendingStore := t;
     identityOut := identityOut w; trace := trace w |}.

Definition upd_identityOut (q : list OutMessage) (w : World) : World :=
  {| user_wallets := user_wallets w; local_npub_map := local_npub_map w;
     onboardingState := onboardingState w; pendingStore := pendingStore w;
     identityOut := q; trace := trace w |}.

Definition emit (e : Event) : M unit := fun w => (Ok tt, push_events [e] w).

(** [console.log] and [console.error] *)
Definition log (text : string) : M unit := emit (EvLog text).

Definition get_world : M World := fun w => (Ok w, w).

Definition set_user_wallets (t : gmap string WalletRow) : M unit :=
  fun w => (Ok tt, upd_user_wallets t w).

Definition set_local_npub_map (t : gmap (string * string * string) NpubMapRow) : M unit :=
  fun w => (Ok tt, upd_local_npub_map t w).

Definition set_onboardingState (t : gmap string OnboardingStep) : M unit :=
  fun w => (Ok tt, upd_onboardingState t w).

Definition set_pendingStore (t : gmap string PendingPayment) : M unit :=
  fun w => (Ok tt, upd_pendingStore t w).

Definition set_identityOut (q : list OutMessage) : M unit :=
  fun w => (Ok tt, upd_identityOut q w).

(** [value.key] where [value] may be null or undefined: a [TypeError] then *)
Definition member (value : JsValue) (key : string) : M JsValue :=
  match value with
  | JUndefined | JNull =>
      throw (new_Error ("Cannot read properties of " ++ js_String value))
  | _ => ret (prop value key)
  end.

(** the host and the remote parties.  An answer may depend on everything
    that happened before the call, so each takes the trace so far. *)
Record Env : Type := mkEnv {
  (** [getEnv(name, fallback)] of [../types] *)
  getEnv : string -> string -> string;
  (** [Number(s)] on a string *)
  Number_of_string : string -> number;
  (** [getDB()] and the statement run on it: the error thrown, if any *)
  db_error : list Event -> option Thrown;
  (** what the database driver stores for a bound parameter that is
      undefined, an array or an object *)
  bind_other : JsValue -> Outcome JsValue;
  (** [decrypt] and [encrypt] of [./encryption] *)
  decrypt : string -> Outcome string;
  encrypt : string -> Outcome string;
  (** [new URL(s).toString()] *)
  URL_href : string -> Outcome string;
  (** the href of a valid URL after [searchParams.set(name, value)] *)
  URL_set_param : string -> string -> string -> string;
  (** [new URL(s).searchParams.get(name)] *)
  URL_get_param : string -> string -> Outcome JsValue;
  encodeURIComponent : string -> string;
  (** [new URLSearchParams({ nickname }).toString()] *)
  URLSearchParams_nickname : string -> string;
  (** [parseWalletConnectURI], [hexToBytes] and [new WalletConnect]: the
      error thrown, if any *)
  nwc_connect : string -> option Thrown;
  nwc_payInvoice : list Event -> string -> JsValue -> Outcome JsValue;
  nwc_getBalance : list Event -> string -> Outcome JsValue;
  nwc_makeInvoice : list Event -> string -> number -> Outcome JsValue;
  (** [fetch(url)] followed by [.json()] *)
  fetch_json : list Event -> string -> Outcome JsValue;
  (** [decodeBolt11(invoice).sections], as (name, value) pairs *)
  decodeBolt11 : JsValue -> Outcome (list (string * JsValue));
  (** [buildBaseUrl()] of the HTTP wallet client *)
  buildBaseUrl : Outcome string;
  (** [fetch(url, init)] followed by [.text()] in the HTTP wallet client *)
  http_fetch : list Event -> string -> string -> JsValue -> Outcome HttpResponse;
  (** [new SimpleSigner().getPublicKey()] encoded by [nip19.npubEncode] *)
  new_signer_npub : list Event -> Outcome string;
  (** [notifyBrainOfNewUser] and [sendPaymentConfirmation] of [./cvm]: the
      error thrown, if any *)
  notify_brain : list Event -> option Thrown;
  send_confirmation : list Event -> option Thrown
}.

(** ** More string primitives used by the effectful code *)

(** the capital of a letter a to z; the program converts HTTP method
    names only, which are ASCII *)
Definition upper_char (c : ascii) : ascii :=
  let n := nat_of_ascii c in
  if Nat.leb 97 n && Nat.leb n 122 then ascii_of_nat (n - 32) else c.

(** [String.prototype.toUpperCase] *)
Fixpoint toUpperCase (s : string) : string :=
  match s with
  | EmptyString => EmptyString
  | String c r => String (upper_char c) (toUpperCase r)
  end.

Fixpoint string_drop (n : nat) (s : string) : string :=
  match n, s with
  | O, _ => s
  | S n', String _ r => string_drop n' r
  | S _, EmptyString => EmptyString
  end.

Fixpoint string_take (n : nat) (s : string) : string :=
  match n, s with
  | O, _ => EmptyString
  | S n', String c r => String c (string_take n' r)
  | S _, EmptyString => EmptyString
  end.

(** [s.replace(pattern, replacement)] with a string pattern: the first
    occurrence only *)
Fixpoint replace_first (s pattern replacement : string) : string :=
  if String.prefix pattern s
  then replacement ++ string_drop (String.length pattern) s
  else match s with
       | EmptyString => EmptyString
       | String c r => String c (replace_first r pattern replacement)
       end.

(** the text before the first [sep] and, when [sep] occurs, the text after it *)
Fixpoint cut_at (sep : ascii) (s : string) : string * option string :=
  match s with
  | EmptyString => (EmptyString, None)
  | String c r =>
      if Ascii.eqb c sep then (EmptyString, Some r)
      else let (head, tail) := cut_at sep r in (String c head, tail)
  end.

(** [const [name, domain] = lnAddress.split('@')] *)
Definition split_name_domain (lnAddress : string) : string * option string :=
  let (name, rest) := cut_at "@"%char lnAddress in
  (name, match rest with
         | Some r => Some (fst (cut_at "@"%char r))
         | None => None
         end).

(** [s.slice(-n)] *)
Definition slice_last (n : nat) (s : string) : string :=
  string_drop (String.length s - n) s.

Definition opt_truthy (o : option string) : bool :=
  match o with
  | Some s => str_truthy s
  | None => false
  end.

Definition amount_truthy (o : option number) : bool :=
  match o with
  | Some n => num_truthy n
  | None => false
  end.

(** [v ? String(v) : null] *)
Definition String_or_null (v : JsValue) : option string :=
  if truthy v then Some (js_String v) else None.

Definition of_opt_string (o : option string) : JsValue :=
  match o with
  | Some s => JStr s
  | None => JUndefined
  end.

(** ** HTTP wallet client (nwcli client) and wallet manager *)

Section WalletManager.

Variable env : Env.

(** [Number(v)] *)
Definition js_Number (v : JsValue) : number :=
  match v with
  | JUndefined => NaN
  | JNull => Fin 0
  | JBool b => if b then Fin 1 else Fin 0
  | JNum n => n
  | JStr s => Number_of_string env s
  | JArr _ | JObj _ => Number_of_string env (js_String v)
  end.

(** [getDB()] and one statement on it *)
Definition db (statement : string) : M unit :=
  let* w := get_world in
  emit (EvDb statement) ;;;
  match db_error env (trace w) with
  | Some e => throw e
  | None => ret tt
  end.

Definition logWalletError (context : string) (error : Thrown) : M unit :=
  log context.

(** *** nwcli client *)

Definition getAuthHeader : option string :=
  let token := trim (getEnv env "NWCLI_AUTH" "") in
  if str_truthy token then Some ("Bearer " ++ token) else None.

Definition getMasterWallet : M string :=
  let wallet := trim (getEnv env "NWCLI_MASTER_WALLET" "") in
  if negb (str_truthy wallet)
  then throw (new_Error "[nwcli] NWCLI_MASTER_WALLET is not configured.")
  else ret wallet.

Definition request (path : string) (init_method : option string)
    (init_body : JsValue) : M JsValue :=
  let* base := lift (buildBaseUrl env) in
  let url := base ++ (if startsWith path "/" then path else "/" ++ path) in
  let authHeader := getAuthHeader in
  let method := toUpperCase (match init_method with
                             | Some m => if str_truthy m then m else "GET"
                             | None => "GET"
                             end) in
  log "[nwcli] request" ;;;
  try_catch
    (let* w := get_world in
     emit (EvHttp method url authHeader init_body) ;;;
     let* response := lift (http_fetch env (trace w) method url init_body) in
     let data := resp_data response in
     log "[nwcli] response" ;;;
     if negb (resp_ok response)
     then throw (ErrorObj ("[nwcli] " ++ pretty (resp_status response) ++ " "
                             ++ resp_statusText response) data)
     else ret data)
    (fun error =>
       log "[nwcli] error" ;;;
       throw error).

Definition createSubAccount (label description : string) (metadata : JsValue)
  : M JsValue :=
  let* parent := getMasterWallet in
  let body := JObj [("label", JStr label); ("description", JStr description);
                    ("metadata", metadata)] in
  request ("/api/wallets/" ++ encodeURIComponent env parent ++ "/subaccounts")
          (Some "POST") body.

Definition nwcliFetchBalance (identifier : string) : M JsValue :=
  request ("/api/balance?" ++ URLSearchParams_nickname env identifier)
          None JUndefined.

Definition nwcliCreateInvoice (identifier : string) (amountSats : number)
    (description : string) : M JsValue :=
  request "/api/getInvoice" (Some "POST")
    (JObj [("nickname", JStr identifier); ("amount", JNum amountSats);
           ("description", JStr description)]).

Definition nwcliPayInvoice (identifier invoice : string) : M JsValue :=
  request "/api/payInvoice" (Some "POST")
    (JObj [("nickname", JStr identifier); ("invoice", JStr invoice)]).

Definition nwcliPayLnAddress (identifier lnAddress : string) (amountSats : number)
  : M JsValue :=
  request "/api/payLnAddress" (Some "POST")
    (JObj [("nickname", JStr identifier); ("lnAddress", JStr lnAddress);
           ("amountSats", JNum amountSats)]).

Definition nwcliRefreshLedger (identifier : string) : M JsValue :=
  request "/api/refreshLedger" (Some "POST")
    (JObj [("nickname", JStr identifier)]).

(** *** wallet manager *)

Definition loadWallet (npub : string) : M (option WalletDetails) :=
  db "SELECT ... FROM user_wallets WHERE user_npub = ?" ;;;
  let* w := get_world in
  match user_wallets w !! npub with
  | None =>
      let shared := trim (getEnv env "SHARED_NWC_STRING" "") in
      if str_truthy shared
      then ret (Some {| wd_type := nwc; wd_npub := npub; wd_nwcUri := Some shared;
                        wd_lnAddress := None; wd_apiIdentifier := None;
                        wd_apiSubAccountId := None; wd_apiLabel := None |})
      else ret None
  | Some row =>
      let walletType := toLowerCase (js_String (js_or (wallet_type row) (JStr ""))) in
      if String.eqb walletType "nwc" then
        let encrypted :=
          if truthy (encrypted_nwc_string row)
          then js_String (encrypted_nwc_string row) else "" in
        if negb (str_truthy encrypted) then ret None
        else
          let* nwcUri := lift (decrypt env encrypted) in
          ret (Some {| wd_type := nwc; wd_npub := npub; wd_nwcUri := Some nwcUri;
                       wd_lnAddress := String_or_null (ln_address row);
                       wd_apiIdentifier := None; wd_apiSubAccountId := None;
                       wd_apiLabel := None |})
      else if String.eqb walletType "api" then
        let identifier := String_or_null (api_identifier row) in
        if negb (opt_truthy identifier) then ret None
        else
          ret (Some {| wd_type := api; wd_npub := npub; wd_nwcUri := None;
                       wd_lnAddress := String_or_null (ln_address row);
                       wd_apiIdentifier := identifier;
                       wd_apiSubAccountId := String_or_null (api_subaccount_id row);
                       wd_apiLabel := String_or_null (api_label row) |})
      else ret None
  end.

(** [decoded.sections.find(s => s.name === 'amount')?.value] *)
Definition amount_section_value (sections : list (string * JsValue)) : JsValue :=
  match List.find (fun s => String.eqb (fst s) "amount") sections with
  | Some s => snd s
  | None => JUndefined
  end.

Definition decodeInvoiceMsats (invoice : string) : M (option number) :=
  try_catch
    (let* sections := lift (decodeBolt11 env (JStr invoice)) in
     let amount := amount_section_value sections in
     if negb (truthy amount) then ret None
     else
       let value := js_Number amount in
       ret (if isFinite value then Some value else None))
    (fun error =>
       logWalletError "[WalletManager] Failed to decode invoice amount" error ;;;
       ret None).

Definition refreshLedgerIfSupported (identifier : option string) : M unit :=
  match identifier with
  | None => ret tt
  | Some id =>
      if negb (str_truthy id) then ret tt
      else
        try_catch
          (nwcliRefreshLedger id ;;; ret tt)
          (fun error =>
             logWalletError "[WalletManager] refreshLedger failed (non-fatal)" error)
  end.

(** [fetch(url)] and [.json()] of the LNURL exchange *)
Definition fetch (url : string) : M JsValue :=
  let* w := get_world in
  emit (EvFetch url) ;;;
  lift (fetch_json env (trace w) url).

Definition getInvoiceFromLnAddress (lnAddress : string) (amountSats : number)
  : M JsValue :=
  log ("[LNURL] Getting invoice for " ++ lnAddress) ;;;
  let (name, domain) := split_name_domain lnAddress in
  if negb (str_truthy name) || negb (opt_truthy domain)
  then throw (new_Error "Invalid Lightning Address format.")
  else
    let* lnurlpUrl := lift (URL_href env ("https://" ++ default "" domain
                                        ++ "/.well-known/lnurlp/" ++ name)) in
    log ("[LNURL] Fetching params from " ++ lnurlpUrl) ;;;
    let* params := fetch lnurlpUrl in
    let* status := member params "status" in
    let* tag := member params "tag" in
    if match status with JStr s => String.eqb s "ERROR" | _ => false end
       || negb match tag with JStr s => String.eqb s "payRequest" | _ => false end
    then throw (new_Error ("LNURL-pay failed: "
                  ++ js_String (js_or (prop params "reason") (JStr "Invalid response"))))
    else
      let amountMsats := num_scale amountSats 1000 in
      let* callbackHref := lift (URL_href env (js_String (prop params "callback"))) in
      let callbackUrl :=
        URL_set_param env callbackHref "amount" (num_toString amountMsats) in
      log ("[LNURL] Requesting invoice from " ++ callbackUrl) ;;;
      let* invoiceData := fetch callbackUrl in
      let* status' := member invoiceData "status" in
      if match status' with JStr s => String.eqb s "ERROR" | _ => false end
         || negb (truthy (prop invoiceData "pr"))
      then throw (new_Error ("Failed to get invoice: "
                    ++ js_String (js_or (prop invoiceData "reason")
                                        (JStr "Invalid response"))))
      else
        let invoice := prop invoiceData "pr" in
        let* sections := lift (decodeBolt11 env invoice) in
        let invoiceAmountMsats := amount_section_value sections in
        if negb (String.eqb (js_String invoiceAmountMsats) (num_toString amountMsats))
        then throw (new_Error ("Invoice amount mismatch. Expected "
                      ++ num_toString amountMsats ++ ", got "
                      ++ js_String invoiceAmountMsats))
        else
          log "[LNURL] Successfully fetched and verified invoice." ;;;
          ret invoice.

(** [new WalletConnect(...)] on the parsed URI: the client is its URI *)
Definition nwc_client (nwcUri : string) : M string :=
  match nwc_connect env nwcUri with
  | Some e => throw e
  | None => ret nwcUri
  end.

Definition client_payInvoice (client : string) (invoice : JsValue) : M JsValue :=
  let* w := get_world in
  emit (EvNwcPayInvoice client invoice) ;;;
  lift (nwc_payInvoice env (trace w) client invoice).

Definition client_getBalance (client : string) : M JsValue :=
  let* w := get_world in
  emit (EvNwcGetBalance client) ;;;
  lift (nwc_getBalance env (trace w) client).

Definition client_makeInvoice (client : string) (amountMsats : number) : M JsValue :=
  let* w := get_world in
  emit (EvNwcMakeInvoice client amountMsats) ;;;
  lift (nwc_makeInvoice env (trace w) client amountMsats).

Definition failure (error : string) : PaymentResult :=
  {| pr_success := false; pr_receipt := None; pr_error := Some error |}.

(** [appendBalanceContext] of [makePayment] *)
Definition appendBalanceContext
    (balanceSnapshot : option (option number * option number))
    (message : string) (requestMsats : option number) : string :=
  let insight :=
    buildBalanceInsight
      (match balanceSnapshot with Some s => fst s | None => None end)
      (match balanceSnapshot with Some s => snd s | None => None end)
      requestMsats in
  match insight with
  | Some i => if str_truthy i then message ++ " " ++ i else message
  | None => message
  end.

(** the two branches after [client.payInvoice] *)
Definition nwc_pay (client : string) (invoice : JsValue) : M PaymentResult :=
  let* result := client_payInvoice client invoice in
  let preimage := match result with
                  | JUndefined | JNull => JUndefined
                  | _ => prop result "preimage"
                  end in
  if truthy preimage
  then ret {| pr_success := true; pr_receipt := Some preimage; pr_error := None |}
  else ret (failure "Payment was rejected or failed.").

(** the outcome of an HTTP wallet payment call *)
Definition api_outcome
    (balanceSnapshot : option (option number * option number))
    (response : JsValue) (requestMsats : option number) : PaymentResult :=
  let interpreted := interpretNwcliPaymentResponse (Number_of_string env) response in
  if i_success interpreted
  then {| pr_success := true;
          pr_receipt := option_map JStr (i_preimage interpreted);
          pr_error := None |}
  else
    let failureMessage :=
      appendBalanceContext balanceSnapshot
        (default "Payment was rejected or failed."
                 (if_found (extractErrorMessage response)))
        requestMsats in
    failure failureMessage.

Definition makePayment (details : PendingPayment) : M PaymentResult :=
  log ("[WalletManager] Processing payment for npub " ++ p_npub details ++ ":") ;;;
  let* wallet := loadWallet (p_npub details) in
  match wallet with
  | None => ret (failure ("No wallet found for user " ++ p_npub details ++ "."))
  | Some wallet =>
      match wd_type wallet with
      | nwc =>
          if negb (opt_truthy (wd_nwcUri wallet))
          then ret (failure ("Wallet for " ++ p_npub details
                               ++ " is missing NWC credentials."))
          else
            try_catch
              (let* client := nwc_client (default "" (wd_nwcUri wallet)) in
               if String.eqb (p_type details) "ln_address" then
                 if negb (opt_truthy (p_lnAddress details))
                    || negb (amount_truthy (p_amount details))
                 then ret (failure "Missing lnAddress or amount")
                 else
                   let* invoice :=
                     getInvoiceFromLnAddress (default "" (p_lnAddress details))
                                             (default NaN (p_amount details)) in
                   nwc_pay client invoice
               else nwc_pay client (of_opt_string (p_lnInvoice details)))
              (fun error =>
                 logWalletError "[WalletManager] makePayment failed" error ;;;
                 ret (failure (message_or error "An unknown error occurred.")))
      | api =>
          if negb (opt_truthy (wd_apiIdentifier wallet))
          then ret (failure ("Wallet for " ++ p_npub details
                               ++ " is missing API identifier."))
          else
            let apiIdentifier := default "" (wd_apiIdentifier wallet) in
            try_catch
              (refreshLedgerIfSupported (wd_apiIdentifier wallet))
              (fun error =>
                 logWalletError "[WalletManager] refreshLedger before payment failed"
                                error) ;;;
            let* balanceSnapshot :=
              try_catch
                (let* balanceResponse := nwcliFetchBalance apiIdentifier in
                 let snapshot :=
                   (extractMsats (Number_of_string env) balanceResponse,
                    extractPendingMsats (Number_of_string env) balanceResponse) in
                 log "[WalletManager] API wallet snapshot before payment" ;;;
                 ret (Some snapshot))
                (fun balanceError =>
                   logWalletError
                     "[WalletManager] Failed to fetch balance before payment"
                     balanceError ;;;
                   ret None) in
            let lnAddressRequestMsats :=
              if String.eqb (p_type details) "ln_address"
                 && amount_truthy (p_amount details)
              then Some (num_scale (default NaN (p_amount details)) 1000)
              else None in
            let* lnInvoiceRequestMsats :=
              if String.eqb (p_type details) "ln_invoice"
                 && opt_truthy (p_lnInvoice details)
              then decodeInvoiceMsats (default "" (p_lnInvoice details))
              else ret None in
            try_catch
              (if String.eqb (p_type details) "ln_address" then
                 if negb (opt_truthy (p_lnAddress details))
                    || negb (amount_truthy (p_amount details))
                 then ret (failure "Missing lnAddress or amount")
                 else
                   let* response :=
                     nwcliPayLnAddress apiIdentifier
                                       (default "" (p_lnAddress details))
                                       (default NaN (p_amount details)) in
                   ret (api_outcome balanceSnapshot response lnAddressRequestMsats)
               else
                 if negb (opt_truthy (p_lnInvoice details))
                 then ret (failure "Missing invoice for payment.")
                 else
                   let* response :=
                     nwcliPayInvoice apiIdentifier (default "" (p_lnInvoice details)) in
                   ret (api_outcome balanceSnapshot response lnInvoiceRequestMsats))
              (fun error =>
                 logWalletError "[WalletManager] makePayment failed" error ;;;
                 let requestMsats :=
                   if String.eqb (p_type details) "ln_address"
                   then lnAddressRequestMsats else lnInvoiceRequestMsats in
                 let reason :=
                   default "An unknown error occurred."
                           (if_found (extractMessageFromError error)) in
                 ret (failure (appendBalanceContext balanceSnapshot reason requestMsats)))
      end
  end.

Definition balance_failure (error : string) : BalanceResult :=
  {| br_success := false; br_balance := None; br_error := Some error |}.

Definition getBalance (npub : string) : M BalanceResult :=
  let* wallet := loadWallet npub in
  match wallet with
  | None => ret (balance_failure ("No wallet found for user " ++ npub ++ "."))
  | Some wallet =>
      match wd_type wallet with
      | nwc =>
          if negb (opt_truthy (wd_nwcUri wallet))
          then ret (balance_failure ("Wallet for " ++ npub
                                       ++ " is missing NWC credentials."))
          else
            try_catch
              (let* client := nwc_client (default "" (wd_nwcUri wallet)) in
               let* result := client_getBalance client in
               let* balance := member result "balance" in
               let balanceSats := num_floor_div (js_Number balance) 1000 in
               ret {| br_success := true; br_balance := Some balanceSats;
                      br_error := None |})
              (fun error =>
                 logWalletError "[WalletManager] getBalance failed" error ;;;
                 ret (balance_failure (message_or error "An unknown error occurred.")))
      | api =>
          if negb (opt_truthy (wd_apiIdentifier wallet))
          then ret (balance_failure ("Wallet for " ++ npub
                                       ++ " is missing API identifier."))
          else
            try_catch
              (let* result := nwcliFetchBalance (default "" (wd_apiIdentifier wallet)) in
               match extractMsats (Number_of_string env) result with
               | None =>
                   logWalletError
                     "[WalletManager] getBalance api response missing balance"
                     (new_Error "Missing balanceMsats") ;;;
                   ret (balance_failure "Failed to read balance from wallet response.")
               | Some msats =>
                   ret {| br_success := true;
                          br_balance := Some (num_floor_div msats 1000);
                          br_error := None |}
               end)
              (fun error =>
                 logWalletError "[WalletManager] getBalance failed" error ;;;
                 ret (balance_failure (message_or error "An unknown error occurred.")))
      end
  end.

Definition invoice_failure (error : string) : InvoiceResult :=
  {| ir_success := false; ir_invoice := None; ir_error := Some error |}.

Definition createInvoice (npub : string) (amountSats : number) : M InvoiceResult :=
  let* wallet := loadWallet npub in
  match wallet with
  | None => ret (invoice_failure ("No wallet found for user " ++ npub ++ "."))
  | Some wallet =>
      match wd_type wallet with
      | nwc =>
          if negb (opt_truthy (wd_nwcUri wallet))
          then ret (invoice_failure ("Wallet for " ++ npub
                                       ++ " is missing NWC credentials."))
          else
            try_catch
              (let* client := nwc_client (default "" (wd_nwcUri wallet)) in
               let* result := client_makeInvoice client (num_scale amountSats 1000) in
               let* invoice := member result "invoice" in
               if truthy invoice
               then ret {| ir_success := true; ir_invoice := Some invoice;
                           ir_error := None |}
               else ret (invoice_failure "Failed to create invoice."))
              (fun error =>
                 logWalletError "[WalletManager] createInvoice failed" error ;;;
                 ret (invoice_failure (message_or error "An unknown error occurred.")))
      | api =>
          if negb (opt_truthy (wd_apiIdentifier wallet))
          then ret (invoice_failure ("Wallet for " ++ npub
                                       ++ " is missing API identifier."))
          else
            try_catch
              (let* result :=
                 nwcliCreateInvoice (default "" (wd_apiIdentifier wallet)) amountSats
                                    "Beacon Invoice" in
               match if_found (extractInvoiceFromResponse result) with
               | Some invoice =>
                   ret {| ir_success := true; ir_invoice := Some (JStr invoice);
                          ir_error := None |}
               | None =>
                   let reason :=
                     default "Failed to create invoice."
                             (if_found (extractErrorMessage result)) in
                   logWalletError "[WalletManager] createInvoice API missing invoice"
                                  (new_Error reason) ;;;
                   ret (invoice_failure reason)
               end)
              (fun error =>
                 logWalletError "[WalletManager] createInvoice failed" error ;;;
                 let reason :=
                   default "An unknown error occurred."
                           (if_found (extractMessageFromError error)) in
                 ret (invoice_failure reason))
      end
  end.

Definition lnaddress_failure (error : string) : LNAddressResult :=
  {| lr_success := false; lr_lnAddress := None; lr_error := Some error |}.

Definition lnaddress_found (lnAddress : JsValue) : LNAddressResult :=
  {| lr_success := true; lr_lnAddress := Some lnAddress; lr_error := None |}.

Definition getLNAddress (npub : string) : M LNAddressResult :=
  let* wallet := loadWallet npub in
  match wallet with
  | None => ret (lnaddress_failure ("No wallet found for user " ++ npub ++ "."))
  | Some wallet =>
      match wd_type wallet with
      | nwc =>
          if negb (opt_truthy (wd_nwcUri wallet))
          then ret (lnaddress_failure ("Wallet for " ++ npub
                                         ++ " is missing NWC credentials."))
          else
            let nwcUri := default "" (wd_nwcUri wallet) in
            let* returned :=
              try_catch
                (let* lud16 :=
                   lift (URL_get_param env
                           (replace_first nwcUri "nostr+walletconnect://" "http://")
                           "lud16") in
                 if truthy lud16 then ret (Some (lnaddress_found lud16))
                 else ret None)
                (fun error =>
                   logWalletError "[WalletManager] getLNAddress failed" error ;;;
                   ret None) in
            match returned with
            | Some result => ret result
            | None =>
                if opt_truthy (wd_lnAddress wallet)
                then ret (lnaddress_found (of_opt_string (wd_lnAddress wallet)))
                else
                  db "SELECT ln_address FROM user_wallets WHERE user_npub = ?" ;;;
                  let* w := get_world in
                  let stored := match user_wallets w !! npub with
                                | Some row => ln_address row
                                | None => JUndefined
                                end in
                  if truthy stored then ret (lnaddress_found stored)
                  else ret (lnaddress_failure "Lightning Address not found.")
            end
      | api =>
          if opt_truthy (wd_lnAddress wallet)
          then ret (lnaddress_found (of_opt_string (wd_lnAddress wallet)))
          else ret (lnaddress_failure
                      "Lightning Address not available for generated wallets.")
      end
  end.

Definition validateNwcString (nwcUri : string) : M bool :=
  log "[WalletManager] Validating NWC URI..." ;;;
  try_catch
    (let* client := nwc_client nwcUri in
     client_getBalance client ;;;
     log "[WalletManager] NWC URI is valid." ;;;
     ret true)
    (fun error =>
       logWalletError "[WalletManager] NWC URI validation failed" error ;;;
       ret false).

End WalletManager.

(** ** Gateway mapping table (gateway/npubMap) and identity worker (worker.ts) *)

(** [record[key] = value] on an object: in place when the key exists, at
    the end otherwise *)
Fixpoint set_field (key : string) (value : JsValue)
    (fields : list (string * JsValue)) : list (string * JsValue) :=
  match fields with
  | [] => [(key, value)]
  | (k, v) :: rest =>
      if String.eqb k key then (k, value) :: rest
      else (k, v) :: set_field key value rest
  end.

Definition set_prop (record : JsValue) (key : string) (value : JsValue) : JsValue :=
  match record with
  | JObj fields => JObj (set_field key value fields)
  | _ => record
  end.

Fixpoint string_drop_while (p : ascii -> bool) (s : string) : string :=
  match s with
  | EmptyString => EmptyString
  | String c r => if p c then string_drop_while p r else s
  end.

Fixpoint string_filter (p : ascii -> bool) (s : string) : string :=
  match s with
  | EmptyString => EmptyString
  | String c r => if p c then String c (string_filter p r) else string_filter p r
  end.

(** one character of [[a-z0-9]] under the [i] flag *)
Definition is_alnum_char (c : ascii) : bool :=
  let n := nat_of_ascii c in
  is_digit_char c || (Nat.leb 97 n && Nat.leb n 122) || (Nat.leb 65 n && Nat.leb n 90).

Section Worker.

Variable env : Env.

(** Modelled from the spec: [enqueueIdentityOut] of [./queues], which is
    not among the sources: the outbound queue contract, a message is
    appended to the outbound queue. *)
Definition enqueueIdentityOut (msg : OutMessage) : M unit :=
  let* w := get_world in
  set_identityOut (identityOut w ++ [msg]).

(** Modelled from the spec: [retrieveAndClearConfirmation] of
    [./pending_store], which is not among the sources: the pending payment
    of the user is read once and cleared. *)
Definition retrieveAndClearConfirmation (gatewayUser : string)
  : M (option PendingPayment) :=
  let* w := get_world in
  set_pendingStore (delete gatewayUser (pendingStore w)) ;;;
  ret (pendingStore w !! gatewayUser).

Definition notifyBrainOfNewUser (gatewayType gatewayId npub : string) : M unit :=
  let* w := get_world in
  emit (EvNotifyBrain gatewayType gatewayId npub) ;;;
  match notify_brain env (trace w) with
  | Some e => throw e
  | None => ret tt
  end.

Definition sendPaymentConfirmation (status summary : string)
    (payment : PendingPayment) : M unit :=
  let* w := get_world in
  emit (EvPaymentConfirmation status summary payment) ;;;
  match send_confirmation env (trace w) with
  | Some e => throw e
  | None => ret tt
  end.

(** *** gateway/npubMap *)

(** [resolveUserLinks(...)?.gatewayBotId] *)
Definition resolveUserLinks_gatewayBotId
    (gatewayType gatewayNpub gatewayUser : string) : M (option string) :=
  try_catch
    (db env "SELECT ... FROM local_npub_map WHERE gateway_type = ? AND gateway_npub = ? AND gateway_user = ?" ;;;
     let* w := get_world in
     match local_npub_map w !! (gatewayType, gatewayNpub, gatewayUser) with
     | None => ret None
     | Some row =>
         ret (if opt_truthy (gateway_bot_id row) then gateway_bot_id row else None)
     end)
    (fun _ => ret None).

(** SQL [TRIM(s)]: spaces are removed at both ends *)
Definition sql_TRIM (s : string) : string :=
  String.rev (string_drop_while (Ascii.eqb " ") (String.rev
    (string_drop_while (Ascii.eqb " ") s))).

(** [COALESCE(NULLIF(TRIM(excluded.gateway_bot_id), ''), old)] *)
Definition coalesce_bot_id (excluded old : option string) : option string :=
  match excluded with
  | Some s => if str_truthy (sql_TRIM s) then Some (sql_TRIM s) else old
  | None => old
  end.

Definition coalesce (excluded old : option string) : option string :=
  match excluded with
  | Some s => Some s
  | None => old
  end.

Definition upsertLocalNpubMap (gatewayType gatewayNpub gatewayUser userNpub : string)
    (gatewayBotId : option string) : M unit :=
  db env "INSERT INTO local_npub_map ... ON CONFLICT DO UPDATE" ;;;
  let* w := get_world in
  let key := (gatewayType, gatewayNpub, gatewayUser) in
  let row :=
    match local_npub_map w !! key with
    | None =>
        {| user_npub := userNpub; beacon_brain_npub := None;
           beacon_id_npub := None; gateway_bot_id := gatewayBotId |}
    | Some old =>
        {| user_npub := userNpub;
           beacon_brain_npub := coalesce None (beacon_brain_npub old);
           beacon_id_npub := coalesce None (beacon_id_npub old);
           gateway_bot_id := coalesce_bot_id gatewayBotId (gateway_bot_id old) |}
    end in
  set_local_npub_map (<[key := row]> (local_npub_map w)).

Definition rememberGatewayBotId (gatewayType gatewayNpub gatewayUser : string)
    (gatewayBotId : string) : M unit :=
  let normalized := trim gatewayBotId in
  if negb (str_truthy normalized) then ret tt
  else
    db env "UPDATE local_npub_map SET gateway_bot_id = ?" ;;;
    let* w := get_world in
    let key := (gatewayType, gatewayNpub, gatewayUser) in
    match local_npub_map w !! key with
    | None => ret tt
    | Some old =>
        set_local_npub_map
          (<[key := {| user_npub := user_npub old;
                       beacon_brain_npub := beacon_brain_npub old;
                       beacon_id_npub := beacon_id_npub old;
                       gateway_bot_id := Some normalized |}]> (local_npub_map w))
    end.

(** *** worker *)

(** returns the bot id and the context object, which it may have updated *)
Definition ensureBotId (ctx : JsValue) (gatewayType gatewayUser : string)
  : M (option string * JsValue) :=
  let existing := match prop ctx "botid" with
                  | JStr s => trim s
                  | _ => ""
                  end in
  if str_truthy existing then ret (Some existing, ctx)
  else
    try_catch
      (let gatewayNpub := trim (getEnv env "GATEWAY_NPUB" "") in
       if negb (str_truthy gatewayNpub) then ret (None, ctx)
       else
         let* linked := resolveUserLinks_gatewayBotId gatewayType gatewayNpub gatewayUser in
         let stored := option_map trim linked in
         if opt_truthy stored
         then ret (stored, set_prop ctx "botid" (of_opt_string stored))
         else ret (None, ctx))
      (fun err =>
         log "[identity] ensureBotId error" ;;;
         ret (None, ctx)).

Definition isUserKnown (gatewayUser gatewayType : string) : M bool :=
  try_catch
    (db env "SELECT 1 FROM local_npub_map WHERE gateway_user = ? AND gateway_npub = ? AND gateway_type = ?" ;;;
     let gatewayNpub := getEnv env "GATEWAY_NPUB" "" in
     let* w := get_world in
     ret (bool_decide (is_Some (local_npub_map w !! (gatewayType, gatewayNpub, gatewayUser)))))
    (fun e =>
       log "[identity] isUserKnown DB error:" ;;;
       ret false).

Definition createNewUser (gatewayType gatewayUser : string)
    (gatewayBotId : option string) : M (option string) :=
  try_catch
    (db env "getDB()" ;;;
     let* w := get_world in
     emit EvNewSigner ;;;
     let* npub := lift (new_signer_npub env (trace w)) in
     let gatewayNpub := getEnv env "GATEWAY_NPUB" "" in
     upsertLocalNpubMap gatewayType gatewayNpub gatewayUser npub
       (if opt_truthy gatewayBotId then gatewayBotId else None) ;;;
     log ("[identity] Created new user mapping for " ++ gatewayUser ++ " -> " ++ npub) ;;;
     ret (Some npub))
    (fun e =>
       log "[identity] createNewUser DB error:" ;;;
       ret None).

Definition saveNwcWallet (npub nwcString : string) (lnAddress : option string)
  : M unit :=
  try_catch
    (db env "INSERT INTO user_wallets ... VALUES (?, 'nwc', ?, ?, NULL, NULL, NULL) ON CONFLICT(user_npub) DO UPDATE" ;;;
     let* encrypted := lift (encrypt env nwcString) in
     let* w := get_world in
     set_user_wallets
       (<[npub := {| wallet_type := JStr "nwc";
                     encrypted_nwc_string := JStr encrypted;
                     ln_address := if opt_truthy lnAddress
                                   then of_opt_string lnAddress else JNull;
                     api_identifier := JNull;
                     api_subaccount_id := JNull;
                     api_label := JNull |}]> (user_wallets w)) ;;;
     log ("[identity] Saved wallet info for " ++ npub))
    (fun e => log "[identity] saveNwcWallet DB error:").

Definition looksLikeNwcString (input : string) : bool :=
  startsWith (toLowerCase (trim input)) "nostr+walletconnect://".

Definition wallet_choice_prompt : string :=
  join (String "010"%char EmptyString)
    ["Welcome to Beacon!";
     "";
     "I am the Beacon ID. I help you manage your wallet and approvals. The Beacon Brain will answer your questions and help you work with your money and get access to any information you need.";
     "";
     "Would you like to:";
     "(1) BYO Wallet w. Nostr Wallet Connect";
     "(2) Generate a new wallet?"].

Definition promptWalletChoice (gatewayUser : string) (gateway : GatewayInfo)
    (metaCtx : JsValue) : M unit :=
  enqueueIdentityOut {| out_to := gatewayUser; out_body := wallet_choice_prompt;
                        out_gateway := gateway; out_ctx := metaCtx |}.

Inductive WalletChoice : Type := choice1 | choice2.

Definition parseWalletChoice (input : string) : option WalletChoice :=
  let normalized := toLowerCase (trim input) in
  if negb (str_truthy normalized) then None
  else if String.eqb normalized "1" || startsWith normalized "1)"
          || includes normalized "wallet connect" || includes normalized "nwc"
  then Some choice1
  else if String.eqb normalized "2" || startsWith normalized "2)"
          || includes normalized "generate" || includes normalized "new wallet"
  then Some choice2
  else None.

Definition generateSubAccountLabel (gatewayType gatewayUser npub : string) : string :=
  let sanitizedUser := toLowerCase (string_filter is_alnum_char gatewayUser) in
  let suffix :=
    toLowerCase (if str_truthy (slice_last 6 sanitizedUser)
                 then slice_last 6 sanitizedUser else slice_last 6 npub) in
  let label := "beacon-" ++ gatewayType ++ "-" ++ suffix in
  if Nat.ltb 32 (String.length label) then string_take 32 label else label.

(** a value bound to a statement parameter: strings, numbers and null
    are stored as they are, a boolean as 0 or 1; what the driver does
    with anything else is [bind_other] *)
Definition sql_bind (v : JsValue) : M JsValue :=
  match v with
  | JStr _ | JNum _ | JNull => ret v
  | JBool b => ret (JNum (Fin (if b then 1 else 0)))
  | _ => lift (bind_other env v)
  end.

Definition saveApiWallet (npub : string) (identifier subAccountId label : JsValue)
  : M unit :=
  try_catch
    (db env "INSERT INTO user_wallets ... VALUES (?, 'api', NULL, NULL, ?, ?, ?) ON CONFLICT(user_npub) DO UPDATE" ;;;
     let* identifier' := sql_bind identifier in
     let* subAccountId' := sql_bind subAccountId in
     let* label' := sql_bind label in
     let* w := get_world in
     set_user_wallets
       (<[npub := {| wallet_type := JStr "api";
                     encrypted_nwc_string := JNull;
                     ln_address := JNull;
                     api_identifier := identifier';
                     api_subaccount_id := subAccountId';
                     api_label := label' |}]> (user_wallets w)) ;;;
     log ("[identity] Saved API wallet info for " ++ npub))
    (fun e => log "[identity] saveApiWallet DB error:").

(** [metaCtx] of [handleOnboarding] and of the approval flow *)
Definition build_metaCtx (msg : BeaconMessage) (ctx : JsValue)
    (botid : option string) : JsValue :=
  JObj ([("networkID", JStr (gw_type (source_gateway msg)));
         ("userId", JStr (source_from msg))]
        ++ (if truthy (prop ctx "returnGatewayID")
            then [("returnGatewayID", JStr (js_String (prop ctx "returnGatewayID")))]
            else [])
        ++ (if opt_truthy botid then [("botid", of_opt_string botid)] else [])).

Definition completion_message : string :=
  join (String "010"%char EmptyString)
    ["We've successfully created you a Lightning wallet and onboarded you to Bitcoin.";
     "";
     "The Beacon Brain will be in touch from another number. You can use the Brain to get access to any information and to ask for payments, invoices, etc from your wallet.";
     "";
     "No money can be spent by the Brain unless you approve it here first.";
     "";
     "We hope you have a great day!"].

Definition finishOnboarding (msg : BeaconMessage) (metaCtx : JsValue)
    (npub : string) : M unit :=
  let gatewayUser := source_from msg in
  let* w := get_world in
  set_onboardingState (delete gatewayUser (onboardingState w)) ;;;
  notifyBrainOfNewUser (gw_type (source_gateway msg)) gatewayUser npub ;;;
  enqueueIdentityOut {| out_to := gatewayUser; out_body := completion_message;
                        out_gateway := source_gateway msg; out_ctx := metaCtx |} ;;;
  log ("[identity] Onboarding complete for " ++ gatewayUser).

Definition set_state (gatewayUser : string) (state : OnboardingStep) : M unit :=
  let* w := get_world in
  set_onboardingState (<[gatewayUser := state]> (onboardingState w)).

Definition handleGenerateWallet (msg : BeaconMessage) (metaCtx : JsValue)
    (state : OnboardingStep) : M unit :=
  let gatewayUser := source_from msg in
  let gatewayType := gw_type (source_gateway msg) in
  let label := generateSubAccountLabel gatewayType gatewayUser (step_npub state) in
  try_catch
    (log ("[identity] Creating API wallet for " ++ gatewayUser ++ " with label " ++ label) ;;;
     let* subAccount :=
       createSubAccount env label
         ("Beacon sub-account for " ++ gatewayType ++ ":" ++ gatewayUser)
         (JObj [("gatewayType", JStr gatewayType); ("gatewayUser", JStr gatewayUser);
                ("npub", JStr (step_npub state))]) in
     let* identifier := member subAccount "identifier" in
     let* subAccountId := member subAccount "id" in
     let* inner := member subAccount "subAccount" in
     let* label' := member inner "label" in
     saveApiWallet (step_npub state) identifier subAccountId label' ;;;
     finishOnboarding msg metaCtx (step_npub state))
    (fun error =>
       log "[identity] Failed to generate API wallet" ;;;
       enqueueIdentityOut
         {| out_to := gatewayUser;
            out_body := "Sorry, I couldn't create a wallet right now. Let's try that again.";
            out_gateway := source_gateway msg; out_ctx := metaCtx |} ;;;
       set_state gatewayUser (awaiting_choice (step_npub state)) ;;;
       promptWalletChoice gatewayUser (source_gateway msg) metaCtx).

Definition handleNwcProvided (msg : BeaconMessage) (metaCtx : JsValue)
    (state : OnboardingStep) (nwcString : string) : M unit :=
  let gatewayUser := source_from msg in
  let* isValid := validateNwcString env nwcString in
  if isValid then
    saveNwcWallet (step_npub state) nwcString None ;;;
    set_state gatewayUser (awaiting_ln_address (step_npub state)) ;;;
    enqueueIdentityOut
      {| out_to := gatewayUser;
         out_body := "That all worked, please can you tell me your lightning address for this wallet? Or if it's not available just say No";
         out_gateway := source_gateway msg; out_ctx := metaCtx |} ;;;
    log ("[identity] Onboarding step 2: Awaiting LN Address for " ++ gatewayUser)
  else
    enqueueIdentityOut
      {| out_to := gatewayUser;
         out_body := "Hey that didn't work, please ensure it's a valid wallet connect string or reply 2 to generate a new wallet.";
         out_gateway := source_gateway msg; out_ctx := metaCtx |} ;;;
    log ("[identity] Invalid NWC string received from " ++ gatewayUser).

Definition handleOnboarding (msg : BeaconMessage) (messageText : string) : M unit :=
  let gatewayUser := source_from msg in
  let gateway := source_gateway msg in
  log ("[identity] Starting onboarding for " ++ gatewayUser) ;;;
  let ctx := js_or (meta_ctx msg) (JObj []) in
  let botIdFromCtx :=
    if truthy (prop ctx "botid") then Some (js_String (prop ctx "botid")) else None in
  let metaCtx0 := build_metaCtx msg ctx botIdFromCtx in
  let* ensured :=
    if opt_truthy botIdFromCtx then ret (botIdFromCtx, metaCtx0)
    else ensureBotId metaCtx0 (gw_type gateway) gatewayUser in
  let botIdFromCtx' := fst ensured in
  let metaCtx := snd ensured in
  let normalizedInput := trim messageText in
  try_catch
    (let* w := get_world in
     match onboardingState w !! gatewayUser with
     | None =>
         let* npub := createNewUser (gw_type gateway) gatewayUser botIdFromCtx' in
         match npub with
         | None =>
             enqueueIdentityOut
               {| out_to := gatewayUser;
                  out_body := "Sorry, there was an error creating your account. Please try again later.";
                  out_gateway := gateway; out_ctx := metaCtx |}
         | Some npub =>
             if negb (str_truthy npub) then
               enqueueIdentityOut
                 {| out_to := gatewayUser;
                    out_body := "Sorry, there was an error creating your account. Please try again later.";
                    out_gateway := gateway; out_ctx := metaCtx |}
             else
               set_state gatewayUser (awaiting_choice npub) ;;;
               promptWalletChoice gatewayUser gateway metaCtx ;;;
               log ("[identity] Onboarding step 0: Awaiting wallet preference for "
                      ++ gatewayUser)
         end
     | Some (awaiting_choice npub as state) =>
         if looksLikeNwcString normalizedInput
         then handleNwcProvided msg metaCtx state normalizedInput
         else
           match parseWalletChoice normalizedInput with
           | Some choice1 =>
               set_state gatewayUser (awaiting_nwc npub) ;;;
               enqueueIdentityOut
                 {| out_to := gatewayUser;
                    out_body := "Alright, let's set up your Bitcoin wallet. Please respond with a nostr wallet connect string and I'll do the rest.";
                    out_gateway := gateway; out_ctx := metaCtx |} ;;;
               log ("[identity] Onboarding step 1: Awaiting NWC for " ++ gatewayUser)
           | Some choice2 => handleGenerateWallet msg metaCtx state
           | None => promptWalletChoice gatewayUser gateway metaCtx
           end
     | Some (awaiting_nwc npub as state) =>
         if looksLikeNwcString normalizedInput
         then handleNwcProvided msg metaCtx state normalizedInput
         else
           match parseWalletChoice normalizedInput with
           | Some choice2 => handleGenerateWallet msg metaCtx state
           | _ =>
               enqueueIdentityOut
                 {| out_to := gatewayUser;
                    out_body := "I'm still waiting on a valid wallet connect string. You can also reply 2 to generate a new wallet.";
                    out_gateway := gateway; out_ctx := metaCtx |}
           end
     | Some (awaiting_ln_address npub) =>
         let lnAddress :=
           if String.eqb (toLowerCase normalizedInput) "no"
           then JNull else JStr normalizedInput in
         db env "UPDATE user_wallets SET ln_address = ? WHERE user_npub = ?" ;;;
         let* w' := get_world in
         match user_wallets w' !! npub with
         | Some row =>
             set_user_wallets
               (<[npub := {| wallet_type := wallet_type row;
                             encrypted_nwc_string := encrypted_nwc_string row;
                             ln_address := lnAddress;
                             api_identifier := api_identifier row;
                             api_subaccount_id := api_subaccount_id row;
                             api_label := api_label row |}]> (user_wallets w'))
         | None => ret tt
         end ;;;
         log ("[identity] Updated LN Address for " ++ npub) ;;;
         finishOnboarding msg metaCtx npub
     end)
    (fun e =>
       log "[identity] CRITICAL ERROR in handleOnboarding:" ;;;
       enqueueIdentityOut
         {| out_to := gatewayUser;
            out_body := "Sorry, a critical error occurred during onboarding. Please start over.";
            out_gateway := gateway; out_ctx := metaCtx |} ;;;
       let* w := get_world in
       set_onboardingState (delete gatewayUser (onboardingState w))).

(** the callback that [startIdentityWorker] registers with
    [consumeIdentityBeacon] *)
Definition startIdentityWorker (msg : BeaconMessage) : M unit :=
  try_catch
    (let gatewayUser := source_from msg in
     let gateway := source_gateway msg in
     log ("[identity] worker received message from: " ++ gatewayUser
            ++ ", beaconID: " ++ beaconID msg) ;;;
     let messageText := trim (default "" (source_text msg)) in
     if negb (str_truthy messageText) then ret tt
     else
       let ctx := js_or (meta_ctx msg) (JObj []) in
       let botId := if truthy (prop ctx "botid")
                    then js_String (prop ctx "botid") else "" in
       (if str_truthy botId then
          let gatewayNpub :=
            if opt_truthy (gw_npub gateway) then default "" (gw_npub gateway)
            else getEnv env "GATEWAY_NPUB" "" in
          if str_truthy (gw_type gateway) && str_truthy gatewayNpub
          then rememberGatewayBotId (gw_type gateway) gatewayNpub gatewayUser botId
          else ret tt
        else ret tt) ;;;
       let* known := isUserKnown gatewayUser (gw_type gateway) in
       let* w := get_world in
       if negb known || bool_decide (is_Some (onboardingState w !! gatewayUser))
       then handleOnboarding msg messageText
       else if String.eqb (toLowerCase messageText) "yes" then
         log ("[identity] Received 'YES' confirmation from " ++ gatewayUser ++ ".") ;;;
         let* pendingPayment := retrieveAndClearConfirmation gatewayUser in
         match pendingPayment with
         | Some pendingPayment =>
             log ("[identity] Found pending payment for " ++ gatewayUser
                    ++ ". Processing...") ;;;
             let* result := makePayment env pendingPayment in
             let metaCtx0 :=
               build_metaCtx msg ctx
                 (if truthy (prop ctx "botid")
                  then Some (js_String (prop ctx "botid")) else None) in
             let* ensured := ensureBotId metaCtx0 (gw_type gateway) gatewayUser in
             let metaCtx := snd ensured in
             if pr_success result then
               let confirmationText := "Payment confirmed!" in
               let confirmationText :=
                 match pr_receipt result with
                 | Some receipt =>
                     if truthy receipt
                     then confirmationText ++ " Your receipt is: " ++ js_String receipt
                     else confirmationText
                 | None => confirmationText
                 end in
               let* confirmationText :=
                 try_catch
                   (let* balance := getBalance env (p_npub pendingPayment) in
                    match br_balance balance with
                    | Some b =>
                        if br_success balance
                        then ret (confirmationText ++ " Your new balance is "
                                    ++ num_toString b ++ " sats.")
                        else ret confirmationText
                    | None => ret confirmationText
                    end)
                   (fun balanceError =>
                      log "[identity] Failed to fetch balance after payment" ;;;
                      ret confirmationText) in
               enqueueIdentityOut
                 {| out_to := gatewayUser; out_body := confirmationText;
                    out_gateway := gateway; out_ctx := metaCtx |} ;;;
               let confirmationSummary :=
                 match pr_receipt result with
                 | Some receipt =>
                     if truthy receipt
                     then "Successful payment. Receipt: " ++ js_String receipt
                     else "Successful payment."
                 | None => "Successful payment."
                 end in
               sendPaymentConfirmation "paid" confirmationSummary pendingPayment
             else
               enqueueIdentityOut
                 {| out_to := gatewayUser;
                    out_body := "Payment failed: "
                                  ++ match pr_error result with
                                     | Some e => e
                                     | None => "undefined"
                                     end;
                    out_gateway := gateway; out_ctx := metaCtx |} ;;;
               sendPaymentConfirmation "rejected"
                 (if opt_truthy (pr_error result)
                  then default "" (pr_error result) else "Payment failed")
                 pendingPayment
         | None =>
             log ("[identity] No pending payment found for " ++ gatewayUser
                    ++ ". Ignoring 'YES'.")
         end
       else
         log ("[identity] No handler for known user message: " ++ messageText))
    (fun e => log "[identity] CRITICAL ERROR in consumeIdentityBeacon:").

End Worker.

(** ** Outbound dispatcher (identity/cvm-dispatcher)

    The callback consumes one message of the outbound queue and returns
    the events it causes, in order; the clock, the construction of the
    gateway client and the remote call are parameters.  A log line is
    its text, as in [EvLog]. *)

(** [GatewayOutData] as the dispatcher reads it: the message of the
    outbound queue and the optional ids *)
Record GatewayOutData : Type := mkGatewayOutData {
  out_message : OutMessage;
  deliveryId : option string;
  messageId : option string;
  quotedMessageId : option string
}.

Record ReceiveMessageRequest : Type := mkReceiveMessageRequest {
  req_refId : string;
  req_returnGatewayID : string;
  req_networkID : string;
  req_botid : string;
  req_botType : string;
  req_groupID : JsValue;
  req_userId : string;
  req_messageID : option string;
  req_message : string
}.

(** what the dispatcher does to the outside, in order *)
Inductive DispatchEvent : Type :=
| DLog (text : string)
| DReceiveMessage (target : string) (req : ReceiveMessageRequest).

(** [/^[0-9a-fA-F]{64}$/.test(s)] *)
Definition test_hex64 (s : string) : bool :=
  Nat.eqb (String.length s) 64 && string_forall is_hex_char s.

(** [a || b] on optional strings *)
Definition opt_or (a : option string) (b : string) : string :=
  if opt_truthy a then default "" a else b.

Section Dispatcher.

Variable env : Env.
(** [Date.now().toString()] *)
Variable Date_now : string.
(** [new GatewayCvmClient(target)]: the error thrown, if any *)
Variable new_GatewayCvmClient : string -> option Thrown.
(** [client.receiveMessage(req)] of the client for [target] *)
Variable receiveMessage : string -> ReceiveMessageRequest -> Outcome JsValue.

(** [(getEnv('ID_RETURN_GATEWAY_ID') || '').trim()]: an unset variable
    and an empty one both give the empty string *)
Definition defaultReturnGateway : string :=
  trim (getEnv env "ID_RETURN_GATEWAY_ID" "").

(** what [startIdentityCvmDispatcher] does before it registers the consumer *)
Definition startIdentityCvmDispatcher : list DispatchEvent :=
  if negb (test_hex64 defaultReturnGateway)
  then [DLog "[identity-cvm-dispatch] missing/invalid ID_RETURN_GATEWAY_ID; dispatcher will still start but messages will fail to send"]
  else [].

(** the callback that [startIdentityCvmDispatcher] registers with
    [consumeIdentityOut]; it returns normally whatever happens *)
Definition dispatchIdentityOut (msg : GatewayOutData) : list DispatchEvent :=
  let m := out_message msg in
  let ctx := js_or (out_ctx m) (JObj []) in
  let returnGatewayID :=
    js_String (js_or (js_or (prop ctx "returnGatewayID") (JStr defaultReturnGateway))
                     (JStr "")) in
  if negb (test_hex64 returnGatewayID)
  then [DLog "[identity-cvm-dispatch] missing/invalid returnGatewayID for message"]
  else
    let networkID :=
      js_String (js_or (js_or (prop ctx "networkID") (JStr (gw_type (out_gateway m))))
                       (JStr "")) in
    if negb (str_truthy networkID)
    then [DLog "[identity-cvm-dispatch] missing networkID"]
    else
      let userId :=
        js_String (js_or (js_or (prop ctx "userId") (JStr (out_to m))) (JStr "")) in
      if negb (str_truthy userId)
      then [DLog "[identity-cvm-dispatch] missing userId"]
      else
        let req :=
          {| req_refId := opt_or (deliveryId msg) (opt_or (messageId msg) Date_now);
             req_returnGatewayID := returnGatewayID;
             req_networkID := networkID;
             req_botid := js_String (js_or (prop ctx "botid") (JStr ""));
             req_botType := "id";
             req_groupID := js_or (prop ctx "groupID") JUndefined;
             req_userId := userId;
             req_messageID := if opt_truthy (quotedMessageId msg)
                              then quotedMessageId msg else None;
             req_message := out_body m |} in
        match new_GatewayCvmClient returnGatewayID with
        | Some err => [DLog "[identity-cvm-dispatch] error"]
        | None =>
            DLog "[identity-cvm-dispatch] receiveMessage ->"
            :: DReceiveMessage returnGatewayID req
            :: match receiveMessage returnGatewayID req with
               | Ok res => [DLog "[identity-cvm-dispatch] dispatched"]
               | Raise err => [DLog "[identity-cvm-dispatch] error"]
               end
        end.

End Dispatcher.

(** ** Induction on values *)

Section JsValueInduction.

Variable P : JsValue -> Prop.
Hypothesis Hundefined : P JUndefined.
Hypothesis Hnull : P JNull.
Hypothesis Hbool : forall b, P (JBool b).
Hypothesis Hnum : forall n, P (JNum n).
Hypothesis Hstr : forall s, P (JStr s).
Hypothesis Harr : forall items, Forall P items -> P (JArr items).
Hypothesis Hobj : forall fields, Forall (fun kv => P (snd kv)) fields -> P (JObj fields).

Fixpoint JsValue_ind (v : JsValue) : P v :=
  match v with
  | JUndefined => Hundefined
  | JNull => Hnull
  | JBool b => Hbool b
  | JNum n => Hnum n
  | JStr s => Hstr s
  | JArr items =>
      Harr items
        ((fix all (l : list JsValue) : Forall P l :=
            match l with
            | [] => @List.Forall_nil _ P
            | x :: rest => @List.Forall_cons _ P x rest (JsValue_ind x) (all rest)
            end) items)
  | JObj fields =>
      Hobj fields
        ((fix all (l : list (string * JsValue)) : Forall (fun kv => P (snd kv)) l :=
            match l with
            | [] => @List.Forall_nil _ _
            | kv :: rest =>
                @List.Forall_cons _ (fun kv => P (snd kv)) kv rest
                (JsValue_ind (snd kv)) (all rest)
            end) fields)
  end.

End JsValueInduction.

(** ** Vocabulary of the properties *)

(** a 64-character lowercase hexadecimal string *)
Definition is_lower_hex64 (s : string) : bool :=
  Nat.eqb (String.length s) 64 && string_forall is_lower_hex_char s.

(** some string of the tree, at the top or nested at any depth, satisfies [p] *)
Fixpoint any_string (p : string -> bool) (v : JsValue) : bool :=
  match v with
  | JStr s => p s
  | JArr items => existsb (any_string p) items
  | JObj fields => existsb (fun kv => any_string p (snd kv)) fields
  | _ => false
  end.

(** the object holds under [key] a string that satisfies [p] *)
Definition keyed_string (p : string -> bool) (fields : list (string * JsValue))
    (key : string) : bool :=
  match field key fields with
  | JStr s => p s
  | _ => false
  end.

(** some object of the tree, at any depth, holds under one of [keys] a
    string that satisfies [p] *)
Fixpoint any_keyed_string (keys : list string) (p : string -> bool)
    (v : JsValue) : bool :=
  match v with
  | JArr items => existsb (any_keyed_string keys p) items
  | JObj fields =>
      existsb (keyed_string p fields) keys
      || existsb (fun kv => any_keyed_string keys p (snd kv)) fields
  | _ => false
  end.

Definition is_nwc_pay (e : Event) : bool :=
  match e with EvNwcPayInvoice _ _ => true | _ => false end.

(** the calls of [client.payInvoice] on a trace *)
Definition pay_calls (w : World) : list Event := List.filter is_nwc_pay (trace w).

(** the first thing [makePayment] logs *)
Definition makePayment_log (details : PendingPayment) : Event :=
  EvLog ("[WalletManager] Processing payment for npub " ++ p_npub details ++ ":").

(** everything of a world but its trace *)
Definition state_of (w : World) :=
  (user_wallets w, local_npub_map w, onboardingState w, pendingStore w, identityOut w).

(** the events [rememberGatewayBotId] may add *)
Definition remember_events (evs : list Event) : Prop :=
  evs = [] \/ evs = [EvDb "UPDATE local_npub_map SET gateway_bot_id = ?"].

Definition shared_wallet (env : Env) (npub : string) : option WalletDetails :=
  let shared := trim (getEnv env "SHARED_NWC_STRING" "") in
  if str_truthy shared
  then Some {| wd_type := nwc; wd_npub := npub; wd_nwcUri := Some shared;
               wd_lnAddress := None; wd_apiIdentifier := None;
               wd_apiSubAccountId := None; wd_apiLabel := None |}
  else None.

(** the row [saveApiWallet] writes *)
Definition api_row (identifier subAccountId label : JsValue) : WalletRow :=
  {| wallet_type := JStr "api"; encrypted_nwc_string := JNull; ln_address := JNull;
     api_identifier := identifier; api_subaccount_id := subAccountId;
     api_label := label |}.

(** the reply [body] to the sender of [msg], with the context [ctx] *)
Definition reply_to (msg : BeaconMessage) (ctx : JsValue) (body : string) : OutMessage :=
  {| out_to := source_from msg; out_body := body;
     out_gateway := source_gateway msg; out_ctx := ctx |}.

(** the closing message of [finishOnboarding] *)
Definition completion_out (msg : BeaconMessage) (metaCtx : JsValue) : OutMessage :=
  {| out_to := source_from msg; out_body := completion_message;
     out_gateway := source_gateway msg; out_ctx := metaCtx |}.

(** the arguments of [createSubAccount] in [handleGenerateWallet] *)
Definition provision (env : Env) (msg : BeaconMessage) (npub : string) : M JsValue :=
  createSubAccount env
    (generateSubAccountLabel (gw_type (source_gateway msg)) (source_from msg) npub)
    ("Beacon sub-account for " ++ gw_type (source_gateway msg) ++ ":" ++ source_from msg)
    (JObj [("gatewayType", JStr (gw_type (source_gateway msg)));
           ("gatewayUser", JStr (source_from msg));
           ("npub", JStr npub)]).

(** the event is the notification of a new user *)
Definition is_notify (e : Event) : bool :=
  match e with EvNotifyBrain _ _ _ => true | _ => false end.

(** what [handleGenerateWallet] achieves from [w] when provisioning
    succeeds: the row is written and the brain is notified of the new
    user, once; when the notification returns, the onboarding state of the
    sender is deleted and the closing message is queued; when it throws,
    the state is reset to [awaiting_choice] and the apology and the
    wallet question are queued *)
Definition generated (env : Env) (msg : BeaconMessage) (npub : string)
    (identifier subAccountId label : string) (metaCtx : JsValue)
    (w : World) (r : Outcome unit) (w' : World) : Prop :=
  r = Ok tt
  /\ user_wallets w'
     = <[npub := api_row (JStr identifier) (JStr subAccountId) (JStr label)]> (user_wallets w)
  /\ exists before after,
       trace w'
       = (before
          ++ EvNotifyBrain (gw_type (source_gateway msg)) (source_from msg) npub
          :: after)%list
       /\ (exists events,
             before = (trace w ++ events)%list
             /\ forallb (fun e => negb (is_notify e)) events = true)
       /\ forallb (fun e => negb (is_notify e)) after = true
       /\ match notify_brain env before with
          | None =>
              onboardingState w' = delete (source_from msg) (onboardingState w)
              /\ identityOut w' = (identityOut w ++ [completion_out msg metaCtx])%list
          | Some _ =>
              onboardingState w'
              = <[source_from msg := awaiting_choice npub]>
                  (delete (source_from msg) (onboardingState w))
              /\ identityOut w'
                 = (identityOut w
                    ++ [reply_to msg metaCtx
                          "Sorry, I couldn't create a wallet right now. Let's try that again.";
                        reply_to msg metaCtx wallet_choice_prompt])%list
          end.

(** the path and the body of the request that pays [details] *)
Definition pay_path (details : PendingPayment) : string :=
  if String.eqb (p_type details) "ln_address"
  then "/api/payLnAddress" else "/api/payInvoice".

Definition pay_body (identifier : string) (details : PendingPayment) : JsValue :=
  if String.eqb (p_type details) "ln_address"
  then JObj [("nickname", JStr identifier);
             ("lnAddress", JStr (default "" (p_lnAddress details)));
             ("amountSats", JNum (default NaN (p_amount details)))]
  else JObj [("nickname", JStr identifier);
             ("invoice", JStr (default "" (p_lnInvoice details)))].

(** the error [request] throws on a response that is not ok *)
Definition http_error (response : HttpResponse) : Thrown :=
  ErrorObj ("[nwcli] " ++ pretty (resp_status response) ++ " "
              ++ resp_statusText response) (resp_data response).

(** the outcome of an HTTP wallet payment as a function of the answer to
    the payment request, the balance snapshot and the requested amount *)
Definition api_result (env : Env)
    (balanceSnapshot : option (option number * option number))
    (requestMsats : option number) (answer : Outcome HttpResponse) : PaymentResult :=
  let thrown error :=
    failure (appendBalanceContext balanceSnapshot
               (default "An unknown error occurred."
                        (if_found (extractMessageFromError error)))
               requestMsats) in
  match answer with
  | Ok response =>
      if resp_ok response
      then api_outcome env balanceSnapshot (resp_data response) requestMsats
      else thrown (http_error response)
  | Raise e => thrown e
  end.

(** a result that is a failure names its error *)
Definition explained (result : PaymentResult) : Prop :=
  pr_success result = false ->
  exists error, pr_error result = Some error /\ str_truthy error = true.

(** the request failed: it threw, or the answer has a status that is not ok *)
Definition failed (answer : Outcome HttpResponse) : bool :=
  match answer with
  | Ok response => negb (resp_ok response)
  | Raise _ => true
  end.

(** the answer of the HTTP wallet to a [request] that starts when the
    trace is [tr] *)
Definition http_answer (env : Env) (tr : list Event) (method url : string)
    (body : JsValue) : Outcome HttpResponse :=
  http_fetch env (tr ++ [EvLog "[nwcli] request"]) method url body.

(** the events of a [request] that is answered with [answer] *)
Definition request_events (env : Env) (method url : string) (body : JsValue)
    (answer : Outcome HttpResponse) : list Event :=
  [EvLog "[nwcli] request"; EvHttp method url (getAuthHeader env) body]
  ++ match answer with
     | Ok response =>
         EvLog "[nwcli] response"
         :: (if resp_ok response then [] else [EvLog "[nwcli] error"])
     | Raise _ => [EvLog "[nwcli] error"]
     end.

(** what [request] returns or throws on [answer] *)
Definition request_result (answer : Outcome HttpResponse) : Outcome JsValue :=
  match answer with
  | Ok response =>
      if resp_ok response then Ok (resp_data response) else Raise (http_error response)
  | Raise e => Raise e
  end.

(** the events of the ledger refresh before a payment, from the trace [tr] *)
Definition refreshing (env : Env) (base identifier : string) (tr : list Event)
  : list Event :=
  let url := base ++ "/api/refreshLedger" in
  let body := JObj [("nickname", JStr identifier)] in
  let answer := http_answer env tr "POST" url body in
  request_events env "POST" url body answer
  ++ (if failed answer
      then [EvLog "[WalletManager] refreshLedger failed (non-fatal)"] else []).

(** the balance snapshot [makePayment] takes from the answer to the
    balance request: none when the request failed *)
Definition snapshot_of (env : Env) (answer : Outcome HttpResponse)
  : option (option number * option number) :=
  match request_result answer with
  | Ok data => Some (extractMsats (Number_of_string env) data,
                     extractPendingMsats (Number_of_string env) data)
  | Raise _ => None
  end.

(** the events of the balance fetch before a payment, from the trace [tr] *)
Definition balancing (env : Env) (base identifier : string) (tr : list Event)
  : list Event :=
  let url := base ++ "/api/balance?" ++ URLSearchParams_nickname env identifier in
  let answer := http_answer env tr "GET" url JUndefined in
  request_events env "GET" url JUndefined answer
  ++ [EvLog (if failed answer
             then "[WalletManager] Failed to fetch balance before payment"
             else "[WalletManager] API wallet snapshot before payment")].

(** the event is the payment call: [client.payInvoice] of the relay
    wallet, or the [payInvoice] or [payLnAddress] request to the HTTP
    wallet *)
Definition is_pay_call (env : Env) (e : Event) : bool :=
  match e with
  | EvNwcPayInvoice _ _ => true
  | EvHttp method url _ _ =>
      match buildBaseUrl env with
      | Ok base =>
          String.eqb method "POST"
          && (String.eqb url (base ++ "/api/payInvoice")
              || String.eqb url (base ++ "/api/payLnAddress"))
      | Raise _ => false
      end
  | _ => false
  end.

(** the event is a remote call of the payment path: a fetch of the LNURL
    exchange or the payment call *)
Definition on_payment_path (env : Env) (e : Event) : bool :=
  match e with
  | EvFetch _ => true
  | _ => is_pay_call env e
  end.

(** the remote call [e], made when the trace is [tr], throws: the party
    raises, or the HTTP wallet answers with a status that is not ok *)
Definition call_throws (env : Env) (tr : list Event) (e : Event) : bool :=
  match e with
  | EvFetch url =>
      match fetch_json env tr url with Ok _ => false | Raise _ => true end
  | EvNwcPayInvoice client invoice =>
      match nwc_payInvoice env tr client invoice with Ok _ => false | Raise _ => true end
  | EvHttp method url _ body => failed (http_fetch env tr method url body)
  | _ => false
  end.

(** the payment call [e], made when the trace is [tr], returns a success:
    a result with a preimage from the relay wallet, an ok response that is
    interpreted as a success from the HTTP wallet *)
Definition call_pays (env : Env) (tr : list Event) (e : Event) : bool :=
  match e with
  | EvNwcPayInvoice client invoice =>
      match nwc_payInvoice env tr client invoice with
      | Ok result => truthy (prop result "preimage")
      | Raise _ => false
      end
  | EvHttp method url _ body =>
      match http_fetch env tr method url body with
      | Ok response =>
          resp_ok response
          && i_success (interpretNwcliPaymentResponse (Number_of_string env)
                          (resp_data response))
      | Raise _ => false
      end
  | _ => false
  end.

(** no remote call of the payment path among [events], which follow the
    trace [tr], throws *)
Fixpoint calls_ok (env : Env) (tr : list Event) (events : list Event) : bool :=
  match events with
  | [] => true
  | e :: rest =>
      negb (on_payment_path env e && call_throws env tr e)
      && calls_ok env (tr ++ [e]) rest
  end.

(** from [w] to [w'] no remote call of the payment path threw and no
    payment call was made *)
Definition on_course (env : Env) (w w' : World) : Prop :=
  exists events,
    trace w' = (trace w ++ events)%list
    /\ calls_ok env (trace w) events = true
    /\ forallb (fun e => negb (is_pay_call env e)) events = true.

(** from [w] to [w'] no remote call of the payment path threw and a
    payment call returned a success *)
Definition succeeded (env : Env) (w w' : World) : Prop :=
  exists events,
    trace w' = (trace w ++ events)%list
    /\ calls_ok env (trace w) events = true
    /\ exists before call after,
         events = (before ++ call :: after)%list
         /\ is_pay_call env call = true
         /\ call_pays env (trace w ++ before) call = true.

(** every event *)
Definition any_event (e : Event) : bool := true.

(** ** Vocabulary of the further properties *)

(** some boolean of the tree, at the top or nested at any depth, is [b] *)
Fixpoint any_bool (b : bool) (v : JsValue) : bool :=
  match v with
  | JBool b' => Bool.eqb b b'
  | JArr items => existsb (any_bool b) items
  | JObj fields => existsb (fun kv => any_bool b (snd kv)) fields
  | _ => false
  end.

(** some object of the tree, at any depth, satisfies [p] *)
Fixpoint any_object (p : list (string * JsValue) -> bool) (v : JsValue) : bool :=
  match v with
  | JArr items => existsb (any_object p) items
  | JObj fields => p fields || existsb (fun kv => any_object p (snd kv)) fields
  | _ => false
  end.

(** the string is one of the words [findSuccessFlag] reads as [b] *)
Definition says (b : bool) (s : string) : bool :=
  match successOfString s with
  | Some b' => Bool.eqb b b'
  | None => false
  end.

(** the row [saveNwcWallet] writes *)
Definition nwc_row (encrypted : string) (lnAddress : option string) : WalletRow :=
  {| wallet_type := JStr "nwc"; encrypted_nwc_string := JStr encrypted;
     ln_address := if opt_truthy lnAddress then of_opt_string lnAddress else JNull;
     api_identifier := JNull; api_subaccount_id := JNull; api_label := JNull |}.

(** [row] with its [ln_address] column set to [lnAddress] *)
Definition with_ln_address (row : WalletRow) (lnAddress : JsValue) : WalletRow :=
  {| wallet_type := wallet_type row; encrypted_nwc_string := encrypted_nwc_string row;
     ln_address := lnAddress; api_identifier := api_identifier row;
     api_subaccount_id := api_subaccount_id row; api_label := api_label row |}.

(** the event is a log line or a database statement *)
Definition is_log_or_db (e : Event) : bool :=
  match e with EvLog _ | EvDb _ => true | _ => false end.

(** the trace of [w'] is that of [w] followed by events that all
    satisfy [p] *)
Definition extends (p : Event -> bool) (w w' : World) : Prop :=
  exists events, trace w' = (trace w ++ events)%list /\ forallb p events = true.

(** [w'] differs from [w] by log lines and database statements only: the
    tables and the queues are the same, and no request and no call of a
    remote party was made *)
Definition quiet (w w' : World) : Prop :=
  state_of w' = state_of w /\ extends is_log_or_db w w'.

(** [w'] differs from [w] by events only, none of them the notification
    of a new user *)
Definition calm (w w' : World) : Prop :=
  state_of w' = state_of w /\ extends (fun e => negb (is_notify e)) w w'.

(** the text is made of ASCII characters *)
Definition is_ascii_text (s : string) : bool :=
  string_forall (fun c => Nat.ltb (nat_of_ascii c) 128) s.

(** the event is a call of [client.receiveMessage] *)
Definition is_receive (e : DispatchEvent) : bool :=
  match e with DReceiveMessage _ _ => true | DLog _ => false end.

(** a reply of the worker as the dispatcher takes it from the queue *)
Definition queued (m : OutMessage) : GatewayOutData :=
  {| out_message := m; deliveryId := None; messageId := None; quotedMessageId := None |}.

(** ** Weakest preconditions

    [wp c Q w]: running [c] from [w] ends in an outcome and a world that
    satisfy [Q]. *)

Definition wp {A : Type} (c : M A) (Q : Outcome A -> World -> Prop) (w : World) : Prop :=
  Q (fst (c w)) (snd (c w)).

(** ** Sample hosts, worlds and messages *)

Definition hex64_sample : string :=
  "0123456789abcdef0123456789abcdef0123456789abcdef0123456789abcdef".

(** a host in which the database, the URL parser, the signer and the
    notifier work, and whose remote parties are the arguments *)
Definition sample_env
    (vars : string -> string -> string)
    (http : list Event -> string -> string -> JsValue -> Outcome HttpResponse)
    (lnurl : list Event -> string -> Outcome JsValue)
    (decode : JsValue -> Outcome (list (string * JsValue)))
    (pay : list Event -> string -> JsValue -> Outcome JsValue) : Env :=
  {| getEnv := vars;
     Number_of_string := fun _ => NaN;
     db_error := fun _ => None;
     bind_other := fun _ => Ok JNull;
     decrypt := fun s => Ok s;
     encrypt := fun s => Ok s;
     URL_href := fun s => Ok s;
     URL_set_param := fun href name value => href ++ "?" ++ name ++ "=" ++ value;
     URL_get_param := fun _ _ => Ok JNull;
     encodeURIComponent := fun s => s;
     URLSearchParams_nickname := fun s => "nickname=" ++ s;
     nwc_connect := fun _ => None;
     nwc_payInvoice := pay;
     nwc_getBalance := fun _ _ => Ok (JObj [("balance", JNum (Fin 5000))]);
     nwc_makeInvoice := fun _ _ _ => Ok (JObj [("invoice", JStr "lnbc1sample")]);
     fetch_json := lnurl;
     decodeBolt11 := decode;
     buildBaseUrl := Ok "http://127.0.0.1";
     http_fetch := http;
     new_signer_npub := fun _ => Ok "npub1fresh";
     notify_brain := fun _ => None;
     send_confirmation := fun _ => None |}.

(** no variable is set: every lookup yields its fallback *)
Definition no_vars (name fallback : string) : string := fallback.

Definition shared_vars (name fallback : string) : string :=
  if String.eqb name "SHARED_NWC_STRING" then "nostr+walletconnect://shared"
  else fallback.

Definition gateway_vars (name fallback : string) : string :=
  if String.eqb name "GATEWAY_NPUB" then "npub1gateway"
  else if String.eqb name "NWCLI_MASTER_WALLET" then "master"
  else fallback.

Definition http_down (tr : list Event) (method url : string) (body : JsValue)
  : Outcome HttpResponse :=
  Raise (new_Error "fetch failed").

Definition http_subaccount_created (tr : list Event) (method url : string)
    (body : JsValue) : Outcome HttpResponse :=
  Ok {| resp_ok := true; resp_status := 201; resp_statusText := "Created";
        resp_data :=
          JObj [("id", JStr "sub-1"); ("identifier", JStr "beacon-alice");
                ("subAccount", JObj [("id", JStr "sub-1");
                                     ("label", JStr "beacon-whatsapp-alice")])] |}.

(** an HTTP wallet that settles invoices and fails every other request *)
Definition http_only_pays (tr : list Event) (method url : string) (body : JsValue)
  : Outcome HttpResponse :=
  if String.eqb url "http://127.0.0.1/api/payInvoice"
  then Ok {| resp_ok := true; resp_status := 200; resp_statusText := "OK";
             resp_data := JObj [("status", JStr "paid");
                                ("preimage", JStr hex64_sample)] |}
  else Raise (new_Error "fetch failed").

Definition lnurl_down (tr : list Event) (url : string) : Outcome JsValue :=
  Raise (new_Error "fetch failed").

(** an LNURL service whose invoices carry 5000000 msats, whatever is asked *)
Definition lnurl_overcharging (tr : list Event) (url : string) : Outcome JsValue :=
  Ok (JObj [("tag", JStr "payRequest");
            ("callback", JStr "https://pay.example/cb");
            ("pr", JStr "lnbc50u1sample")]).

Definition decode_fails (invoice : JsValue) : Outcome (list (string * JsValue)) :=
  Raise (new_Error "Not a proper lightning payment request").

Definition decode_5000_sats (invoice : JsValue) : Outcome (list (string * JsValue)) :=
  Ok [("coin_network", JStr "bc"); ("amount", JStr (pretty 5000000))].

Definition pay_down (tr : list Event) (nwcUri : string) (invoice : JsValue)
  : Outcome JsValue :=
  Raise (new_Error "relay timeout").

Definition pay_settles (tr : list Event) (nwcUri : string) (invoice : JsValue)
  : Outcome JsValue :=
  Ok (JObj [("preimage", JStr hex64_sample)]).

Definition empty_world : World :=
  {| user_wallets := ∅; local_npub_map := ∅; onboardingState := ∅;
     pendingStore := ∅; identityOut := []; trace := [] |}.

Definition whatsapp : GatewayInfo :=
  {| gw_type := "whatsapp"; gw_npub := None |}.

Definition message_from_alice (text : string) : BeaconMessage :=
  {| beaconID := "b1"; source_from := "alice"; source_text := Some text;
     source_gateway := whatsapp; meta_ctx := JUndefined |}.

(** alice is mapped to a user and has nothing pending *)
Definition world_alice_known : World :=
  {| user_wallets := ∅;
     local_npub_map :=
       {[ ("whatsapp", "npub1gateway", "alice") :=
            {| user_npub := "npub1alice"; beacon_brain_npub := None;
               beacon_id_npub := None; gateway_bot_id := None |} ]};
     onboardingState := ∅; pendingStore := ∅; identityOut := []; trace := [] |}.

(** alice has been asked to choose a wallet *)
Definition world_alice_choosing : World :=
  {| user_wallets := ∅;
     local_npub_map :=
       {[ ("whatsapp", "npub1gateway", "alice") :=
            {| user_npub := "npub1alice"; beacon_brain_npub := None;
               beacon_id_npub := None; gateway_bot_id := None |} ]};
     onboardingState := {[ "alice" := awaiting_choice "npub1alice" ]};
     pendingStore := ∅; identityOut := []; trace := [] |}.

(** alice holds a generated wallet *)
Definition world_alice_api : World :=
  {| user_wallets :=
       {[ "npub1alice" := api_row (JStr "beacon-alice") (JStr "sub-1")
                                  (JStr "beacon-whatsapp-alice") ]};
     local_npub_map := ∅; onboardingState := ∅; pendingStore := ∅;
     identityOut := []; trace := [] |}.

Definition pay_bob_one_sat : PendingPayment :=
  {| p_npub := "npub1alice"; p_type := "ln_address";
     p_lnAddress := Some "bob@pay.example"; p_amount := Some (Fin 1);
     p_lnInvoice := None |}.

Definition pay_invoice_for_alice : PendingPayment :=
  {| p_npub := "npub1alice"; p_type := "ln_invoice"; p_lnAddress := None;
     p_amount := None; p_lnInvoice := Some "lnbc10u1sample" |}.

(** the host [env] with a database that fails every statement *)
Definition db_down (env : Env) : Env :=
  {| getEnv := getEnv env;
     Number_of_string := Number_of_string env;
     db_error := fun _ => Some (new_Error "database is locked");
     bind_other := bind_other env;
     decrypt := decrypt env;
     encrypt := encrypt env;
     URL_href := URL_href env;
     URL_set_param := URL_set_param env;
     URL_get_param := URL_get_param env;
     encodeURIComponent := encodeURIComponent env;
     URLSearchParams_nickname := URLSearchParams_nickname env;
     nwc_connect := nwc_connect env;
     nwc_payInvoice := nwc_payInvoice env;
     nwc_getBalance := nwc_getBalance env;
     nwc_makeInvoice := nwc_makeInvoice env;
     fetch_json := fetch_json env;
     decodeBolt11 := decodeBolt11 env;
     buildBaseUrl := buildBaseUrl env;
     http_fetch := http_fetch env;
     new_signer_npub := new_signer_npub env;
     notify_brain := notify_brain env;
     send_confirmation := send_confirmation env |}.

(** the host [env] with a brain that cannot be reached: the
    notification of a new user throws *)
Definition notify_down (env : Env) : Env :=
  {| getEnv := getEnv env;
     Number_of_string := Number_of_string env;
     db_error := db_error env;
     bind_other := bind_other env;
     decrypt := decrypt env;
     encrypt := encrypt env;
     URL_href := URL_href env;
     URL_set_param := URL_set_param env;
     URL_get_param := URL_get_param env;
     encodeURIComponent := encodeURIComponent env;
     URLSearchParams_nickname := URLSearchParams_nickname env;
     nwc_connect := nwc_connect env;
     nwc_payInvoice := nwc_payInvoice env;
     nwc_getBalance := nwc_getBalance env;
     nwc_makeInvoice := nwc_makeInvoice env;
     fetch_json := fetch_json env;
     decodeBolt11 := decodeBolt11 env;
     buildBaseUrl := buildBaseUrl env;
     http_fetch := http_fetch env;
     new_signer_npub := new_signer_npub env;
     notify_brain := fun _ => Some (new_Error "brain is unreachable");
     send_confirmation := send_confirmation env |}.

(** alice has been asked for her Lightning Address *)
Definition world_alice_nwc : World :=
  {| user_wallets := {[ "npub1alice" := nwc_row "nostr+walletconnect://alice" None ]};
     local_npub_map := ∅;
     onboardingState := {[ "alice" := awaiting_ln_address "npub1alice" ]};
     pendingStore := ∅; identityOut := []; trace := [] |}.

(** a gateway client that can be built and that accepts every message *)
Definition client_ok (target : string) : option Thrown := None.

Definition receive_ok (target : string) (req : ReceiveMessageRequest) : Outcome JsValue :=
  Ok (JObj [("status", JStr "ok")]).

(** * Properties *)

(** ** Loops that return the first result *)

Lemma first_result_Some {A B : Type} (f : A -> option B) (l : list A) (y : B) :
  first_result f l = Some y -> exists x, In x l /\ f x = Some y.
Proof.
  induction l as [|x rest IH]; simpl; [discriminate|].
  destruct (f x) as [y'|] eqn:Hfx.
  - intros [= ->]. exists x. auto.
  - intros H. destruct (IH H) as (x' & Hin & Hx'). exists x'. auto.
Qed.

Lemma first_result_found {A B : Type} (f : A -> option B) (l : list A) (x : A) :
  In x l -> f x <> None -> exists y, first_result f l = Some y /\ exists x', In x' l /\ f x' = Some y.
Proof.
  induction l as [|a rest IH]; simpl; [tauto|].
  intros Hin Hfx. destruct (f a) as [y|] eqn:Hfa.
  - exists y. split; [reflexivity|]. exists a. auto.
  - destruct Hin as [->|Hin]; [congruence|].
    destruct (IH Hin Hfx) as (y & Hy & x' & Hin' & Hx').
    exists y. split; [assumption|]. exists x'. auto.
Qed.

Lemma if_found_Some (o : option string) (s : string) :
  if_found o = Some s -> o = Some s /\ str_truthy s = true.
Proof.
  destruct o as [t|]; simpl; [|discriminate].
  destruct (str_truthy t) eqn:Ht; [|discriminate].
  intros [= ->]. auto.
Qed.

(** ** Strings *)

Lemma str_truthy_length (s : string) (n : nat) :
  String.length s = S n -> str_truthy s = true.
Proof. destruct s; simpl; [discriminate|reflexivity]. Qed.

Lemma string_forall_impl (p q : ascii -> bool) (s : string) :
  (forall c, p c = true -> q c = true) ->
  string_forall p s = true -> string_forall q s = true.
Proof.
  intros Hpq. induction s as [|c r IH]; simpl; [reflexivity|].
  intros H. apply andb_prop in H as [Hc Hr].
  rewrite (Hpq c Hc), (IH Hr). reflexivity.
Qed.

Lemma is_lower_hex64_looks_like_preimage (s : string) :
  is_lower_hex64 s = true -> str_truthy s = true /\ looks_like_preimage s = true.
Proof.
  unfold is_lower_hex64, looks_like_preimage, test_hex_ci.
  intros H. apply andb_prop in H as [Hlen Hhex].
  apply Nat.eqb_eq in Hlen.
  assert (Ht : str_truthy s = true) by (eapply str_truthy_length; eassumption).
  split; [assumption|].
  rewrite Hlen, Ht. simpl.
  apply string_forall_impl with (p := is_lower_hex_char); [|assumption].
  intros c Hc. unfold is_hex_char. rewrite Hc. reflexivity.
Qed.

Lemma existsb_false {A : Type} (f : A -> bool) (l : list A) :
  existsb f l = false -> forall x, In x l -> f x = false.
Proof.
  intros H x Hin. destruct (f x) eqn:Hfx; [|reflexivity].
  assert (existsb f l = true) by (apply existsb_exists; eauto).
  congruence.
Qed.

(** ** Response normalizer *)

Lemma first_string_prop_keyed (keys : list string) (fields : list (string * JsValue))
    (s : string) :
  first_string_prop keys (JObj fields) = Some s ->
  existsb (keyed_string (String.eqb s) fields) keys = true.
Proof.
  unfold first_string_prop. intros H.
  apply first_result_Some in H as (key & Hin & Hkey).
  apply existsb_exists. exists key. split; [assumption|].
  unfold keyed_string. simpl in Hkey.
  destruct (field key fields); try discriminate.
  injection Hkey as ->. apply String.eqb_refl.
Qed.

Lemma first_string_prop_None (keys : list string) (fields : list (string * JsValue)) :
  first_string_prop keys (JObj fields) = None ->
  existsb (keyed_string (fun _ => true) fields) keys = false.
Proof.
  unfold first_string_prop.
  induction keys as [|key rest IH]; simpl; [reflexivity|].
  unfold keyed_string at 1.
  destruct (field key fields); try discriminate; simpl; auto.
Qed.

Lemma keyed_string_weaken (p q : string -> bool) (fields : list (string * JsValue))
    (keys : list string) :
  (forall s, p s = true -> q s = true) ->
  existsb (keyed_string p fields) keys = true ->
  existsb (keyed_string q fields) keys = true.
Proof.
  intros Hpq H. apply existsb_exists in H as (key & Hin & Hkey).
  apply existsb_exists. exists key. split; [assumption|].
  unfold keyed_string in *. destruct (field key fields); try discriminate. auto.
Qed.

Local Opaque preimage_keys.

Lemma findPreimage_sound (v : JsValue) (s : string) :
  findPreimage v = Some s ->
  any_string (fun x => String.eqb x s && looks_like_preimage x) v = true
  \/ any_keyed_string preimage_keys (String.eqb s) v = true.
Proof.
  revert s. induction v as [| |b|n|s0|items IH|fields IH] using JsValue_ind;
    intros s; simpl; try discriminate.
  - destruct (str_truthy s0 && looks_like_preimage s0) eqn:Hc; [|discriminate].
    intros [= ->]. left. apply andb_prop in Hc as [_ ->].
    rewrite String.eqb_refl. reflexivity.
  - intros H. apply first_result_Some in H as (x & Hin & Hx).
    apply if_found_Some in Hx as [Hx _].
    rewrite List.Forall_forall in IH.
    destruct (IH x Hin s Hx) as [H|H]; [left|right];
      apply existsb_exists; exists x; auto.
  - destruct (first_string_prop preimage_keys (JObj fields)) as [c|] eqn:Hdirect.
    + intros [= ->]. right.
      rewrite (first_string_prop_keyed _ _ _ Hdirect). reflexivity.
    + intros H. apply first_result_Some in H as (kv & Hin & Hkv).
      apply if_found_Some in Hkv as [Hkv _].
      rewrite List.Forall_forall in IH.
      destruct (IH kv Hin s Hkv) as [H|H]; [left|right].
      * apply existsb_exists. exists kv. auto.
      * apply orb_true_iff. right. apply existsb_exists. exists kv. auto.
Qed.

Lemma findPreimage_complete (v : JsValue) :
  any_keyed_string preimage_keys (fun s => negb (str_truthy s)) v = false ->
  any_string looks_like_preimage v || any_keyed_string preimage_keys (fun _ => true) v = true ->
  exists s, findPreimage v = Some s /\ str_truthy s = true.
Proof.
  induction v as [| |b|n|s0|items IH|fields IH] using JsValue_ind;
    simpl; try discriminate.
  - intros _ H. rewrite orb_false_r in H.
    assert (Ht : str_truthy s0 = true).
    { unfold looks_like_preimage in H. apply andb_prop in H as [Hlen _].
      apply Nat.eqb_eq in Hlen. eapply str_truthy_length; eassumption. }
    exists s0. rewrite Ht, H. auto.
  - intros Hne Hc. rewrite List.Forall_forall in IH.
    assert (Hx : exists x, In x items /\
               any_string looks_like_preimage x
               || any_keyed_string preimage_keys (fun _ => true) x = true).
    { apply orb_true_iff in Hc as [Hc|Hc];
        apply existsb_exists in Hc as (x & Hin & Hx);
        exists x; rewrite Hx; split; auto using orb_true_r. }
    destruct Hx as (x & Hin & Hx).
    destruct (IH x Hin (existsb_false _ _ Hne x Hin) Hx) as (s & Hs & Ht).
    destruct (first_result_found (fun nested => if_found (findPreimage nested)) items x Hin)
      as (y & Hy & x' & _ & Hx').
    { rewrite Hs. simpl. rewrite Ht. discriminate. }
    exists y. split; [assumption|]. apply if_found_Some in Hx'. tauto.
  - intros Hne Hc. rewrite List.Forall_forall in IH.
    apply orb_false_iff in Hne as [Hne_direct Hne_nested].
    destruct (first_string_prop preimage_keys (JObj fields)) as [c|] eqn:Hdirect.
    + exists c. split; [reflexivity|].
      pose proof (first_string_prop_keyed _ _ _ Hdirect) as Hk.
      apply existsb_exists in Hk as (key & Hin & Hkey).
      pose proof (existsb_false _ _ Hne_direct key Hin) as Hnek.
      unfold keyed_string in *.
      destruct (field key fields); try discriminate.
      apply String.eqb_eq in Hkey. subst.
      apply negb_false_iff in Hnek. assumption.
    + rewrite (first_string_prop_None _ _ Hdirect) in Hc. simpl in Hc.
      assert (Hx : exists kv, In kv fields /\
                 any_string looks_like_preimage (snd kv)
                 || any_keyed_string preimage_keys (fun _ => true) (snd kv) = true).
      { apply orb_true_iff in Hc as [Hc|Hc];
          apply existsb_exists in Hc as (kv & Hin & Hkv);
          exists kv; rewrite Hkv; split; auto using orb_true_r. }
      destruct Hx as (kv & Hin & Hkv).
      destruct (IH kv Hin (existsb_false _ _ Hne_nested kv Hin) Hkv) as (s & Hs & Ht).
      destruct (first_result_found (fun kv => if_found (findPreimage (snd kv))) fields kv Hin)
        as (y & Hy & kv' & _ & Hkv').
      { rewrite Hs. simpl. rewrite Ht. discriminate. }
      exists y. split; [assumption|]. apply if_found_Some in Hkv'. tauto.
Qed.

Local Transparent preimage_keys.

Lemma any_string_weaken (p q : string -> bool) (v : JsValue) :
  (forall s, p s = true -> q s = true) ->
  any_string p v = true -> any_string q v = true.
Proof.
  intros Hpq. induction v as [| |b|n|s0|items IH|fields IH] using JsValue_ind;
    simpl; auto.
  - rewrite List.Forall_forall in IH. intros H.
    apply existsb_exists in H as (x & Hin & Hx).
    apply existsb_exists. exists x. auto.
  - rewrite List.Forall_forall in IH. intros H.
    apply existsb_exists in H as (kv & Hin & Hkv).
    apply existsb_exists. exists kv. auto.
Qed.

Lemma any_keyed_string_weaken (keys : list string) (p q : string -> bool) (v : JsValue) :
  (forall s, p s = true -> q s = true) ->
  any_keyed_string keys p v = true -> any_keyed_string keys q v = true.
Proof.
  intros Hpq. induction v as [| |b|n|s0|items IH|fields IH] using JsValue_ind;
    simpl; auto.
  - rewrite List.Forall_forall in IH. intros H.
    apply existsb_exists in H as (x & Hin & Hx).
    apply existsb_exists. exists x. auto.
  - rewrite List.Forall_forall in IH. intros H.
    apply orb_true_iff in H as [H|H]; apply orb_true_iff; [left|right].
    + eapply keyed_string_weaken; eassumption.
    + apply existsb_exists in H as (kv & Hin & Hkv).
      apply existsb_exists. exists kv. auto.
Qed.

Lemma findPreimage_absent (v : JsValue) :
  any_string looks_like_preimage v = false ->
  any_keyed_string preimage_keys (fun _ => true) v = false ->
  findPreimage v = None.
Proof.
  intros Hs Hk. destruct (findPreimage v) as [s|] eqn:Hv; [|reflexivity].
  apply findPreimage_sound in Hv as [H|H].
  - apply any_string_weaken with (q := looks_like_preimage) in H; [congruence|].
    intros x Hx. apply andb_prop in Hx. tauto.
  - apply any_keyed_string_weaken with (q := fun _ => true) in H; [congruence|auto].
Qed.

(** C2, as stated, fails: the response [{preimage: "abc"}] holds no
    64-character hexadecimal string anywhere, and the extractor still
    returns a proof, the string ["abc"] found under the recognized key. *)
Lemma findPreimage_returns_unchecked_string :
  let response := JObj [("preimage", JStr "abc")] in
  any_string is_lower_hex64 response = false
  /\ any_string looks_like_preimage response = false
  /\ findPreimage response = Some "abc".
Proof. repeat split. Qed.

(** an empty string under a recognized field name hides a proof nested
    deeper: the empty string is the result *)
Example findPreimage_empty_candidate_wins :
  findPreimage (JObj [("preimage", JStr "");
                      ("data", JObj [("preimage", JStr hex64_sample)])])
  = Some "".
Proof. reflexivity. Qed.

Lemma first_result_split {A B : Type} (f : A -> option B) (before after : list A)
    (x : A) (y : B) :
  (forall a, In a before -> f a = None) ->
  f x = Some y ->
  first_result f (before ++ x :: after) = Some y.
Proof.
  intros Hbefore Hx. induction before as [|a rest IH]; simpl.
  - rewrite Hx. reflexivity.
  - rewrite (Hbefore a) by (left; reflexivity). apply IH.
    intros b Hb. apply Hbefore. right. exact Hb.
Qed.

Lemma first_result_nothing {A B : Type} (f : A -> option B) (l : list A) :
  (forall a, In a l -> f a = None) -> first_result f l = None.
Proof.
  intros H. induction l as [|a rest IH]; simpl; [reflexivity|].
  rewrite (H a) by (left; reflexivity). apply IH.
  intros b Hb. apply H. right. exact Hb.
Qed.

Lemma if_found_nothing (o : option string) :
  o = None \/ o = Some "" -> if_found o = None.
Proof. intros [-> | ->]; reflexivity. Qed.

Lemma if_found_kept (s : string) : str_truthy s = true -> if_found (Some s) = Some s.
Proof. intros H. simpl. rewrite H. reflexivity. Qed.

Lemma first_string_prop_no_string (fields : list (string * JsValue)) :
  (forall key t, In key preimage_keys -> field key fields <> JStr t) ->
  first_string_prop preimage_keys (JObj fields) = None.
Proof.
  intros H. unfold first_string_prop. apply first_result_nothing.
  intros key Hkey. simpl. specialize (H key).
  destruct (field key fields); try reflexivity.
  exfalso. eapply H; [exact Hkey|reflexivity].
Qed.

(** C2, amended.  [findPreimage] returns a string that is itself the
    response when it is a 64-character hexadecimal string; for an object
    it returns the first of the fields [preimage], [paymentPreimage],
    [preImage], in this order, that holds a string, whatever that string
    is; otherwise the first non-empty result found in the nested values,
    depth first in field order: the result of the first element of an
    array, or of the first field value of an object without a string under
    a recognized name, whose own result is a non-empty string, every
    element before it giving none or the empty string; and none when every
    nested value gives none or the empty string.  Hence any result is a
    64-character hexadecimal string (either case) of the tree or a string
    stored under a recognized field name; when the tree holds neither the
    result is none; and when no recognized field holds an empty string and
    the tree holds one or the other, a non-empty result is returned. *)
Theorem findPreimage_first_match :
  (forall s, is_lower_hex64 s = true -> findPreimage (JStr s) = Some s)
  /\ (forall fields s,
        first_string_prop preimage_keys (JObj fields) = Some s ->
        findPreimage (JObj fields) = Some s)
  /\ (forall v s,
        findPreimage v = Some s ->
        any_string (fun x => String.eqb x s && looks_like_preimage x) v = true
        \/ any_keyed_string preimage_keys (String.eqb s) v = true)
  /\ (forall v,
        any_string looks_like_preimage v = false ->
        any_keyed_string preimage_keys (fun _ => true) v = false ->
        findPreimage v = None)
  /\ (forall v,
        any_keyed_string preimage_keys (fun s => negb (str_truthy s)) v = false ->
        any_string looks_like_preimage v
        || any_keyed_string preimage_keys (fun _ => true) v = true ->
        exists s, findPreimage v = Some s /\ str_truthy s = true)
  /\ (forall fields s,
        field "preimage" fields = JStr s
        \/ ((forall t, field "preimage" fields <> JStr t)
            /\ field "paymentPreimage" fields = JStr s)
        \/ ((forall t, field "preimage" fields <> JStr t)
            /\ (forall t, field "paymentPreimage" fields <> JStr t)
            /\ field "preImage" fields = JStr s) ->
        findPreimage (JObj fields) = Some s)
  /\ (forall before nested after s,
        (forall v, In v before -> findPreimage v = None \/ findPreimage v = Some "") ->
        findPreimage nested = Some s ->
        str_truthy s = true ->
        findPreimage (JArr (before ++ nested :: after)) = Some s)
  /\ (forall before key nested after s,
        (forall k t, In k preimage_keys ->
                     field k (before ++ (key, nested) :: after) <> JStr t) ->
        (forall kv, In kv before ->
                    findPreimage (snd kv) = None \/ findPreimage (snd kv) = Some "") ->
        findPreimage nested = Some s ->
        str_truthy s = true ->
        findPreimage (JObj (before ++ (key, nested) :: after)) = Some s)
  /\ (forall items,
        (forall v, In v items -> findPreimage v = None \/ findPreimage v = Some "") ->
        findPreimage (JArr items) = None)
  /\ (forall fields,
        (forall k t, In k preimage_keys -> field k fields <> JStr t) ->
        (forall kv, In kv fields ->
                    findPreimage (snd kv) = None \/ findPreimage (snd kv) = Some "") ->
        findPreimage (JObj fields) = None).
Proof.
  split; [|split; [|split; [|split; [|split; [|split; [|split; [|split; [|split]]]]]]]].
  - intros s Hs. apply is_lower_hex64_looks_like_preimage in Hs as [Ht Hl].
    simpl. rewrite Ht, Hl. reflexivity.
  - intros fields s H. simpl. rewrite H. reflexivity.
  - exact findPreimage_sound.
  - exact findPreimage_absent.
  - exact findPreimage_complete.
  - intros fields s H. cbn [findPreimage]. unfold first_string_prop, preimage_keys.
    cbn [first_result prop].
    destruct H as [H|[[H1 H]|(H1 & H2 & H)]].
    + rewrite H. reflexivity.
    + destruct (field "preimage" fields) eqn:E1; try (rewrite H; reflexivity).
      exfalso. exact (H1 _ eq_refl).
    + destruct (field "preimage" fields) eqn:E1; try (exfalso; exact (H1 _ eq_refl));
        (destruct (field "paymentPreimage" fields) eqn:E2;
         try (exfalso; exact (H2 _ eq_refl)); rewrite H; reflexivity).
  - intros before nested after s Hbefore Hnested Hs. cbn [findPreimage].
    apply first_result_split.
    + intros v Hv. apply if_found_nothing, Hbefore, Hv.
    + rewrite Hnested. apply if_found_kept, Hs.
  - intros before key nested after s Hdirect Hbefore Hnested Hs. cbn [findPreimage].
    rewrite (first_string_prop_no_string _ Hdirect).
    apply (first_result_split (fun kv => if_found (findPreimage (snd kv)))).
    + intros kv Hkv. apply if_found_nothing, Hbefore, Hkv.
    + cbn [snd]. rewrite Hnested. apply if_found_kept, Hs.
  - intros items Hitems. cbn [findPreimage]. apply first_result_nothing.
    intros v Hv. apply if_found_nothing, Hitems, Hv.
  - intros fields Hdirect Hfields. cbn [findPreimage].
    rewrite (first_string_prop_no_string _ Hdirect).
    apply first_result_nothing.
    intros kv Hkv. apply if_found_nothing, Hfields, Hkv.
Qed.

Lemma findPreimage_first_match_witness :
  findPreimage (JStr hex64_sample) = Some hex64_sample
  /\ findPreimage (JObj [("status", JStr "paid"); ("paymentPreimage", JStr "abc")])
     = Some "abc"
  /\ (any_string (fun x => String.eqb x "abc" && looks_like_preimage x)
        (JObj [("data", JObj [("preimage", JStr "abc")])]) = true
      \/ any_keyed_string preimage_keys (String.eqb "abc")
           (JObj [("data", JObj [("preimage", JStr "abc")])]) = true)
  /\ findPreimage (JObj [("status", JStr "paid"); ("fee", JNum (Fin 3))]) = None
  /\ (exists s,
        findPreimage (JObj [("result", JObj [("preImage", JStr hex64_sample)])]) = Some s
        /\ str_truthy s = true)
  /\ findPreimage (JObj [("preImage", JStr "third"); ("paymentPreimage", JStr "second");
                         ("preimage", JNum (Fin 1))])
     = Some "second"
  /\ findPreimage (JArr [JObj [("preimage", JStr "")]; JNum (Fin 7);
                         JObj [("preimage", JStr "first")];
                         JObj [("preimage", JStr "second")]])
     = Some "first"
  /\ findPreimage (JObj [("a", JObj [("preimage", JStr "first")]);
                         ("b", JObj [("preimage", JStr "second")])])
     = Some "first"
  /\ findPreimage (JArr [JObj [("preimage", JStr "")]; JNum (Fin 7)]) = None
  /\ findPreimage (JObj [("a", JObj [("preimage", JStr "")]); ("b", JNum (Fin 7))]) = None.
Proof.
  destruct findPreimage_first_match
    as (H1 & H2 & H3 & H4 & H5 & H6 & H7 & H8 & H9 & H10).
  split; [|split; [|split; [|split; [|split; [|split; [|split; [|split; [|split]]]]]]]].
  - apply H1. reflexivity.
  - apply H2. reflexivity.
  - apply H3. reflexivity.
  - apply H4; reflexivity.
  - apply H5; reflexivity.
  - apply H6. right. left. split; [discriminate|reflexivity].
  - apply (H7 [JObj [("preimage", JStr "")]; JNum (Fin 7)]
              (JObj [("preimage", JStr "first")])
              [JObj [("preimage", JStr "second")]] "first"); try reflexivity.
    intros v [<-|[<-|[]]]; [right|left]; reflexivity.
  - apply (H8 [] "a" (JObj [("preimage", JStr "first")])
              [("b", JObj [("preimage", JStr "second")])] "first"); try reflexivity.
    + intros k t [<-|[<-|[<-|[]]]]; discriminate.
    + intros kv [].
  - apply H9. intros v [<-|[<-|[]]]; [right|left]; reflexivity.
  - apply H10.
    + intros k t [<-|[<-|[<-|[]]]]; discriminate.
    + intros kv [<-|[<-|[]]]; [right|left]; reflexivity.
Defined.

(** C4.  On [{status: "error", reason: "insufficient funds"}] the error
    extractor returns ["insufficient funds"] and the success extractor
    returns false, so the interpreted payment response is a failure
    whatever the host's number parser is. *)
Theorem error_response_extractors :
  let response := JObj [("status", JStr "error"); ("reason", JStr "insufficient funds")] in
  extractErrorMessage response = Some "insufficient funds"
  /\ findSuccessFlag response = Some false
  /\ forall Number_of_string,
       i_success (interpretNwcliPaymentResponse Number_of_string response) = false.
Proof. repeat split. Qed.

(** C5.  On [{result: {payResult: {}}}] no boolean [success] field and no
    string [status] or [state] field is found, [hasPayResult] holds, and
    the interpreted payment response is a success. *)
Theorem payResult_fallback_success :
  let response := JObj [("result", JObj [("payResult", JObj [])])] in
  findSuccessFlag response = None
  /\ hasPayResult response = true
  /\ forall Number_of_string,
       i_success (interpretNwcliPaymentResponse Number_of_string response) = true.
Proof. repeat split. Qed.

(** ** Doubles

    [Math.floor(n / 1000)] and [1000 * k] on the doubles that are safe
    integers, from the definitions of IEEE-754 division, multiplication
    and rounding to nearest even. *)

Module DoubleFacts.
Import SpecFloat.

Lemma digits2_pos_bounds (p : positive) :
  2 ^ (Zpos (digits2_pos p) - 1) <= Zpos p < 2 ^ Zpos (digits2_pos p).
Proof.
  induction p as [p IH|p IH|]; cbn [digits2_pos].
  - rewrite Pos2Z.inj_succ.
    replace (Z.succ (Zpos (digits2_pos p)) - 1) with (Z.succ (Zpos (digits2_pos p) - 1)) by lia.
    rewrite !Z.pow_succ_r by lia. lia.
  - rewrite Pos2Z.inj_succ.
    replace (Z.succ (Zpos (digits2_pos p)) - 1) with (Z.succ (Zpos (digits2_pos p) - 1)) by lia.
    rewrite !Z.pow_succ_r by lia. lia.
  - cbn. lia.
Qed.

Lemma digits2_pos_unique (p : positive) (d : Z) :
  2 ^ (d - 1) <= Zpos p < 2 ^ d -> Zpos (digits2_pos p) = d.
Proof.
  intros [Hlo Hhi]. pose proof (digits2_pos_bounds p) as [Hlo' Hhi'].
  set (d' := Zpos (digits2_pos p)) in *.
  assert (0 < d') by (subst d'; lia).
  assert (0 < d).
  { destruct (Z_lt_le_dec 0 d); [assumption|].
    assert (2 ^ d <= 1); [|lia].
    destruct (Z.eq_dec d 0) as [->|]; [cbn; lia|].
    rewrite Z.pow_neg_r by lia. lia. }
  destruct (Z_lt_le_dec d' d) as [Hlt|Hge].
  - assert (2 ^ d' <= 2 ^ (d - 1)) by (apply Z.pow_le_mono_r; lia). lia.
  - destruct (Z_lt_le_dec d d') as [Hlt|Hge']; [|lia].
    assert (2 ^ d <= 2 ^ (d' - 1)) by (apply Z.pow_le_mono_r; lia). lia.
Qed.

Lemma iter_xO (p : positive) (k : positive) :
  Zpos (Pos.iter xO p k) = Zpos p * 2 ^ Zpos k.
Proof.
  induction k as [|k IH] using Pos.peano_ind.
  - cbn. lia.
  - rewrite Pos.iter_succ, Pos2Z.inj_succ, Z.pow_succ_r by lia.
    rewrite Pos2Z.inj_xO, IH. lia.
Qed.

(** rounding a mantissa of 53 digits that is exact changes nothing *)
Lemma round_aux_exact (s : bool) (m : positive) (e : Z) :
  Zpos (digits2_pos m) = 53 ->
  -1074 <= e <= 971 ->
  binary_round_aux 53 1024 s (Zpos m) e loc_Exact = S754_finite s m e.
Proof.
  intros Hd He. unfold binary_round_aux, shr_fexp, Zdigits2, fexp, emin.
  rewrite Hd.
  replace (Z.max (53 + e - 53) (3 - 1024 - 53) - e) with 0 by lia.
  cbn [shr shr_record_of_loc shr_m loc_of_shr_record round_nearest_even].
  rewrite Hd.
  replace (Z.max (53 + e - 53) (3 - 1024 - 53) - e) with 0 by lia.
  cbn [shr shr_record_of_loc shr_m].
  replace (e <=? 1024 - 53) with true by (symmetry; apply Z.leb_le; lia).
  reflexivity.
Qed.

(** rounding a positive integer below 2^53: the integer, shifted to 53
    digits *)
Lemma round_normal (s : bool) (p : positive) :
  Zpos p < 2 ^ 53 ->
  exists m,
    binary_round 53 1024 s p 0 = S754_finite s m (Zpos (digits2_pos p) - 53)
    /\ Zpos m = Zpos p * 2 ^ (53 - Zpos (digits2_pos p))
    /\ Zpos (digits2_pos m) = 53.
Proof.
  intros Hp. pose proof (digits2_pos_bounds p) as [Hlo Hhi].
  set (d := Zpos (digits2_pos p)) in *.
  assert (Hd : 1 <= d <= 53).
  { split; [subst d; lia|].
    destruct (Z_lt_le_dec 53 d) as [Hgt|]; [|assumption].
    assert (2 ^ 53 <= 2 ^ (d - 1)) by (apply Z.pow_le_mono_r; lia). lia. }
  unfold binary_round, shl_align, fexp, emin.
  fold d. replace (Z.max (d + 0 - 53) (3 - 1024 - 53) - 0) with (d - 53) by lia.
  replace (Z.max (d + 0 - 53) (3 - 1024 - 53)) with (d - 53) by lia.
  destruct (d - 53) as [|q|q] eqn:Hq; [| lia |].
  - exists p. assert (d = 53) by lia.
    split; [apply round_aux_exact; [assumption|lia]|].
    split; [replace (53 - d) with 0 by lia; lia|assumption].
  - exists (Pos.iter xO p q).
    assert (Hm : Zpos (Pos.iter xO p q) = Zpos p * 2 ^ (53 - d)).
    { rewrite iter_xO. f_equal. f_equal. lia. }
    assert (Hdm : Zpos (digits2_pos (Pos.iter xO p q)) = 53).
    { apply digits2_pos_unique. rewrite Hm.
      replace (2 ^ (53 - 1)) with (2 ^ (d - 1) * 2 ^ (53 - d))
        by (rewrite <- Z.pow_add_r by lia; f_equal; lia).
      replace (2 ^ 53) with (2 ^ d * 2 ^ (53 - d))
        by (rewrite <- Z.pow_add_r by lia; f_equal; lia).
      assert (0 < 2 ^ (53 - d)) by (apply Z.pow_pos_nonneg; lia).
      nia. }
    split; [apply round_aux_exact; [assumption|lia]|].
    split; assumption.
Qed.

Lemma fexp_shift (d e : Z) :
  -1074 <= d + e - 53 ->
  Z.max (d + e - 53) (3 - 1024 - 53) - e = d - 53.
Proof. lia. Qed.

(** the second normalisation of [binary_round_aux]: a mantissa of 53
    digits stays, 2^53 becomes 2^52 with the next exponent *)
Lemma shr_fexp_exact (m : positive) (e : Z) :
  -1074 <= e ->
  2 ^ 52 <= Zpos m <= 2 ^ 53 ->
  exists m' e',
    shr_fexp 53 1024 (Zpos m) e loc_Exact
    = ({| shr_m := Zpos m'; shr_r := false; shr_s := false |}, e')
    /\ e <= e' <= e + 1
    /\ Zpos m' * 2 ^ (e' - e) = Zpos m.
Proof.
  intros He [Hlo Hhi].
  destruct (Z.eq_dec (Zpos m) (2 ^ 53)) as [Heq|Hne].
  - change (2 ^ 53) with (Zpos 9007199254740992) in Heq.
    injection Heq as ->. exists 4503599627370496%positive, (e + 1).
    unfold shr_fexp, fexp, emin.
    change (Zdigits2 (Zpos 9007199254740992)) with 54.
    rewrite (fexp_shift 54 e) by lia. change (54 - 53) with 1.
    cbn [shr iter_pos shr_1 shr_record_of_loc].
    split; [reflexivity|]. split; [lia|].
    replace (e + 1 - e) with 1 by lia. reflexivity.
  - assert (Hd : Zpos (digits2_pos m) = 53) by (apply digits2_pos_unique; lia).
    exists m, e. unfold shr_fexp, fexp, emin, Zdigits2. rewrite Hd.
    rewrite fexp_shift by lia. change (53 - 53) with 0. cbn [shr shr_record_of_loc].
    split; [reflexivity|]. split; [lia|].
    replace (e - e) with 0 by lia. rewrite Z.pow_0_r, Z.mul_1_r. reflexivity.
Qed.

(** rounding a quotient of 53 or 54 digits: the result lies between the
    quotient without its last bit and the quotient plus one; it is the
    quotient when that is exact and fits; it is not below a quotient of
    53 digits; and an odd quotient of 54 digits that is not exact is
    rounded up *)
Lemma round_aux_bounds (s : bool) (q : positive) (e : Z) (l : location) :
  2 ^ 52 <= Zpos q < 2 ^ 54 ->
  -1074 <= e <= 960 ->
  exists m e',
    binary_round_aux 53 1024 s (Zpos q) e l = S754_finite s m e'
    /\ e <= e' <= e + 2
    /\ let V := Zpos m * 2 ^ (e' - e) in
       2 * (Zpos q / 2) <= V <= Zpos q + 1
       /\ (Zpos q < 2 ^ 53 -> Zpos q <= V)
       /\ (l = loc_Exact -> Zpos q < 2 ^ 53 \/ Z.even (Zpos q) = true -> V = Zpos q)
       /\ (2 ^ 53 <= Zpos q -> Z.even (Zpos q) = false -> l <> loc_Exact ->
           V = Zpos q + 1).
Proof.
  intros [Hlo Hhi] He.
  assert (Hfinish : forall (Phi : Z -> Prop) (m1 : positive) (e1 : Z),
             e <= e1 <= e + 1 ->
             2 ^ 52 <= Zpos m1 <= 2 ^ 53 ->
             Phi (Zpos m1 * 2 ^ (e1 - e)) ->
             exists m e',
               (let '(mrs'', e'') := shr_fexp 53 1024 (Zpos m1) e1 loc_Exact in
                match shr_m mrs'' with
                | 0 => S754_zero s
                | Zpos m => if e'' <=? 1024 - 53 then S754_finite s m e'' else S754_infinity s
                | Zneg _ => S754_nan
                end) = S754_finite s m e'
               /\ e <= e' <= e + 2
               /\ Phi (Zpos m * 2 ^ (e' - e))).
  { intros Phi m1 e1 He1 Hm1 Hv.
    destruct (shr_fexp_exact m1 e1) as (m' & e' & -> & He' & Hm'); [lia|assumption|].
    exists m', e'. cbn [shr_m].
    replace (e' <=? 1024 - 53) with true by (symmetry; apply Z.leb_le; lia).
    split; [reflexivity|]. split; [lia|].
    replace (e' - e) with ((e' - e1) + (e1 - e)) by lia.
    rewrite Z.pow_add_r by lia. rewrite Z.mul_assoc, Hm'. exact Hv. }
  unfold binary_round_aux.
  pose proof (Z.mul_div_le (Zpos q) 2 eq_refl) as Hhalf.
  assert (Hhalf' : Zpos q - 1 <= 2 * (Zpos q / 2)).
  { pose proof (Z.mod_pos_bound (Zpos q) 2 eq_refl).
    pose proof (Z.div_mod (Zpos q) 2). lia. }
  destruct (Z_lt_le_dec (Zpos q) (2 ^ 53)) as [H53|H54].
  - (* 53 digits: no shift *)
    assert (Hd : Zpos (digits2_pos q) = 53) by (apply digits2_pos_unique; lia).
    unfold shr_fexp at 1. unfold fexp, emin, Zdigits2. rewrite Hd.
    rewrite fexp_shift by lia. change (53 - 53) with 0. cbn [shr].
    assert (Hround : exists m1,
               round_nearest_even (shr_m (shr_record_of_loc (Zpos q) l))
                 (loc_of_shr_record (shr_record_of_loc (Zpos q) l)) = Zpos m1
               /\ Zpos q <= Zpos m1 <= Zpos q + 1
               /\ (l = loc_Exact -> Zpos m1 = Zpos q)).
    { destruct l as [|[| |]]; cbn [shr_record_of_loc shr_m loc_of_shr_record round_nearest_even].
      - exists q. split; [reflexivity|]. split; [lia|reflexivity].
      - destruct (Z.even (Zpos q)); [exists q|exists (q + 1)%positive];
          (split; [reflexivity|]); (split; [lia|discriminate]).
      - exists q. split; [reflexivity|]. split; [lia|discriminate].
      - exists (q + 1)%positive. split; [reflexivity|]. split; [lia|discriminate]. }
    destruct Hround as (m1 & -> & Hm1 & Hexact).
    apply (Hfinish
             (fun V => 2 * (Zpos q / 2) <= V <= Zpos q + 1
                       /\ (Zpos q < 2 ^ 53 -> Zpos q <= V)
                       /\ (l = loc_Exact ->
                           Zpos q < 2 ^ 53 \/ Z.even (Zpos q) = true -> V = Zpos q)
                       /\ (2 ^ 53 <= Zpos q -> Z.even (Zpos q) = false ->
                           l <> loc_Exact -> V = Zpos q + 1))
             m1 e); [lia|lia|].
    replace (e - e) with 0 by lia. rewrite Z.pow_0_r, Z.mul_1_r.
    split; [lia|]. split; [lia|]. split; [intros Hl _; apply Hexact, Hl|lia].
  - (* 54 digits: one shift *)
    assert (Hd : Zpos (digits2_pos q) = 54) by (apply digits2_pos_unique; lia).
    unfold shr_fexp at 1. unfold fexp, emin, Zdigits2. rewrite Hd.
    rewrite fexp_shift by lia. change (54 - 53) with 1. cbn [shr iter_pos].
    assert (Hround : exists m1,
               round_nearest_even (shr_m (shr_1 (shr_record_of_loc (Zpos q) l)))
                 (loc_of_shr_record (shr_1 (shr_record_of_loc (Zpos q) l))) = Zpos m1
               /\ 2 * (Zpos q / 2) <= 2 * Zpos m1 <= Zpos q + 1
               /\ (l = loc_Exact -> Z.even (Zpos q) = true -> 2 * Zpos m1 = Zpos q)
               /\ (Z.even (Zpos q) = false -> l <> loc_Exact ->
                   2 * Zpos m1 = Zpos q + 1)).
    { destruct q as [q'|q'|]; [| |cbn in Hlo; lia].
      - assert (Hq : Zpos q'~1 / 2 = Zpos q').
        { rewrite Pos2Z.inj_xI. symmetry. apply (Z.div_unique _ _ _ 1); lia. }
        rewrite Hq.
        destruct l as [|[| |]];
          cbn [shr_record_of_loc shr_1 shr_m loc_of_shr_record round_nearest_even orb];
          try (destruct (Z.even (Zpos q')));
          first [ exists (q' + 1)%positive;
                  split; [reflexivity|]; split; [lia|];
                  split; [intros; discriminate|intros; lia]
                | exists q';
                  split; [reflexivity|]; split; [lia|];
                  split; [intros _ H; cbn in H; discriminate H|intros _ H; congruence] ].
      - assert (Hq : Zpos q'~0 / 2 = Zpos q').
        { rewrite Pos2Z.inj_xO. symmetry. apply (Z.div_unique _ _ _ 0); lia. }
        rewrite Hq.
        destruct l as [|[| |]];
          cbn [shr_record_of_loc shr_1 shr_m loc_of_shr_record round_nearest_even orb];
          exists q'; (split; [reflexivity|]); (split; [lia|]);
          (split; [intros; lia|intros H; cbn in H; discriminate H]). }
    destruct Hround as (m1 & -> & Hm1 & Hexact & Hup).
    apply (Hfinish
             (fun V => 2 * (Zpos q / 2) <= V <= Zpos q + 1
                       /\ (Zpos q < 2 ^ 53 -> Zpos q <= V)
                       /\ (l = loc_Exact ->
                           Zpos q < 2 ^ 53 \/ Z.even (Zpos q) = true -> V = Zpos q)
                       /\ (2 ^ 53 <= Zpos q -> Z.even (Zpos q) = false ->
                           l <> loc_Exact -> V = Zpos q + 1))
             m1 (e + 1)); [lia|lia|].
    replace (e + 1 - e) with 1 by lia. change (2 ^ 1) with 2.
    split; [lia|]. split; [lia|]. split.
    + intros Hl [Hlt|Heven]; [lia|]. specialize (Hexact Hl Heven). lia.
    + intros _ Hodd Hl. specialize (Hup Hodd Hl). lia.
Qed.

Lemma iter_pos_nat {A : Type} (f : A -> A) (p : positive) (x : A) :
  iter_pos f p x = Nat.iter (Pos.to_nat p) f x.
Proof.
  assert (Hadd : forall a b y, Nat.iter (a + b) f y = Nat.iter a f (Nat.iter b f y)).
  { intros a b y. induction a as [|a IH]; [reflexivity|].
    cbn [Nat.add]. rewrite !Nat.iter_succ, IH. reflexivity. }
  revert x. induction p as [p IH|p IH|]; intros x; cbn [iter_pos].
  - rewrite !IH, Pos2Nat.inj_xI.
    replace (S (2 * Pos.to_nat p))%nat with (Pos.to_nat p + (Pos.to_nat p + 1))%nat by lia.
    rewrite !Hadd. reflexivity.
  - rewrite !IH, Pos2Nat.inj_xO.
    replace (2 * Pos.to_nat p)%nat with (Pos.to_nat p + Pos.to_nat p)%nat by lia.
    rewrite Hadd. reflexivity.
  - reflexivity.
Qed.

Lemma shr_1_even (m : Z) :
  0 <= m ->
  shr_1 {| shr_m := 2 * m; shr_r := false; shr_s := false |}
  = {| shr_m := m; shr_r := false; shr_s := false |}.
Proof. intros Hm. destruct m as [|p|p]; [reflexivity|reflexivity|lia]. Qed.

(** shifting out zeros is exact *)
Lemma shr_exact (n : nat) (m : Z) :
  0 <= m ->
  Nat.iter n shr_1 {| shr_m := m * 2 ^ Z.of_nat n; shr_r := false; shr_s := false |}
  = {| shr_m := m; shr_r := false; shr_s := false |}.
Proof.
  intros Hm. revert m Hm. induction n as [|n IH]; intros m Hm.
  - change (Z.of_nat 0) with 0. rewrite Z.pow_0_r, Z.mul_1_r. reflexivity.
  - rewrite Nat.iter_succ_r, Nat2Z.inj_succ, Z.pow_succ_r by lia.
    replace (m * (2 * 2 ^ Z.of_nat n)) with (2 * (m * 2 ^ Z.of_nat n)) by ring.
    rewrite shr_1_even by (apply Z.mul_nonneg_nonneg; [lia|apply Z.pow_nonneg; lia]).
    apply IH, Hm.
Qed.


(** the quotient by 1000 of a double that is an integer below 2^53 in
    absolute value: with [k] the integer quotient and [P] the unit of the
    result, the mantissa lies in [[k P, k P + P)]; it is [k P] when the
    division is exact, and above otherwise *)
Lemma div_1000 (s : bool) (p : positive) :
  Zpos p < 2 ^ 53 ->
  exists m e',
    Double.div (binary_round 53 1024 s p 0) (Double.of_Z 1000) = S754_finite s m e'
    /\ e' < 0
    /\ let k := Zpos p / 1000 in
       let P := 2 ^ (- e') in
       k * P <= Zpos m < k * P + P
       /\ (Zpos p mod 1000 = 0 -> Zpos m = k * P)
       /\ (Zpos p mod 1000 <> 0 -> k * P < Zpos m).
Proof.
  intros Hp. destruct (round_normal s p Hp) as (mx & -> & Hmx & Hdx).
  pose proof (digits2_pos_bounds p) as [Hlo Hhi].
  set (d := Zpos (digits2_pos p)) in *.
  assert (Hd : 1 <= d <= 53).
  { split; [subst d; lia|].
    destruct (Z_lt_le_dec 53 d) as [Hgt|]; [|assumption].
    assert (2 ^ 53 <= 2 ^ (d - 1)) by (apply Z.pow_le_mono_r; lia). lia. }
  change (Double.of_Z 1000) with (S754_finite false 8796093022208000 (-43)).
  unfold Double.div, SFdiv, SFdiv_core_binary, fexp, emin, Zdigits2.
  rewrite Hdx. change (Zpos (digits2_pos 8796093022208000)) with 53.
  replace (Z.min (Z.max (53 + (d - 53) - (53 + -43) - 53) (3 - 1024 - 53))
                 (d - 53 - -43))
    with (d - 63) by lia.
  replace (d - 53 - -43 - (d - 63)) with 53 by lia.
  cbv beta iota.
  rewrite Z.shiftl_mul_pow2 by lia.
  pose proof (Z_div_mod (Zpos mx * 2 ^ 53) 8796093022208000 eq_refl) as Hdiv.
  destruct (Z.div_eucl (Zpos mx * 2 ^ 53) 8796093022208000) as [Q r].
  destruct Hdiv as [Hdiv Hr].
  (* the scale of the quotient *)
  set (t := 63 - d).
  assert (Ht : 10 <= t <= 62) by (subst t; lia).
  set (T := 2 ^ t).
  assert (HT : 1024 <= T).
  { subst T. change 1024 with (2 ^ 10). apply Z.pow_le_mono_r; lia. }
  assert (HT2 : T = 2 * 2 ^ (t - 1)).
  { subst T. rewrite <- Z.pow_succ_r by lia. f_equal. lia. }
  assert (Hscale : Zpos mx * 2 ^ 53 = (Zpos p * T) * 2 ^ 43).
  { rewrite Hmx. subst T t. rewrite <- !Z.mul_assoc, <- !Z.pow_add_r by lia.
    f_equal. f_equal. lia. }
  set (k := Zpos p / 1000).
  assert (Hrho0 : Zpos p mod 1000 = Zpos p - 1000 * k)
    by (subst k; pose proof (Z.div_mod (Zpos p) 1000); lia).
  pose proof (Z.mod_pos_bound (Zpos p) 1000 eq_refl) as Hrho.
  set (rho := Zpos p mod 1000) in *.
  assert (Hk : Zpos p = 1000 * k + rho) by lia.
  assert (HX : Zpos p * T = 1000 * (k * T) + rho * T) by (rewrite Hk; ring).
  assert (Hk_nonneg : 0 <= k) by (subst k; apply Z.div_pos; lia).
  assert (HrhoT : 0 <= rho * T <= 999 * T) by nia.
  change (2 ^ 43) with 8796093022208 in Hscale.
  change (2 ^ 53) with 9007199254740992 in Hscale, Hdiv.
  assert (HQ : k * T <= Q <= k * T + T - 2) by lia.
  assert (HQ' : 2 ^ 52 <= Q < 2 ^ 54).
  { assert (2 ^ 52 <= Zpos mx < 9007199254740992).
    { pose proof (digits2_pos_bounds mx) as Hb. rewrite Hdx in Hb.
      change (2 ^ (53 - 1)) with (2 ^ 52) in Hb.
      change (2 ^ 53) with 9007199254740992 in Hb. exact Hb. }
    change (2 ^ 52) with 4503599627370496 in *.
    change (2 ^ 54) with 18014398509481984. lia. }
  destruct Q as [|q|q]; [cbn in HQ'; lia| |lia].
  destruct (round_aux_bounds (xorb s false) q (d - 63)
              (new_location 8796093022208000 r))
    as (m & e' & -> & He' & HV & Hge & Hexact & Hup);
    [exact HQ'|lia|].
  replace (xorb s false) with s by (destruct s; reflexivity).
  exists m, e'. split; [reflexivity|]. split; [lia|]. cbv zeta.
  assert (Hhalf : k * T <= 2 * (Zpos q / 2)).
  { assert (k * 2 ^ (t - 1) <= Zpos q / 2).
    { apply Z.div_le_lower_bound; [lia|]. rewrite HT2 in HQ. lia. }
    rewrite HT2. lia. }
  set (j := e' - (d - 63)) in *.
  assert (Hj : 0 <= j <= 2) by (subst j; lia).
  assert (HP : T = 2 ^ j * 2 ^ (- e')).
  { subst T. rewrite <- Z.pow_add_r by lia. f_equal. subst j t. lia. }
  set (P := 2 ^ (- e')) in *.
  assert (0 < P) by (subst P; apply Z.pow_pos_nonneg; lia).
  assert (HkT : k * T = 2 ^ j * (k * P)) by (rewrite HP; ring).
  set (V := Zpos m * 2 ^ j) in *.
  assert (HJ : 1 <= 2 ^ j) by (apply (Z.pow_le_mono_r 2 0 j); lia).
  assert (Hbetween : k * P <= Zpos m < k * P + P).
  { assert (Hcases : j = 0 \/ j = 1 \/ j = 2) by lia.
    subst V.
    destruct Hcases as [Hj0|[Hj0|Hj0]]; rewrite Hj0 in *;
      [change (2 ^ 0) with 1 in *|change (2 ^ 1) with 2 in *|change (2 ^ 2) with 4 in *];
      lia. }
  split; [exact Hbetween|]. split.
  - (* exact division: the quotient is k T, even, and exact *)
    intros Hzero.
    assert (Hq : Zpos q = k * T).
    { rewrite Hzero in *. lia. }
    assert (Hr0 : r = 0) by (rewrite Hzero in *; lia).
    assert (HV' : V = Zpos q).
    { apply Hexact.
      - rewrite Hr0. reflexivity.
      - right. rewrite Hq, HT2, Z.mul_assoc, (Z.mul_comm k 2), <- Z.mul_assoc.
        rewrite Z.even_mul. reflexivity. }
    subst V. rewrite Hq, HkT in HV'.
    rewrite (Z.mul_comm (Zpos m)) in HV'.
    apply Z.mul_reg_l in HV'; [exact HV'|lia].
  - (* inexact division *)
    intros Hnz.
    assert (Hr' : 24 * 8796093022208 <= Zpos q * 8796093022208000 + r
                                        - (k * T) * 8796093022208000).
    { assert (1 <= rho) by lia. nia. }
    assert (Hlast : Zpos q - 1 <= 2 * (Zpos q / 2)).
    { pose proof (Z.mod_pos_bound (Zpos q) 2 eq_refl).
      pose proof (Z.div_mod (Zpos q) 2). lia. }
    assert (HVgt : k * T < V).
    { destruct (Z_lt_le_dec (k * T + 1) (Zpos q)) as [Hbig|Hsmall]; [lia|].
      assert (Hq : Zpos q = k * T + 1).
      { destruct (Z.eq_dec (Zpos q) (k * T)) as [Heq|]; [|lia].
        rewrite Heq in Hr'. lia. }
      destruct (Z_lt_le_dec (Zpos q) (2 ^ 53)) as [H53|H54]; [specialize (Hge H53); lia|].
      assert (Hodd : Z.even (Zpos q) = false).
      { rewrite Hq, HT2.
        replace (k * (2 * 2 ^ (t - 1)) + 1) with (1 + 2 * (k * 2 ^ (t - 1))) by ring.
        rewrite Z.even_add_mul_2. reflexivity. }
      assert (Hloc : new_location 8796093022208000 r <> loc_Exact).
      { assert (Hr1 : r <> 0) by (rewrite Hq in Hr'; lia).
        unfold new_location. cbn [Z.even]. unfold new_location_even.
        destruct (Z.eqb_spec r 0) as [|_]; [contradiction|discriminate]. }
      rewrite (Hup H54 Hodd Hloc). lia. }
    subst V. rewrite HkT in HVgt.
    assert (Hcases : j = 0 \/ j = 1 \/ j = 2) by lia.
    destruct Hcases as [Hj0|[Hj0|Hj0]]; rewrite Hj0 in *;
      [change (2 ^ 0) with 1 in *|change (2 ^ 1) with 2 in *|change (2 ^ 2) with 4 in *];
      lia.
Qed.

(** [1000 * k] on the double of an integer with a product below 2^53 in
    absolute value: the product is exact *)
Lemma mul_1000 (s : bool) (k : positive) :
  1000 * Zpos k < 2 ^ 53 ->
  Double.mul (Double.of_Z 1000) (binary_round 53 1024 s k 0)
  = binary_round 53 1024 s (1000 * k) 0.
Proof.
  intros Hk.
  destruct (round_normal s k) as (mk & -> & Hmk & Hdk); [lia|].
  change (1000 * Zpos k) with (Zpos (1000 * k)) in *.
  destruct (round_normal s (1000 * k) Hk) as (m & -> & Hm & Hdm).
  pose proof (digits2_pos_bounds k) as Hbk.
  pose proof (digits2_pos_bounds (1000 * k)) as Hb.
  set (dk := Zpos (digits2_pos k)) in *.
  set (D := Zpos (digits2_pos (1000 * k))) in *.
  assert (HD : 1 <= D <= 53).
  { split; [subst D; lia|].
    destruct (Z_lt_le_dec 53 D) as [Hgt|]; [|assumption].
    assert (2 ^ 53 <= 2 ^ (D - 1)) by (apply Z.pow_le_mono_r; lia). lia. }
  assert (Hdk' : 1 <= dk <= D).
  { split; [subst dk; lia|].
    destruct (Z_lt_le_dec D dk) as [Hgt|]; [|assumption].
    assert (2 ^ D <= 2 ^ (dk - 1)) by (apply Z.pow_le_mono_r; lia).
    rewrite Pos2Z.inj_mul in Hb. lia. }
  assert (HDk : D <= dk + 10).
  { destruct (Z_lt_le_dec (dk + 10) D) as [Hgt|]; [|assumption].
    assert (2 ^ (dk + 10) <= 2 ^ (D - 1)) by (apply Z.pow_le_mono_r; lia).
    rewrite Z.pow_add_r in H by lia. change (2 ^ 10) with 1024 in H.
    rewrite Pos2Z.inj_mul in Hb. lia. }
  change (Double.of_Z 1000) with (S754_finite false 8796093022208000 (-43)).
  unfold Double.mul, SFmul. cbn [xorb].
  replace (if s then true else false) with s by (destruct s; reflexivity).
  set (shift := D + 43 - dk).
  assert (Hshift : 1 <= shift) by (subst shift; lia).
  assert (HP : Zpos (8796093022208000 * mk) = Zpos m * 2 ^ shift).
  { rewrite Pos2Z.inj_mul, Hmk, Hm, Pos2Z.inj_mul.
    change (Zpos 8796093022208000) with (1000 * 2 ^ 43). subst shift.
    assert (Hpow : 2 ^ (53 - D) * 2 ^ (D + 43 - dk) = 2 ^ 43 * 2 ^ (53 - dk))
      by (rewrite <- !Z.pow_add_r by lia; f_equal; lia).
    transitivity (1000 * Zpos k * (2 ^ 43 * 2 ^ (53 - dk))); [ring|].
    rewrite <- Hpow. ring. }
  assert (HdP : Zpos (digits2_pos (8796093022208000 * mk)) = 53 + shift).
  { apply digits2_pos_unique. rewrite HP.
    pose proof (digits2_pos_bounds m) as Hbm. rewrite Hdm in Hbm.
    replace (53 + shift - 1) with ((53 - 1) + shift) by lia.
    rewrite !Z.pow_add_r by lia.
    assert (0 < 2 ^ shift) by (apply Z.pow_pos_nonneg; lia). nia. }
  unfold binary_round_aux, shr_fexp at 1. unfold fexp, emin, Zdigits2.
  rewrite HdP.
  replace (Z.max (53 + shift + (-43 + (dk - 53)) - 53) (3 - 1024 - 53)
           - (-43 + (dk - 53))) with shift by (subst shift; lia).
  destruct shift as [|sh|sh] eqn:Hsh; [lia| |lia].
  cbn [shr shr_record_of_loc]. rewrite iter_pos_nat, HP.
  replace (Zpos sh) with (Z.of_nat (Pos.to_nat sh)) by apply positive_nat_Z.
  rewrite shr_exact by lia.
  cbn [shr_m loc_of_shr_record round_nearest_even].
  unfold shr_fexp, fexp, emin, Zdigits2. rewrite Hdm.
  rewrite fexp_shift by lia. change (53 - 53) with 0.
  cbn [shr shr_record_of_loc shr_m].
  replace (-43 + (dk - 53) + Z.of_nat (Pos.to_nat sh)) with (D - 53)
    by (rewrite positive_nat_Z; lia).
  replace (D - 53 <=? 1024 - 53) with true by (symmetry; apply Z.leb_le; lia).
  reflexivity.
Qed.


Lemma floor_div_1000 (n : Z) :
  - 2 ^ 53 < n < 2 ^ 53 ->
  Double.floor (Double.div (Double.of_Z n) (Double.of_Z 1000)) = Double.of_Z (n / 1000).
Proof.
  intros Hn. destruct n as [|p|p].
  - reflexivity.
  - change (Double.of_Z (Zpos p)) with (binary_round 53 1024 false p 0).
    destruct (div_1000 false p) as (m & e' & -> & He' & Hm & _); [lia|].
    cbv zeta in Hm. unfold Double.floor.
    replace (0 <=? e') with false by (symmetry; apply Z.leb_gt; lia).
    f_equal. rewrite Z.shiftr_div_pow2 by lia.
    assert (0 < 2 ^ (- e')) by (apply Z.pow_pos_nonneg; lia).
    symmetry. apply (Z.div_unique_pos _ _ _ (Zpos m - Zpos p / 1000 * 2 ^ (- e'))); lia.
  - change (Double.of_Z (Zneg p)) with (binary_round 53 1024 true p 0).
    destruct (div_1000 true p) as (m & e' & -> & He' & Hm & Hexact & Hinexact); [lia|].
    cbv zeta in Hm, Hexact, Hinexact. unfold Double.floor.
    replace (0 <=? e') with false by (symmetry; apply Z.leb_gt; lia).
    f_equal. rewrite Z.shiftr_div_pow2, Z.shiftl_mul_pow2 by lia.
    assert (HP : 0 < 2 ^ (- e')) by (apply Z.pow_pos_nonneg; lia).
    assert (Hbelow : Zpos m / 2 ^ (- e') = Zpos p / 1000).
    { symmetry.
      apply (Z.div_unique_pos _ _ _ (Zpos m - Zpos p / 1000 * 2 ^ (- e'))); lia. }
    rewrite Hbelow. change (Zneg p) with (- Zpos p).
    destruct (Z.eq_dec (Zpos p mod 1000) 0) as [Hzero|Hnz].
    + rewrite (Hexact Hzero), Z.eqb_refl, Z.div_opp_l_z by lia. reflexivity.
    + specialize (Hinexact Hnz).
      replace (Zpos p / 1000 * 2 ^ (- e') =? Zpos m) with false
        by (symmetry; apply Z.eqb_neq; lia).
      rewrite Z.div_opp_l_nz by lia. f_equal. lia.
Qed.

Lemma mul_1000_floor (n : Z) :
  - 2 ^ 53 < n < 2 ^ 53 ->
  Double.floor (Double.div (Double.mul (Double.of_Z 1000) (Double.of_Z (n / 1000)))
                           (Double.of_Z 1000))
  = Double.of_Z (n / 1000).
Proof.
  intros Hn.
  pose proof (Z.div_mod n 1000) as Hdiv.
  pose proof (Z.mod_pos_bound n 1000 eq_refl) as Hmod.
  change (2 ^ 53) with 9007199254740992 in Hn.
  destruct (n / 1000) as [|k|k] eqn:Hk.
  - reflexivity.
  - change (Double.of_Z (Zpos k)) with (binary_round 53 1024 false k 0).
    rewrite mul_1000 by (change (2 ^ 53) with 9007199254740992; lia).
    change (binary_round 53 1024 false (1000 * k) 0) with (Double.of_Z (Zpos (1000 * k))).
    rewrite floor_div_1000 by (change (2 ^ 53) with 9007199254740992; lia).
    change (binary_round 53 1024 false k 0) with (Double.of_Z (Zpos k)).
    f_equal. rewrite Pos2Z.inj_mul, Z.mul_comm. apply Z.div_mul. lia.
  - destruct (Z_lt_le_dec (1000 * Zpos k) 9007199254740992) as [Hsmall|Hbig].
    + change (Double.of_Z (Zneg k)) with (binary_round 53 1024 true k 0).
      rewrite mul_1000 by (change (2 ^ 53) with 9007199254740992; lia).
      change (binary_round 53 1024 true (1000 * k) 0) with (Double.of_Z (Zneg (1000 * k))).
      rewrite floor_div_1000 by (change (2 ^ 53) with 9007199254740992; lia).
      change (binary_round 53 1024 true k 0) with (Double.of_Z (Zneg k)).
      f_equal. change (Zneg (1000 * k)) with (1000 * Zneg k).
      rewrite Z.mul_comm. apply Z.div_mul. lia.
    + assert (Hk' : k = 9007199254741%positive) by lia.
      subst k. vm_compute. reflexivity.
Qed.

End DoubleFacts.

Lemma is_safe_integer_bounds (n : Z) :
  is_safe_integer n = true -> - 2 ^ 53 < n < 2 ^ 53.
Proof.
  unfold is_safe_integer. intros H. apply Z.leb_le in H.
  change (2 ^ 53) with 9007199254740992 in *. lia.
Qed.

(** C9, as stated, fails for amounts that are not safe integers.  The
    double 72057594037929008 msats is 72057594037929 sats; multiplied by
    1000 this is 72057594037929000, which is not a double and rounds to
    72057594037928992, and that is 72057594037928 sats: converting back
    and again does not give the same sats.  Nor is the conversion floor
    division there: 1152921504606868992 msats are 1152921504606869 sats,
    one more than the quotient. *)
Lemma msatsToSats_breaks_beyond_safe_integers :
  let n := Double.of_Z 72057594037929008 in
  let sats := Double.of_Z 72057594037929 in
  Double.msatsToSats (Some n) = Some sats
  /\ Double.mul (Double.of_Z 1000) sats = Double.of_Z 72057594037928992
  /\ Double.msatsToSats (Some (Double.mul (Double.of_Z 1000) sats))
     = Some (Double.of_Z 72057594037928)
  /\ Double.of_Z 72057594037928 <> sats
  /\ Double.msatsToSats (Some (Double.of_Z 1152921504606868992))
     = Some (Double.of_Z 1152921504606869)
  /\ 1152921504606868992 / 1000 = 1152921504606868
  /\ Double.of_Z 1152921504606869 <> Double.of_Z 1152921504606868.
Proof. vm_compute. repeat split; discriminate. Qed.

(** C9, amended.  On the safe integers [msatsToSats] is floor division by
    1000 (a function, hence deterministic; null stays null); converting a
    result back to msats and again to sats gives the same sats; applied
    to its own output directly it does not: 1500 msats are 1 sat, and 1 is
    0 sats; every amount from 0 to 999 msats is 0 sats.  This holds of the
    function on doubles, [Double.msatsToSats], and of the function on the
    integers of the embedding, which give the same results. *)
Theorem msatsToSats_floor_division :
  (msatsToSats None = None /\ Double.msatsToSats None = None)
  /\ (forall n : Z,
        is_safe_integer n = true ->
        msatsToSats (Some (Fin n)) = Some (Fin (n / 1000))
        /\ Double.msatsToSats (Some (Double.of_Z n)) = Some (Double.of_Z (n / 1000)))
  /\ (forall n : Z,
        is_safe_integer n = true ->
        msatsToSats (option_map (fun sats => num_scale sats 1000)
                                (msatsToSats (Some (Fin n))))
        = msatsToSats (Some (Fin n))
        /\ Double.msatsToSats (option_map (fun sats => Double.mul (Double.of_Z 1000) sats)
                                          (Double.msatsToSats (Some (Double.of_Z n))))
           = Double.msatsToSats (Some (Double.of_Z n)))
  /\ (msatsToSats (msatsToSats (Some (Fin 1500))) <> msatsToSats (Some (Fin 1500))
      /\ Double.msatsToSats (Double.msatsToSats (Some (Double.of_Z 1500)))
         <> Double.msatsToSats (Some (Double.of_Z 1500)))
  /\ (forall n : Z,
        0 <= n < 1000 ->
        msatsToSats (Some (Fin n)) = Some (Fin 0)
        /\ Double.msatsToSats (Some (Double.of_Z n)) = Some (Double.of_Z 0)).
Proof.
  split; [split; reflexivity|]. split; [|split; [|split]].
  - intros n Hn. split; [reflexivity|].
    cbn [Double.msatsToSats]. f_equal.
    apply DoubleFacts.floor_div_1000, is_safe_integer_bounds, Hn.
  - intros n Hn. split.
    + simpl. rewrite Z.div_mul by lia. reflexivity.
    + apply is_safe_integer_bounds in Hn.
      cbn [Double.msatsToSats option_map].
      rewrite (DoubleFacts.floor_div_1000 n Hn). f_equal.
      apply DoubleFacts.mul_1000_floor, Hn.
  - split; [simpl; discriminate|vm_compute; discriminate].
  - intros n Hn. split.
    + simpl. rewrite Z.div_small by lia. reflexivity.
    + cbn [Double.msatsToSats]. f_equal.
      rewrite DoubleFacts.floor_div_1000 by (change (2 ^ 53) with 9007199254740992; lia).
      rewrite Z.div_small by lia. reflexivity.
Qed.

Lemma msatsToSats_floor_division_witness :
  (msatsToSats (Some (Fin 999)) = Some (Fin 0)
   /\ Double.msatsToSats (Some (Double.of_Z 999)) = Some (Double.of_Z 0))
  /\ (msatsToSats (Some (Fin 9007199254740991)) = Some (Fin 9007199254740)
      /\ Double.msatsToSats (Some (Double.of_Z 9007199254740991))
         = Some (Double.of_Z 9007199254740))
  /\ (msatsToSats (Some (Fin (-1))) = Some (Fin (-1))
      /\ Double.msatsToSats (Some (Double.of_Z (-1))) = Some (Double.of_Z (-1)))
  /\ Double.msatsToSats
       (Some (Double.mul (Double.of_Z 1000) (Double.of_Z (-9007199254741))))
     = Some (Double.of_Z (-9007199254741)).
Proof.
  destruct msatsToSats_floor_division as (_ & Hfloor & Hback & _ & Hsmall).
  split; [|split; [|split]].
  - apply (Hsmall 999). lia.
  - apply (Hfloor 9007199254740991). reflexivity.
  - apply (Hfloor (-1)). reflexivity.
  - destruct (Hback (-9007199254740991)) as [_ Hdouble]; [reflexivity|].
    pose proof (proj2 (Hfloor (-9007199254740991) eq_refl)) as Hsats.
    rewrite Hsats in Hdouble. exact Hdouble.
Defined.

(** ** Rules of the weakest precondition *)

Lemma wp_ret {A : Type} (a : A) (Q : Outcome A -> World -> Prop) (w : World) :
  Q (Ok a) w -> wp (ret a) Q w.
Proof. exact (fun H => H). Qed.

Lemma wp_throw {A : Type} (e : Thrown) (Q : Outcome A -> World -> Prop) (w : World) :
  Q (Raise e) w -> wp (throw e) Q w.
Proof. exact (fun H => H). Qed.

Lemma wp_lift {A : Type} (o : Outcome A) (Q : Outcome A -> World -> Prop) (w : World) :
  Q o w -> wp (lift o) Q w.
Proof. exact (fun H => H). Qed.

Lemma wp_bind {A B : Type} (c : M A) (k : A -> M B)
    (Q : Outcome B -> World -> Prop) (w : World) :
  wp c (fun r w' => match r with
                    | Ok a => wp (k a) Q w'
                    | Raise e => Q (Raise e) w'
                    end) w ->
  wp (bind c k) Q w.
Proof.
  unfold wp, bind. destruct (c w) as [[a|e] w']; simpl; auto.
Qed.

Lemma wp_try_catch {A : Type} (body : M A) (handler : Thrown -> M A)
    (Q : Outcome A -> World -> Prop) (w : World) :
  wp body (fun r w' => match r with
                       | Ok a => Q (Ok a) w'
                       | Raise e => wp (handler e) Q w'
                       end) w ->
  wp (try_catch body handler) Q w.
Proof.
  unfold wp, try_catch. destruct (body w) as [[a|e] w']; simpl; auto.
Qed.

Lemma wp_mono {A : Type} (c : M A) (Q Q' : Outcome A -> World -> Prop) (w : World) :
  wp c Q w -> (forall r w', Q r w' -> Q' r w') -> wp c Q' w.
Proof. unfold wp. auto. Qed.

Lemma wp_get_world (Q : Outcome World -> World -> Prop) (w : World) :
  Q (Ok w) w -> wp get_world Q w.
Proof. exact (fun H => H). Qed.

Lemma wp_emit (e : Event) (Q : Outcome unit -> World -> Prop) (w : World) :
  Q (Ok tt) (push_events [e] w) -> wp (emit e) Q w.
Proof. exact (fun H => H). Qed.

Lemma wp_log (text : string) (Q : Outcome unit -> World -> Prop) (w : World) :
  Q (Ok tt) (push_events [EvLog text] w) -> wp (log text) Q w.
Proof. exact (fun H => H). Qed.

Lemma wp_set_user_wallets (t : gmap string WalletRow)
    (Q : Outcome unit -> World -> Prop) (w : World) :
  Q (Ok tt) (upd_user_wallets t w) -> wp (set_user_wallets t) Q w.
Proof. exact (fun H => H). Qed.

Lemma wp_set_local_npub_map (t : gmap (string * string * string) NpubMapRow)
    (Q : Outcome unit -> World -> Prop) (w : World) :
  Q (Ok tt) (upd_local_npub_map t w) -> wp (set_local_npub_map t) Q w.
Proof. exact (fun H => H). Qed.

Lemma wp_set_onboardingState (t : gmap string OnboardingStep)
    (Q : Outcome unit -> World -> Prop) (w : World) :
  Q (Ok tt) (upd_onboardingState t w) -> wp (set_onboardingState t) Q w.
Proof. exact (fun H => H). Qed.

Lemma wp_set_pendingStore (t : gmap string PendingPayment)
    (Q : Outcome unit -> World -> Prop) (w : World) :
  Q (Ok tt) (upd_pendingStore t w) -> wp (set_pendingStore t) Q w.
Proof. exact (fun H => H). Qed.

Lemma wp_set_identityOut (q : list OutMessage)
    (Q : Outcome unit -> World -> Prop) (w : World) :
  Q (Ok tt) (upd_identityOut q w) -> wp (set_identityOut q) Q w.
Proof. exact (fun H => H). Qed.

Lemma wp_run {A : Type} (c : M A) (Q : Outcome A -> World -> Prop) (w : World) :
  wp c Q w -> Q (fst (c w)) (snd (c w)).
Proof. exact (fun H => H). Qed.

Lemma push_events_push (a b : list Event) (w : World) :
  push_events b (push_events a w) = push_events (a ++ b) w.
Proof. unfold push_events. simpl. rewrite <- app_assoc. reflexivity. Qed.

(** ** Wallet resolver *)

Lemma db_ok (env : Env) (statement : string) (w : World) :
  (forall tr, db_error env tr = None) ->
  db env statement w = (Ok tt, push_events [EvDb statement] w).
Proof. intros Hdb. unfold db, bind, get_world, emit, ret. rewrite Hdb. reflexivity. Qed.

Lemma loadWallet_no_row (env : Env) (npub : string) (w : World) :
  (forall tr, db_error env tr = None) ->
  user_wallets w !! npub = None ->
  loadWallet env npub w =
  (Ok (shared_wallet env npub),
   push_events [EvDb "SELECT ... FROM user_wallets WHERE user_npub = ?"] w).
Proof.
  intros Hdb Hrow. unfold loadWallet, bind at 1. rewrite db_ok by assumption.
  unfold bind, get_world, shared_wallet. cbn [user_wallets push_events]. rewrite Hrow.
  destruct (str_truthy _); reflexivity.
Qed.

(** C6, as stated, fails when the database query throws: no
    [user_wallets] row is stored for the npub and no shared credential is
    configured, and still the wallet lookup and the four wallet operations
    raise the database error instead of returning [success = false]. *)
Lemma wallet_lookup_raises_when_database_throws :
  let env := db_down (sample_env no_vars http_down lnurl_down decode_fails pay_down) in
  let npub := "npub1alice" in
  user_wallets empty_world !! npub = None
  /\ str_truthy (trim (getEnv env "SHARED_NWC_STRING" "")) = false
  /\ fst (loadWallet env npub empty_world) = Raise (new_Error "database is locked")
  /\ fst (makePayment env pay_invoice_for_alice empty_world)
     = Raise (new_Error "database is locked")
  /\ fst (getBalance env npub empty_world) = Raise (new_Error "database is locked")
  /\ fst (createInvoice env npub (Fin 21) empty_world)
     = Raise (new_Error "database is locked")
  /\ fst (getLNAddress env npub empty_world) = Raise (new_Error "database is locked").
Proof. repeat split. Qed.

(** C6, amended.  When the database query does not throw and finds no
    [user_wallets] row for
    [npub]: if the trimmed [SHARED_NWC_STRING] is not empty, [loadWallet]
    yields an nwc wallet whose credential is that string; if it is empty,
    [loadWallet] yields none and [makePayment], [getBalance],
    [createInvoice] and [getLNAddress] each return, without throwing,
    [success = false] with the error "No wallet found for user <npub>.". *)
Theorem loadWallet_shared_fallback (env : Env) (w : World) (npub : string) :
  (forall tr, db_error env tr = None) ->
  user_wallets w !! npub = None ->
  let shared := trim (getEnv env "SHARED_NWC_STRING" "") in
  (str_truthy shared = true ->
   fst (loadWallet env npub w)
   = Ok (Some {| wd_type := nwc; wd_npub := npub; wd_nwcUri := Some shared;
                 wd_lnAddress := None; wd_apiIdentifier := None;
                 wd_apiSubAccountId := None; wd_apiLabel := None |}))
  /\ (str_truthy shared = false ->
      fst (loadWallet env npub w) = Ok None
      /\ (forall details,
            p_npub details = npub ->
            fst (makePayment env details w)
            = Ok {| pr_success := false; pr_receipt := None;
                    pr_error := Some ("No wallet found for user " ++ npub ++ ".") |})
      /\ fst (getBalance env npub w)
         = Ok {| br_success := false; br_balance := None;
                 br_error := Some ("No wallet found for user " ++ npub ++ ".") |}
      /\ (forall amountSats,
            fst (createInvoice env npub amountSats w)
            = Ok {| ir_success := false; ir_invoice := None;
                    ir_error := Some ("No wallet found for user " ++ npub ++ ".") |})
      /\ fst (getLNAddress env npub w)
         = Ok {| lr_success := false; lr_lnAddress := None;
                 lr_error := Some ("No wallet found for user " ++ npub ++ ".") |}).
Proof.
  intros Hdb Hrow shared. split.
  - intros Hshared. rewrite loadWallet_no_row by assumption.
    unfold shared_wallet. fold shared. rewrite Hshared. reflexivity.
  - intros Hshared.
    assert (Hnone : shared_wallet env npub = None).
    { unfold shared_wallet. fold shared. rewrite Hshared. reflexivity. }
    split; [|split; [|split; [|split]]].
    + rewrite loadWallet_no_row by assumption. rewrite Hnone. reflexivity.
    + intros details <-. unfold makePayment, bind, log, emit.
      rewrite loadWallet_no_row by assumption. rewrite Hnone. reflexivity.
    + unfold getBalance, bind.
      rewrite loadWallet_no_row by assumption. rewrite Hnone. reflexivity.
    + intros amountSats. unfold createInvoice, bind.
      rewrite loadWallet_no_row by assumption. rewrite Hnone. reflexivity.
    + unfold getLNAddress, bind.
      rewrite loadWallet_no_row by assumption. rewrite Hnone. reflexivity.
Qed.

Lemma loadWallet_shared_fallback_witness :
  fst (loadWallet
         (sample_env (fun name fallback =>
                        if String.eqb name "SHARED_NWC_STRING"
                        then " nostr+walletconnect://shared " else fallback)
                     http_down lnurl_down decode_fails pay_down)
         "npub1alice" empty_world)
  = Ok (Some {| wd_type := nwc; wd_npub := "npub1alice";
                wd_nwcUri := Some "nostr+walletconnect://shared";
                wd_lnAddress := None; wd_apiIdentifier := None;
                wd_apiSubAccountId := None; wd_apiLabel := None |})
  /\ fst (getBalance (sample_env no_vars http_down lnurl_down decode_fails pay_down)
                     "npub1alice" empty_world)
     = Ok {| br_success := false; br_balance := None;
             br_error := Some "No wallet found for user npub1alice." |}.
Proof.
  split.
  - apply (loadWallet_shared_fallback
             (sample_env (fun name fallback =>
                            if String.eqb name "SHARED_NWC_STRING"
                            then " nostr+walletconnect://shared " else fallback)
                         http_down lnurl_down decode_fails pay_down)
             empty_world "npub1alice"); reflexivity.
  - apply (loadWallet_shared_fallback
             (sample_env no_vars http_down lnurl_down decode_fails pay_down)
             empty_world "npub1alice"); reflexivity.
Defined.
(** ** Approval gate *)

Lemma wp_db (env : Env) (statement : string) (Q : Outcome unit -> World -> Prop) (w : World) :
  (forall tr, db_error env tr = None) ->
  Q (Ok tt) (push_events [EvDb statement] w) -> wp (db env statement) Q w.
Proof. intros Hdb H. unfold wp. rewrite db_ok by assumption. exact H. Qed.

Lemma toLowerCase_truthy (s : string) :
  str_truthy (toLowerCase s) = true -> str_truthy s = true.
Proof. destruct s; simpl; auto. Qed.

Lemma rememberGatewayBotId_spec (env : Env) (gt gn gu bot : string) (w : World) :
  (forall tr, db_error env tr = None) ->
  wp (rememberGatewayBotId env gt gn gu bot)
     (fun r w' =>
        r = Ok tt
        /\ user_wallets w' = user_wallets w
        /\ onboardingState w' = onboardingState w
        /\ pendingStore w' = pendingStore w
        /\ identityOut w' = identityOut w
        /\ (forall k, is_Some (local_npub_map w !! k) -> is_Some (local_npub_map w' !! k))
        /\ exists evs, remember_events evs /\ trace w' = (trace w ++ evs)%list) w.
Proof.
  intros Hdb. unfold rememberGatewayBotId.
  destruct (negb (str_truthy (trim bot))).
  - apply wp_ret. repeat split; auto. exists []. split; [left; reflexivity|].
    symmetry. apply app_nil_r.
  - apply wp_bind. apply wp_db; [assumption|].
    apply wp_bind. apply wp_get_world.
    cbn [local_npub_map push_events].
    destruct (local_npub_map w !! (gt, gn, gu)) as [old|] eqn:Hold.
    + unfold wp. cbn. repeat split; auto.
      * intros k Hk. destruct (decide ((gt, gn, gu) = k)) as [<-|Hne].
        -- rewrite lookup_insert_eq. eauto.
        -- rewrite lookup_insert_ne by assumption. assumption.
      * eexists. split; [right; reflexivity|reflexivity].
    + apply wp_ret. cbn. repeat split; auto.
      eexists. split; [right; reflexivity|reflexivity].
Qed.

(** C8.  A known user who is not being onboarded sends a message whose
    trimmed text is "yes" in any letter case while the pending store holds
    nothing for them: the worker returns normally, the outbound queue, the
    wallets, the onboarding states and the pending store are unchanged, and
    all it does is: log the receipt, possibly record the bot id, look the
    user up, log the confirmation and log that nothing is pending.  No
    event of [makePayment] (its first action is a log) or of any remote
    call occurs. *)
Theorem yes_without_pending_payment (env : Env) (w : World) (msg : BeaconMessage) :
  (forall tr, db_error env tr = None) ->
  is_Some (local_npub_map w !! (gw_type (source_gateway msg),
                                getEnv env "GATEWAY_NPUB" "", source_from msg)) ->
  onboardingState w !! source_from msg = None ->
  toLowerCase (trim (default "" (source_text msg))) = "yes" ->
  pendingStore w !! source_from msg = None ->
  let w' := snd (startIdentityWorker env msg w) in
  fst (startIdentityWorker env msg w) = Ok tt
  /\ identityOut w' = identityOut w
  /\ user_wallets w' = user_wallets w
  /\ onboardingState w' = onboardingState w
  /\ pendingStore w' = pendingStore w
  /\ exists remember,
       remember_events remember
       /\ trace w'
          = (trace w
            ++ [EvLog ("[identity] worker received message from: " ++ source_from msg
                         ++ ", beaconID: " ++ beaconID msg)%string]
            ++ remember
            ++ [EvDb "SELECT 1 FROM local_npub_map WHERE gateway_user = ? AND gateway_npub = ? AND gateway_type = ?";
                EvLog ("[identity] Received 'YES' confirmation from " ++ source_from msg ++ ".")%string;
                EvLog ("[identity] No pending payment found for " ++ source_from msg
                         ++ ". Ignoring 'YES'.")%string])%list.
Proof.
  intros Hdb Hknown Hstate Hyes Hpending.
  apply (wp_run (startIdentityWorker env msg)
           (fun r w' =>
              r = Ok tt /\ identityOut w' = identityOut w
              /\ user_wallets w' = user_wallets w
              /\ onboardingState w' = onboardingState w
              /\ pendingStore w' = pendingStore w
              /\ exists remember, remember_events remember /\ trace w' = (trace w ++ _ ++ remember ++ _)%list)).
  unfold startIdentityWorker.
  apply wp_try_catch, wp_bind, wp_log.
  assert (Htext : str_truthy (trim (default "" (source_text msg))) = true).
  { apply toLowerCase_truthy. rewrite Hyes. reflexivity. }
  rewrite Htext. cbn [negb].
  apply wp_bind.
  set (w0 := push_events _ w).
  match goal with |- wp _ ?Q _ => set (Qk := Q) end.
  assert (Hcont : forall r w1,
             (r = Ok tt
              /\ user_wallets w1 = user_wallets w0
              /\ onboardingState w1 = onboardingState w0
              /\ pendingStore w1 = pendingStore w0
              /\ identityOut w1 = identityOut w0
              /\ (forall k, is_Some (local_npub_map w0 !! k) -> is_Some (local_npub_map w1 !! k))
              /\ exists evs, remember_events evs /\ trace w1 = (trace w0 ++ evs)%list) ->
             Qk r w1); cycle 1.
  { assert (Hskip : Qk (Ok tt) w0).
    { apply Hcont. repeat split; auto. exists []. split; [left; reflexivity|].
      symmetry. apply app_nil_r. }
    match goal with |- wp (if ?c then _ else _) _ _ => destruct c end;
      [|apply wp_ret, Hskip].
    match goal with |- wp (if ?c then _ else _) _ _ => destruct c end;
      [|apply wp_ret, Hskip].
    eapply wp_mono; [apply rememberGatewayBotId_spec; assumption|exact Hcont]. }
  subst Qk.
  intros r w1 (-> & Hwallets & Honb & Hpend & Hout & Hmap & evs & Hevs & Htrace).
  apply wp_bind. unfold isUserKnown.
  apply wp_try_catch, wp_bind, wp_db; [assumption|].
  apply wp_bind, wp_get_world. apply wp_ret.
  apply wp_bind, wp_get_world.
  cbn [local_npub_map onboardingState push_events].
  rewrite bool_decide_eq_true_2 by (apply Hmap; exact Hknown).
  rewrite bool_decide_eq_false_2
    by (rewrite Honb; unfold w0; cbn [onboardingState push_events];
        rewrite Hstate; intros [? ?]; discriminate).
  cbn [negb orb]. rewrite Hyes. cbn [String.eqb Ascii.eqb Bool.eqb].
  apply wp_bind, wp_log. apply wp_bind.
  unfold retrieveAndClearConfirmation.
  apply wp_bind, wp_get_world. apply wp_bind.
  unfold wp. cbn.
  rewrite Hpend. unfold w0. cbn. rewrite Hpending.
  cbn. rewrite Hout, Hwallets, Honb, Htrace. unfold w0. cbn.
  repeat split; auto.
  - apply delete_id. assumption.
  - exists evs. split; [assumption|].
    rewrite <- !app_assoc. reflexivity.
Qed.

Lemma yes_without_pending_payment_witness :
  let env := sample_env gateway_vars http_down lnurl_down decode_fails pay_down in
  let run := startIdentityWorker env (message_from_alice " Yes ") world_alice_known in
  fst run = Ok tt /\ identityOut (snd run) = [].
Proof.
  intros env run.
  destruct (yes_without_pending_payment env world_alice_known (message_from_alice " Yes "))
    as (Hok & Hout & _).
  - reflexivity.
  - vm_compute. eauto.
  - reflexivity.
  - reflexivity.
  - reflexivity.
  - split; [exact Hok|exact Hout].
Defined.

(** ** Frames: what a computation leaves unchanged *)

Ltac wp_step :=
  lazymatch goal with
  | |- wp (bind _ _) _ _ => apply wp_bind
  | |- wp (try_catch _ _) _ _ => apply wp_try_catch
  | |- wp (ret _) _ _ => apply wp_ret
  | |- wp (throw _) _ _ => apply wp_throw
  | |- wp (lift _) _ _ => apply wp_lift
  | |- wp get_world _ _ => apply wp_get_world
  | |- wp (emit _) _ _ => apply wp_emit
  | |- wp (log _) _ _ => apply wp_log
  | |- wp (logWalletError _ _) _ _ => apply wp_log
  | |- wp (set_user_wallets _) _ _ => apply wp_set_user_wallets
  | |- wp (set_local_npub_map _) _ _ => apply wp_set_local_npub_map
  | |- wp (set_onboardingState _) _ _ => apply wp_set_onboardingState
  | |- wp (set_pendingStore _) _ _ => apply wp_set_pendingStore
  | |- wp (set_identityOut _) _ _ => apply wp_set_identityOut
  | |- wp (if ?c then _ else _) _ _ => destruct c eqn:?
  | |- wp (match ?x with _ => _ end) _ _ => destruct x eqn:?
  | |- match ?o with Ok _ => _ | Raise _ => _ end => destruct o eqn:?
  end; cbv beta.

Ltac wp_steps := repeat wp_step.

Lemma request_frame (env : Env) (path : string) (init_method : option string)
    (init_body : JsValue) (w : World) :
  wp (request env path init_method init_body)
     (fun _ w' => state_of w' = state_of w) w.
Proof. unfold request. wp_steps; reflexivity. Qed.

Lemma createSubAccount_frame (env : Env) (label description : string)
    (metadata : JsValue) (w : World) :
  wp (createSubAccount env label description metadata)
     (fun _ w' => state_of w' = state_of w) w.
Proof.
  unfold createSubAccount, getMasterWallet. wp_steps; try reflexivity.
  eapply wp_mono; [apply request_frame|]. auto.
Qed.

Ltac world_simpl :=
  cbn [user_wallets local_npub_map onboardingState pendingStore identityOut trace
       push_events upd_user_wallets upd_local_npub_map upd_onboardingState
       upd_pendingStore upd_identityOut fst snd].

Lemma wp_frame_and {A : Type} (c : M A) (w : World) (a : A) :
  fst (c w) = Ok a ->
  wp c (fun _ w' => state_of w' = state_of w) w ->
  wp c (fun r w' => r = Ok a /\ state_of w' = state_of w) w.
Proof. unfold wp. auto. Qed.

Lemma wp_and_fst {A : Type} (c : M A) (w : World) (a : A) (P : World -> Prop) :
  fst (c w) = Ok a ->
  wp c (fun _ w' => P w') w ->
  wp c (fun r w' => r = Ok a /\ P w') w.
Proof. unfold wp. auto. Qed.

Lemma state_of_eq (w w' : World) :
  state_of w' = state_of w ->
  user_wallets w' = user_wallets w
  /\ local_npub_map w' = local_npub_map w
  /\ onboardingState w' = onboardingState w
  /\ pendingStore w' = pendingStore w
  /\ identityOut w' = identityOut w.
Proof. unfold state_of. intros [= -> -> -> -> ->]. auto. Qed.

Lemma member_prop (v : JsValue) (key other : string) (s : string) :
  prop v key = JStr s -> member v other = ret (prop v other).
Proof. destruct v; simpl; try discriminate; reflexivity. Qed.

(** ** Traces *)

Lemma extends_refl (p : Event -> bool) (w : World) : extends p w w.
Proof. exists []. rewrite app_nil_r. split; reflexivity. Qed.

Lemma extends_push (p : Event -> bool) (events : list Event) (w0 w : World) :
  forallb p events = true ->
  extends p w0 w -> extends p w0 (push_events events w).
Proof.
  intros Hevents (evs & Ht & Hall). exists (evs ++ events)%list.
  cbn [trace push_events]. rewrite Ht, <- app_assoc, forallb_app, Hall, Hevents.
  split; reflexivity.
Qed.

Lemma extends_trans (p : Event -> bool) (w0 w1 w2 : World) :
  extends p w0 w1 -> extends p w1 w2 -> extends p w0 w2.
Proof.
  intros (evs1 & Ht1 & Hall1) (evs2 & Ht2 & Hall2). exists (evs1 ++ evs2)%list.
  rewrite Ht2, Ht1, <- app_assoc, forallb_app, Hall1, Hall2. split; reflexivity.
Qed.

Lemma extends_pay_calls (p : Event -> bool) (w w' : World) :
  (forall e, p e = true -> is_nwc_pay e = false) ->
  extends p w w' -> pay_calls w' = pay_calls w.
Proof.
  intros Hp (evs & Ht & Hall). unfold pay_calls. rewrite Ht, List.filter_app.
  replace (List.filter is_nwc_pay evs) with (@nil Event); [apply app_nil_r|].
  clear Ht. induction evs as [|e rest IH]; [reflexivity|].
  simpl in *. apply andb_prop in Hall as [He Hrest].
  rewrite (Hp e He). auto.
Qed.

(** ** Onboarding *)

Lemma ensureBotId_frame (env : Env) (ctx : JsValue) (gatewayType gatewayUser : string)
    (w : World) :
  wp (ensureBotId env ctx gatewayType gatewayUser)
     (fun r w' => (exists res, r = Ok res) /\ state_of w' = state_of w) w.
Proof.
  unfold ensureBotId, resolveUserLinks_gatewayBotId, db.
  wp_steps; (split; [eexists; reflexivity|reflexivity]).
Qed.

Lemma app_snoc_cons {A : Type} (l : list A) (x : A) (after : list A) :
  ((l ++ [x]) ++ after = l ++ x :: after)%list.
Proof. rewrite <- app_assoc. reflexivity. Qed.

Lemma calm_refl (w : World) : calm w w.
Proof. split; [reflexivity|apply extends_refl]. Qed.

Lemma calm_push (events : list Event) (w0 w : World) :
  forallb (fun e => negb (is_notify e)) events = true ->
  calm w0 w -> calm w0 (push_events events w).
Proof.
  intros Hevents [Hstate Htrace]. split.
  - rewrite <- Hstate. reflexivity.
  - apply extends_push; assumption.
Qed.

Lemma calm_trans (w0 w1 w2 : World) : calm w0 w1 -> calm w1 w2 -> calm w0 w2.
Proof.
  intros [H1 H1'] [H2 H2']. split; [congruence|eapply extends_trans; eassumption].
Qed.

Ltac calm_solve :=
  repeat (apply calm_push; [reflexivity|]); first [assumption | apply calm_refl].

Lemma request_calm (env : Env) (path : string) (init_method : option string)
    (init_body : JsValue) (w : World) :
  wp (request env path init_method init_body) (fun _ w' => calm w w') w.
Proof. unfold request. wp_steps; calm_solve. Qed.

Lemma createSubAccount_calm (env : Env) (label description : string)
    (metadata : JsValue) (w : World) :
  wp (createSubAccount env label description metadata) (fun _ w' => calm w w') w.
Proof.
  unfold createSubAccount, getMasterWallet. wp_steps; try calm_solve.
  eapply wp_mono; [apply request_calm|]. auto.
Qed.

Lemma ensureBotId_calm (env : Env) (ctx : JsValue) (gatewayType gatewayUser : string)
    (w : World) :
  wp (ensureBotId env ctx gatewayType gatewayUser)
     (fun r w' => (exists res, r = Ok res) /\ calm w w') w.
Proof.
  unfold ensureBotId, resolveUserLinks_gatewayBotId, db.
  wp_steps; (split; [eexists; reflexivity|calm_solve]).
Qed.

Section GenerateWallet.

Variable env : Env.
Variable msg : BeaconMessage.
Variable npub : string.
Variable subAccount : JsValue.
Variables identifier subAccountId label : string.

Hypothesis Hdb : forall tr, db_error env tr = None.
Hypothesis Hprovision : forall w, fst (provision env msg npub w) = Ok subAccount.
Hypothesis Hidentifier : prop subAccount "identifier" = JStr identifier.
Hypothesis Hid : prop subAccount "id" = JStr subAccountId.
Hypothesis Hlabel : prop (prop subAccount "subAccount") "label" = JStr label.

Lemma handleGenerateWallet_spec (metaCtx : JsValue) (state : OnboardingStep) (w : World) :
  step_npub state = npub ->
  wp (handleGenerateWallet env msg metaCtx state)
     (generated env msg npub identifier subAccountId label metaCtx w) w.
Proof.
  intros Hnpub. unfold handleGenerateWallet. rewrite Hnpub.
  apply wp_try_catch, wp_bind, wp_log, wp_bind.
  eapply wp_mono.
  { apply wp_and_fst; [apply Hprovision|apply createSubAccount_calm]. }
  cbv beta. intros r w1 [-> Hw1].
  assert (Hcalm : calm w w1) by (eapply calm_trans; [|exact Hw1]; calm_solve).
  clear Hw1.
  pose proof Hcalm as [Hframe _].
  apply state_of_eq in Hframe as (Hwallets & _ & Honb & _ & Hout).
  rewrite (member_prop _ _ "identifier" _ Hidentifier), Hidentifier.
  rewrite (member_prop _ _ "id" _ Hidentifier), Hid.
  rewrite (member_prop _ _ "subAccount" _ Hidentifier).
  do 3 (apply wp_bind, wp_ret).
  rewrite (member_prop _ _ "label" _ Hlabel), Hlabel.
  apply wp_bind, wp_ret.
  apply wp_bind. unfold saveApiWallet.
  apply wp_try_catch, wp_bind, wp_db; [exact Hdb|].
  unfold sql_bind. do 3 (apply wp_bind, wp_ret).
  apply wp_bind, wp_get_world. apply wp_bind, wp_set_user_wallets. apply wp_log.
  unfold finishOnboarding.
  apply wp_bind, wp_get_world. apply wp_bind, wp_set_onboardingState. apply wp_bind.
  unfold notifyBrainOfNewUser.
  apply wp_bind, wp_get_world. apply wp_bind, wp_emit.
  world_simpl.
  assert (Hbefore : exists events,
             ((trace w1 ++ [EvDb "INSERT INTO user_wallets ... VALUES (?, 'api', NULL, NULL, ?, ?, ?) ON CONFLICT(user_npub) DO UPDATE"])
              ++ [EvLog ("[identity] Saved API wallet info for " ++ npub)]
              = trace w ++ events)%list
             /\ forallb (fun e => negb (is_notify e)) events = true).
  { destruct Hcalm as [_ (evs & -> & Hevs)].
    eexists. rewrite <- !app_assoc. split; [reflexivity|].
    rewrite forallb_app, Hevs. reflexivity. }
  match goal with |- wp (match ?x with _ => _ end) _ _ => destruct x as [e|] eqn:Hnotify end.
  - apply wp_throw. apply wp_bind, wp_log. apply wp_bind.
    unfold enqueueIdentityOut. apply wp_bind, wp_get_world.
    apply wp_set_identityOut. apply wp_bind.
    unfold set_state. apply wp_bind, wp_get_world.
    apply wp_set_onboardingState.
    unfold promptWalletChoice, enqueueIdentityOut. apply wp_bind, wp_get_world.
    apply wp_set_identityOut.
    unfold generated. world_simpl. rewrite Hwallets, Honb, Hout.
    split; [reflexivity|]. split; [reflexivity|].
    eexists _, _. split; [apply app_snoc_cons|]. split; [exact Hbefore|].
    split; [reflexivity|]. rewrite Hnotify. rewrite <- app_assoc. split; reflexivity.
  - apply wp_ret. apply wp_bind.
    unfold enqueueIdentityOut. apply wp_bind, wp_get_world.
    apply wp_set_identityOut. apply wp_log.
    unfold generated. world_simpl. rewrite Hwallets, Honb, Hout.
    split; [reflexivity|]. split; [reflexivity|].
    eexists _, _. split; [apply app_snoc_cons|]. split; [exact Hbefore|].
    split; [reflexivity|]. rewrite Hnotify. split; reflexivity.
Qed.

End GenerateWallet.

Lemma generated_outcome (env : Env) (msg : BeaconMessage) (npub identifier subAccountId label : string)
    (metaCtx : JsValue) (w0 w : World) (r : Outcome unit) (w' : World) :
  calm w0 w ->
  generated env msg npub identifier subAccountId label metaCtx w r w' ->
  r = Ok tt
  /\ user_wallets w' !! npub
     = Some (api_row (JStr identifier) (JStr subAccountId) (JStr label))
  /\ exists before after,
       trace w'
       = (before
          ++ EvNotifyBrain (gw_type (source_gateway msg)) (source_from msg) npub
          :: after)%list
       /\ (exists events,
             before = (trace w0 ++ events)%list
             /\ forallb (fun e => negb (is_notify e)) events = true)
       /\ forallb (fun e => negb (is_notify e)) after = true
       /\ match notify_brain env before with
          | None =>
              onboardingState w' !! source_from msg = None
              /\ identityOut w' = (identityOut w0 ++ [completion_out msg metaCtx])%list
          | Some _ =>
              onboardingState w' !! source_from msg = Some (awaiting_choice npub)
              /\ identityOut w'
                 = (identityOut w0
                    ++ [reply_to msg metaCtx
                          "Sorry, I couldn't create a wallet right now. Let's try that again.";
                        reply_to msg metaCtx wallet_choice_prompt])%list
          end.
Proof.
  intros [Hframe (evs0 & Htrace0 & Hevs0)]
         (Hr & Hwallets & before & after & Htrace & (evs & Hbefore & Hevs) & Hafter & Hrest).
  apply state_of_eq in Hframe as (_ & _ & Honb & _ & Hout).
  split; [assumption|]. split; [rewrite Hwallets; apply lookup_insert_eq|].
  exists before, after. split; [exact Htrace|]. split.
  { exists (evs0 ++ evs)%list. rewrite Hbefore, Htrace0, <- app_assoc.
    split; [reflexivity|]. rewrite forallb_app, Hevs0, Hevs. reflexivity. }
  split; [exact Hafter|].
  destruct (notify_brain env before); destruct Hrest as [-> ->]; rewrite Hout.
  - split; [apply lookup_insert_eq|reflexivity].
  - split; [apply lookup_delete_eq|reflexivity].
Qed.

(** C1, as stated, fails: alice is in [awaiting_choice], replies "2" and
    the sub-account is provisioned; the wallet row of kind [api] is
    written, and her onboarding state is deleted: it is not
    [awaiting_ln_address]. *)
Lemma generate_wallet_skips_ln_address :
  let env := sample_env gateway_vars http_subaccount_created lnurl_down decode_fails pay_down in
  let run := handleOnboarding env (message_from_alice "2") "2" world_alice_choosing in
  onboardingState world_alice_choosing !! "alice" = Some (awaiting_choice "npub1alice")
  /\ parseWalletChoice "2" = Some choice2
  /\ (exists subAccount,
        fst (provision env (message_from_alice "2") "npub1alice" world_alice_choosing)
        = Ok subAccount)
  /\ user_wallets (snd run) !! "npub1alice"
     = Some (api_row (JStr "beacon-alice") (JStr "sub-1") (JStr "beacon-whatsapp-alice"))
  /\ onboardingState (snd run) !! "alice" = None
  /\ onboardingState (snd run) !! "alice" <> Some (awaiting_ln_address "npub1alice").
Proof.
  cbv zeta. split; [reflexivity|]. split; [reflexivity|].
  split; [eexists; vm_compute; reflexivity|].
  assert (H : onboardingState
                (snd (handleOnboarding
                        (sample_env gateway_vars http_subaccount_created lnurl_down
                           decode_fails pay_down)
                        (message_from_alice "2") "2" world_alice_choosing)) !! "alice" = None)
    by (vm_compute; reflexivity).
  split; [vm_compute; reflexivity|]. split; [exact H|]. rewrite H. discriminate.
Qed.

(** C1, amended.  The user's onboarding state is [awaiting_choice] or
    [awaiting_nwc], the trimmed reply does not look like a wallet connect
    string and parses as choice "2", the database answers, and the
    sub-account provisioning call returns an account with string
    [identifier], [id] and [subAccount.label].  Then the handler returns
    normally, a wallet row of kind [api] with these three values is stored
    for the user's npub, and the onboarding state is never set to
    [awaiting_ln_address]: it is deleted, or reset to [awaiting_choice]
    when the new-user notification throws.  Precisely, the brain is
    notified of the new user exactly once during the call; when that
    notification returns, the state is deleted and the closing message is
    the one message added to the outbound queue; when it throws, the state
    is reset to [awaiting_choice] for the same npub and the two messages
    added to the queue are the apology and the wallet question. *)
Theorem generate_wallet_completes_onboarding
    (env : Env) (msg : BeaconMessage) (messageText : string) (w : World)
    (state : OnboardingStep) (npub : string) (subAccount : JsValue)
    (identifier subAccountId label : string) :
  (forall tr, db_error env tr = None) ->
  (forall w1, fst (provision env msg npub w1) = Ok subAccount) ->
  prop subAccount "identifier" = JStr identifier ->
  prop subAccount "id" = JStr subAccountId ->
  prop (prop subAccount "subAccount") "label" = JStr label ->
  onboardingState w !! source_from msg = Some state ->
  state = awaiting_choice npub \/ state = awaiting_nwc npub ->
  looksLikeNwcString (trim messageText) = false ->
  parseWalletChoice (trim messageText) = Some choice2 ->
  let run := handleOnboarding env msg messageText w in
  fst run = Ok tt
  /\ user_wallets (snd run) !! npub
     = Some (api_row (JStr identifier) (JStr subAccountId) (JStr label))
  /\ (onboardingState (snd run) !! source_from msg = None
      \/ onboardingState (snd run) !! source_from msg = Some (awaiting_choice npub))
  /\ ((forall tr, notify_brain env tr = None) ->
      onboardingState (snd run) !! source_from msg = None
      /\ exists metaCtx,
           identityOut (snd run) = (identityOut w ++ [completion_out msg metaCtx])%list)
  /\ exists metaCtx before after,
       trace (snd run)
       = (before
          ++ EvNotifyBrain (gw_type (source_gateway msg)) (source_from msg) npub
          :: after)%list
       /\ (exists events,
             before = (trace w ++ events)%list
             /\ forallb (fun e => negb (is_notify e)) events = true)
       /\ forallb (fun e => negb (is_notify e)) after = true
       /\ match notify_brain env before with
          | None =>
              onboardingState (snd run) !! source_from msg = None
              /\ identityOut (snd run)
                 = (identityOut w ++ [completion_out msg metaCtx])%list
          | Some _ =>
              onboardingState (snd run) !! source_from msg = Some (awaiting_choice npub)
              /\ identityOut (snd run)
                 = (identityOut w
                    ++ [reply_to msg metaCtx
                          "Sorry, I couldn't create a wallet right now. Let's try that again.";
                        reply_to msg metaCtx wallet_choice_prompt])%list
          end.
Proof.
  intros Hdb Hprovision Hidentifier Hid Hlabel Hstate Hkind Hnwc Hchoice run.
  enough (Hwp : wp (handleOnboarding env msg messageText)
                  (fun r w' => exists metaCtx w1,
                       calm w w1
                       /\ generated env msg npub identifier subAccountId label metaCtx w1 r w')
                  w).
  { destruct Hwp as (metaCtx & w1 & Hcalm & Hgen).
    destruct (generated_outcome _ _ _ _ _ _ _ _ _ _ _ Hcalm Hgen)
      as (H1 & H2 & before & after & Htrace & Hbefore & Hafter & Hrest).
    split; [exact H1|]. split; [exact H2|]. split; [|split].
    - destruct (notify_brain env before); [right|left]; apply Hrest.
    - intros Hall. rewrite Hall in Hrest. split; [apply Hrest|].
      exists metaCtx. apply Hrest.
    - exists metaCtx, before, after. auto. }
  unfold handleOnboarding.
  apply wp_bind, wp_log, wp_bind.
  match goal with |- wp _ ?Q _ => set (Qk := Q) end.
  assert (Hcont : forall res w1, calm w w1 -> Qk (Ok res) w1); cycle 1.
  { match goal with |- wp (if ?c then _ else _) _ _ => destruct c end.
    - apply wp_ret, Hcont. calm_solve.
    - eapply wp_mono; [apply ensureBotId_calm|].
      cbv beta. intros r w1 [(res & ->) Hcalm]. apply Hcont.
      eapply calm_trans; [|exact Hcalm]. calm_solve. }
  subst Qk. cbv beta. intros res w1 Hcalm.
  pose proof Hcalm as [Hframe _].
  apply state_of_eq in Hframe as (_ & _ & Honb & _ & _).
  apply wp_try_catch, wp_bind, wp_get_world.
  rewrite Honb. world_simpl. rewrite Hstate.
  destruct Hkind as [-> | ->]; rewrite Hnwc, Hchoice.
  - eapply wp_mono.
    { apply (handleGenerateWallet_spec env msg npub subAccount identifier subAccountId label);
        try assumption. reflexivity. }
    cbv beta. intros r w' Hgen. pose proof Hgen as (-> & _).
    eexists _, w1. split; [exact Hcalm|exact Hgen].
  - eapply wp_mono.
    { apply (handleGenerateWallet_spec env msg npub subAccount identifier subAccountId label);
        try assumption. reflexivity. }
    cbv beta. intros r w' Hgen. pose proof Hgen as (-> & _).
    eexists _, w1. split; [exact Hcalm|exact Hgen].
Qed.

Lemma generate_wallet_completes_onboarding_witness :
  let env := sample_env gateway_vars http_subaccount_created lnurl_down decode_fails pay_down in
  let run := handleOnboarding env (message_from_alice "2") "2" world_alice_choosing in
  let run' :=
    handleOnboarding (notify_down env) (message_from_alice "2") "2" world_alice_choosing in
  (fst run = Ok tt
   /\ onboardingState (snd run) !! "alice" = None)
  /\ (fst run' = Ok tt
      /\ user_wallets (snd run') !! "npub1alice"
         = Some (api_row (JStr "beacon-alice") (JStr "sub-1") (JStr "beacon-whatsapp-alice"))
      /\ onboardingState (snd run') !! "alice" = Some (awaiting_choice "npub1alice")).
Proof.
  intros env run run'. split.
  - destruct (generate_wallet_completes_onboarding env (message_from_alice "2") "2"
                world_alice_choosing (awaiting_choice "npub1alice") "npub1alice"
                (JObj [("id", JStr "sub-1"); ("identifier", JStr "beacon-alice");
                       ("subAccount", JObj [("id", JStr "sub-1");
                                            ("label", JStr "beacon-whatsapp-alice")])])
                "beacon-alice" "sub-1" "beacon-whatsapp-alice")
      as (Hok & _ & _ & Hdone & _).
    + reflexivity.
    + intros w1. reflexivity.
    + reflexivity.
    + reflexivity.
    + reflexivity.
    + reflexivity.
    + left. reflexivity.
    + reflexivity.
    + reflexivity.
    + split; [exact Hok|]. apply Hdone. reflexivity.
  - destruct (generate_wallet_completes_onboarding (notify_down env)
                (message_from_alice "2") "2"
                world_alice_choosing (awaiting_choice "npub1alice") "npub1alice"
                (JObj [("id", JStr "sub-1"); ("identifier", JStr "beacon-alice");
                       ("subAccount", JObj [("id", JStr "sub-1");
                                            ("label", JStr "beacon-whatsapp-alice")])])
                "beacon-alice" "sub-1" "beacon-whatsapp-alice")
      as (Hok & Hrow & _ & _ & metaCtx & before & after & _ & _ & _ & Hreset & _).
    + reflexivity.
    + intros w1. reflexivity.
    + reflexivity.
    + reflexivity.
    + reflexivity.
    + reflexivity.
    + left. reflexivity.
    + reflexivity.
    + reflexivity.
    + split; [exact Hok|]. split; [exact Hrow|exact Hreset].
Defined.

(** ** Payment dispatcher *)

Lemma wp_any {A : Type} (c : M A) (w : World) : wp c (fun _ _ => True) w.
Proof. exact I. Qed.

Lemma wp_member (value : JsValue) (key : string)
    (Q : Outcome JsValue -> World -> Prop) (w : World) :
  (forall e, Q (Raise e) w) -> Q (Ok (prop value key)) w -> wp (member value key) Q w.
Proof. intros Hraise Hok. destruct value; simpl; auto; apply Hraise. Qed.

Ltac wp_go :=
  repeat first [apply wp_member; [intros ?|] | wp_step].

Lemma pay_calls_push (events : list Event) (w : World) :
  forallb (fun e => negb (is_nwc_pay e)) events = true ->
  pay_calls (push_events events w) = pay_calls w.
Proof.
  unfold pay_calls. cbn [trace push_events]. intros H.
  rewrite List.filter_app.
  replace (List.filter is_nwc_pay events) with (@nil Event); [apply app_nil_r|].
  induction events as [|e rest IH]; [reflexivity|].
  simpl in *. apply andb_prop in H as [He Hrest].
  destruct (is_nwc_pay e); [discriminate|]. auto.
Qed.

Lemma pretty_Z_eqb (m n : Z) : m <> n -> String.eqb (pretty m) (pretty n) = false.
Proof.
  intros Hne. apply String.eqb_neq. intros Heq. apply Hne.
  exact (pretty_Z_inj _ _ Heq).
Qed.




(** the verification failure itself: every step of the LNURL exchange
    succeeds and the invoice decodes to [m] msats, other than the
    [a * 1000] asked for *)
Lemma mismatch_raises_verification_error
    (env : Env) (lnAddress name domain : string) (a m : Z) (w : World)
    (paramsUrl callbackHref : string) (params invoiceData : JsValue)
    (sections : list (string * JsValue)) :
  split_name_domain lnAddress = (name, Some domain) ->
  str_truthy name = true ->
  str_truthy domain = true ->
  URL_href env ("https://" ++ domain ++ "/.well-known/lnurlp/" ++ name) = Ok paramsUrl ->
  (forall tr, fetch_json env tr paramsUrl = Ok params) ->
  prop params "tag" = JStr "payRequest" ->
  prop params "status" = JUndefined ->
  URL_href env (js_String (prop params "callback")) = Ok callbackHref ->
  (forall tr,
      fetch_json env tr (URL_set_param env callbackHref "amount" (pretty (a * 1000)))
      = Ok invoiceData) ->
  prop invoiceData "status" = JUndefined ->
  truthy (prop invoiceData "pr") = true ->
  decodeBolt11 env (prop invoiceData "pr") = Ok sections ->
  amount_section_value sections = JStr (pretty m) ->
  m <> a * 1000 ->
  fst (getInvoiceFromLnAddress env lnAddress (Fin a) w)
  = Raise (new_Error ("Invoice amount mismatch. Expected " ++ pretty (a * 1000)
                        ++ ", got " ++ pretty m)).
Proof.
  intros Hsplit Hname Hdomain Hurl Hparams Htag Hstatus Hcallback Hinvoice Hstatus'
    Hpr Hdecode Hamount Hne.
  apply (wp_run (getInvoiceFromLnAddress env lnAddress (Fin a))
           (fun r _ => r = Raise (new_Error ("Invoice amount mismatch. Expected "
                                               ++ pretty (a * 1000) ++ ", got " ++ pretty m)))).
  unfold getInvoiceFromLnAddress, fetch. rewrite Hsplit.
  change (default "" (Some domain)) with domain.
  cbn [opt_truthy]. rewrite Hname, Hdomain. cbn [negb orb].
  rewrite Hurl.
  apply wp_bind, wp_log, wp_bind, wp_lift, wp_bind, wp_log.
  apply wp_bind, wp_bind, wp_get_world, wp_bind, wp_emit, wp_lift.
  rewrite Hparams.
  rewrite (member_prop params "tag" "status" _ Htag).
  rewrite (member_prop params "tag" "tag" _ Htag).
  apply wp_bind, wp_ret, wp_bind, wp_ret.
  rewrite Htag, Hstatus. cbn [String.eqb Ascii.eqb Bool.eqb negb orb].
  rewrite Hcallback. apply wp_bind, wp_lift.
  cbn [num_scale num_toString].
  apply wp_bind, wp_log, wp_bind, wp_bind, wp_get_world, wp_bind, wp_emit, wp_lift.
  rewrite Hinvoice.
  assert (Hmember : member invoiceData "status" = ret (prop invoiceData "status")).
  { destruct invoiceData; simpl in Hpr; try discriminate; reflexivity. }
  rewrite Hmember.
  apply wp_bind, wp_ret. rewrite Hstatus', Hpr. cbn [negb orb].
  rewrite Hdecode. apply wp_bind, wp_lift. rewrite Hamount.
  cbn [js_String]. rewrite pretty_Z_eqb by assumption. cbn [negb].
  apply wp_throw. reflexivity.
Qed.



(** the error thrown on a mismatch: one sat is asked, the invoice carries
    5000 sats *)
Example mismatch_error_message :
  fst (getInvoiceFromLnAddress
         (sample_env shared_vars http_down lnurl_overcharging decode_5000_sats pay_settles)
         "bob@pay.example" (Fin 1) empty_world)
  = Raise (new_Error "Invoice amount mismatch. Expected 1000, got 5000000").
Proof. vm_compute. reflexivity. Qed.

Lemma wp_request (env : Env) (base path : string) (init_method : option string)
    (init_body : JsValue) (Q : Outcome JsValue -> World -> Prop) (w : World) :
  buildBaseUrl env = Ok base ->
  (let url := base ++ (if startsWith path "/" then path else "/" ++ path) in
   let method := toUpperCase (match init_method with
                               | Some m => if str_truthy m then m else "GET"
                               | None => "GET"
                               end) in
   let w1 := push_events [EvLog "[nwcli] request"] w in
   let w2 := push_events [EvHttp method url (getAuthHeader env) init_body] w1 in
   match http_fetch env (trace w1) method url init_body with
   | Ok response =>
       if resp_ok response
       then Q (Ok (resp_data response)) (push_events [EvLog "[nwcli] response"] w2)
       else Q (Raise (http_error response))
              (push_events [EvLog "[nwcli] error"]
                 (push_events [EvLog "[nwcli] response"] w2))
   | Raise e => Q (Raise e) (push_events [EvLog "[nwcli] error"] w2)
   end) ->
  wp (request env path init_method init_body) Q w.
Proof.
  intros Hbase H. unfold request. rewrite Hbase.
  apply wp_bind, wp_lift, wp_bind, wp_log, wp_try_catch, wp_bind, wp_get_world.
  apply wp_bind, wp_emit, wp_bind, wp_lift.
  cbv zeta in H. world_simpl.
  cbn [trace push_events] in H.
  destruct (http_fetch env _ _ _ _) as [response|e].
  - apply wp_bind, wp_log. destruct (resp_ok response); simpl.
    + apply wp_ret. exact H.
    + apply wp_throw, wp_bind, wp_log, wp_throw. exact H.
  - apply wp_bind, wp_log, wp_throw. exact H.
Qed.

Lemma str_truthy_app (a b : string) :
  str_truthy a = true -> str_truthy (a ++ b) = true.
Proof. destruct a; simpl; [discriminate|reflexivity]. Qed.

Lemma default_if_found_truthy (fallback : string) (o : option string) :
  str_truthy fallback = true -> str_truthy (default fallback (if_found o)) = true.
Proof.
  intros H. destruct o as [s|]; simpl; [|exact H].
  destruct (str_truthy s) eqn:Hs; simpl; assumption.
Qed.

Lemma message_or_truthy (e : Thrown) (fallback : string) :
  str_truthy fallback = true -> str_truthy (message_or e fallback) = true.
Proof.
  intros H. destruct e as [message data|s]; simpl; [|exact H].
  destruct (str_truthy message) eqn:Hm; assumption.
Qed.

Lemma appendBalanceContext_truthy
    (snapshot : option (option number * option number)) (message : string)
    (requestMsats : option number) :
  str_truthy message = true ->
  str_truthy (appendBalanceContext snapshot message requestMsats) = true.
Proof.
  intros H. unfold appendBalanceContext.
  destruct (buildBalanceInsight _ _ _) as [i|]; [|exact H].
  destruct (str_truthy i); [|exact H]. apply str_truthy_app, H.
Qed.

Lemma failure_explained (error : string) :
  str_truthy error = true -> explained (failure error).
Proof. intros H _. exists error. auto. Qed.

Lemma api_outcome_explained (env : Env)
    (snapshot : option (option number * option number)) (response : JsValue)
    (requestMsats : option number) :
  explained (api_outcome env snapshot response requestMsats).
Proof.
  unfold api_outcome. destruct (i_success _).
  - intros H. discriminate.
  - apply failure_explained, appendBalanceContext_truthy, default_if_found_truthy.
    reflexivity.
Qed.


Lemma wp_request_exact (env : Env) (base path : string) (init_method : option string)
    (init_body : JsValue) (Q : Outcome JsValue -> World -> Prop) (w : World) :
  buildBaseUrl env = Ok base ->
  startsWith path "/" = true ->
  (let method := toUpperCase (match init_method with
                               | Some m => if str_truthy m then m else "GET"
                               | None => "GET"
                               end) in
   let answer := http_answer env (trace w) method (base ++ path) init_body in
   Q (request_result answer)
     (push_events (request_events env method (base ++ path) init_body answer) w)) ->
  wp (request env path init_method init_body) Q w.
Proof.
  intros Hbase Hpath H. eapply wp_request; [exact Hbase|].
  rewrite Hpath. cbv zeta in *. unfold http_answer, request_events, request_result in H.
  cbn [trace push_events].
  destruct (http_fetch env _ _ _ _) as [response|e];
    [destruct (resp_ok response)|];
    rewrite !push_events_push; exact H.
Qed.
Lemma wp_fst_snd {A : Type} (c : M A) (Q : Outcome A -> World -> Prop) (w : World)
    (r : Outcome A) (w' : World) :
  fst (c w) = r -> snd (c w) = w' -> Q r w' -> wp c Q w.
Proof. unfold wp. intros -> ->. auto. Qed.

Lemma loadWallet_world (env : Env) (npub : string) (w : World) :
  snd (loadWallet env npub w)
  = push_events [EvDb "SELECT ... FROM user_wallets WHERE user_npub = ?"] w.
Proof.
  apply (wp_run (loadWallet env npub)
           (fun _ w' => w' = push_events
                               [EvDb "SELECT ... FROM user_wallets WHERE user_npub = ?"] w)).
  unfold loadWallet, db. wp_go; reflexivity.
Qed.

Lemma wp_refresh (env : Env) (base identifier : string) (handler : Thrown -> M unit)
    (Q : Outcome unit -> World -> Prop) (w : World) :
  buildBaseUrl env = Ok base ->
  str_truthy identifier = true ->
  Q (Ok tt) (push_events (refreshing env base identifier (trace w)) w) ->
  wp (try_catch (refreshLedgerIfSupported env (Some identifier)) handler) Q w.
Proof.
  intros Hbase Htruthy H. unfold refreshLedgerIfSupported. rewrite Htruthy. cbn [negb].
  apply wp_try_catch, wp_try_catch, wp_bind. unfold nwcliRefreshLedger.
  eapply wp_request_exact; [exact Hbase|reflexivity|]. cbv zeta.
  change (toUpperCase (if str_truthy "POST" then "POST" else "GET")) with "POST".
  unfold refreshing in H. cbv zeta in H.
  destruct (http_answer env (trace w) "POST" _ _) as [response|e];
    [destruct (resp_ok response) eqn:Hok|]; cbn [request_result failed] in *;
    rewrite ?Hok in *; cbn [negb] in H.
  - apply wp_ret. rewrite app_nil_r in H. exact H.
  - apply wp_log. rewrite push_events_push. exact H.
  - apply wp_log. rewrite push_events_push. exact H.
Qed.
Lemma wp_balance (env : Env) (base identifier : string)
    (Q : Outcome (option (option number * option number)) -> World -> Prop) (w : World) :
  buildBaseUrl env = Ok base ->
  Q (Ok (snapshot_of env
           (http_answer env (trace w) "GET"
              (base ++ "/api/balance?" ++ URLSearchParams_nickname env identifier)
              JUndefined)))
    (push_events (balancing env base identifier (trace w)) w) ->
  wp (try_catch
        (let* balanceResponse := nwcliFetchBalance env identifier in
         let snapshot :=
           (extractMsats (Number_of_string env) balanceResponse,
            extractPendingMsats (Number_of_string env) balanceResponse) in
         log "[WalletManager] API wallet snapshot before payment" ;;;
         ret (Some snapshot))
        (fun balanceError =>
           logWalletError "[WalletManager] Failed to fetch balance before payment"
                          balanceError ;;;
           ret None)) Q w.
Proof.
  intros Hbase H. apply wp_try_catch, wp_bind. unfold nwcliFetchBalance.
  eapply wp_request_exact; [exact Hbase|reflexivity|]. cbv zeta.
  change (toUpperCase "GET") with "GET".
  unfold balancing, snapshot_of in H. cbv zeta in H.
  destruct (http_answer env (trace w) "GET" _ _) as [response|e];
    [destruct (resp_ok response) eqn:Hok|]; cbn [request_result failed] in *;
    rewrite ?Hok in *; cbn [negb] in H.
  - apply wp_bind, wp_log, wp_ret. rewrite push_events_push. exact H.
  - apply wp_bind, wp_log, wp_ret. rewrite push_events_push. exact H.
  - apply wp_bind, wp_log, wp_ret. rewrite push_events_push. exact H.
Qed.

Lemma decode_phase (env : Env) (decode_it : bool) (invoice : string) :
  exists invoiceMsats decoding,
    forall w0,
      let decoded := (if decode_it then decodeInvoiceMsats env invoice else ret None) w0 in
      fst decoded = Ok invoiceMsats
      /\ trace (snd decoded) = (trace w0 ++ decoding)%list
      /\ state_of (snd decoded) = state_of w0.
Proof.
  destruct decode_it.
  - unfold decodeInvoiceMsats, try_catch, bind, lift, logWalletError, log, emit, ret.
    destruct (decodeBolt11 env (JStr invoice)) as [sections|e].
    + destruct (negb (truthy (amount_section_value sections))).
      * exists None, []. intros w0. rewrite app_nil_r. repeat split.
      * eexists _, []. intros w0. rewrite app_nil_r. repeat split.
    + exists None, [EvLog "[WalletManager] Failed to decode invoice amount"].
      intros w0. repeat split.
  - exists None, []. intros w0. rewrite app_nil_r. repeat split.
Qed.

(** the outcome of the payment request of an HTTP wallet and what is
    logged after it *)
Lemma wp_api_pay (env : Env) (base path : string) (body : JsValue)
    (snapshot : option (option number * option number))
    (requestMsats : option number)
    (Q : Outcome PaymentResult -> World -> Prop) (w : World) :
  buildBaseUrl env = Ok base ->
  startsWith path "/" = true ->
  (let answer := http_answer env (trace w) "POST" (base ++ path) body in
   Q (Ok (api_result env snapshot requestMsats answer))
     (push_events
        (request_events env "POST" (base ++ path) body answer
         ++ (if failed answer then [EvLog "[WalletManager] makePayment failed"] else []))
        w)) ->
  wp (try_catch
        (let* response := request env path (Some "POST") body in
         ret (api_outcome env snapshot response requestMsats))
        (fun error =>
           logWalletError "[WalletManager] makePayment failed" error ;;;
           ret (failure (appendBalanceContext snapshot
                           (default "An unknown error occurred."
                                    (if_found (extractMessageFromError error)))
                           requestMsats)))) Q w.
Proof.
  intros Hbase Hpath H. apply wp_try_catch, wp_bind.
  eapply wp_request_exact; [exact Hbase|exact Hpath|]. cbv zeta.
  change (toUpperCase (if str_truthy "POST" then "POST" else "GET")) with "POST".
  cbv zeta in H. unfold api_result in H.
  destruct (http_answer env (trace w) "POST" _ _) as [response|e];
    [destruct (resp_ok response) eqn:Hok|]; cbn [request_result failed] in *;
    rewrite ?Hok in *; cbn [negb] in H.
  - apply wp_ret. rewrite app_nil_r in H. exact H.
  - apply wp_bind, wp_log, wp_ret. rewrite push_events_push. exact H.
  - apply wp_bind, wp_log, wp_ret. rewrite push_events_push. exact H.
Qed.

(** C7.  On the HTTP wallet path, with a payable request and a base URL,
    whatever the ledger refresh and the balance fetch do (return, answer
    with an error status, or throw), [makePayment] goes on to the payment
    request ([payLnAddress] or [payInvoice]) and returns the outcome that
    the answer to that request determines.  The whole trace of the call is
    determined: the two log and database events of the wallet lookup, the
    refresh request, with the line "refreshLedger failed (non-fatal)" when
    it failed, the balance request, with the line "Failed to fetch balance
    before payment" when it failed and the snapshot line otherwise, what
    decoding the invoice logs, and the payment request, with the line
    "makePayment failed" when it failed.  The outcome is that of the
    payment request; nothing of the refresh enters it, and of the balance
    fetch only the snapshot, which is none when the fetch failed.  No
    table and no queue changes. *)
Theorem prepayment_failures_do_not_abort
    (env : Env) (details : PendingPayment) (wallet : WalletDetails)
    (identifier base : string) (w : World) :
  fst (loadWallet env (p_npub details) (push_events [makePayment_log details] w))
  = Ok (Some wallet) ->
  wd_type wallet = api ->
  wd_apiIdentifier wallet = Some identifier ->
  str_truthy identifier = true ->
  buildBaseUrl env = Ok base ->
  (if String.eqb (p_type details) "ln_address"
   then opt_truthy (p_lnAddress details) && amount_truthy (p_amount details)
   else opt_truthy (p_lnInvoice details)) = true ->
  let run := makePayment env details w in
  let tr0 :=
    (trace w ++ [makePayment_log details;
                 EvDb "SELECT ... FROM user_wallets WHERE user_npub = ?"])%list in
  let tr1 := (tr0 ++ refreshing env base identifier tr0)%list in
  let balance :=
    http_answer env tr1 "GET"
      (base ++ "/api/balance?" ++ URLSearchParams_nickname env identifier) JUndefined in
  let tr2 := (tr1 ++ balancing env base identifier tr1)%list in
  let decode :=
    if String.eqb (p_type details) "ln_invoice" && opt_truthy (p_lnInvoice details)
    then decodeInvoiceMsats env (default "" (p_lnInvoice details))
    else ret None in
  exists invoiceMsats decoding,
    (forall w0, fst (decode w0) = Ok invoiceMsats
                /\ trace (snd (decode w0)) = (trace w0 ++ decoding)%list)
    /\ let requestMsats :=
         if String.eqb (p_type details) "ln_address"
         then Some (num_scale (default NaN (p_amount details)) 1000)
         else invoiceMsats in
       let tr3 := (tr2 ++ decoding)%list in
       let url := base ++ pay_path details in
       let body := pay_body identifier details in
       let pay := http_answer env tr3 "POST" url body in
       trace (snd run)
       = (tr3 ++ request_events env "POST" url body pay
              ++ (if failed pay then [EvLog "[WalletManager] makePayment failed"] else []))%list
       /\ fst run = Ok (api_result env (snapshot_of env balance) requestMsats pay)
       /\ state_of (snd run) = state_of w.
Proof.
  intros Hload Htype Hid Htruthy Hbase Hvalid run tr0 tr1 balance tr2 decode.
  destruct (decode_phase env
              (String.eqb (p_type details) "ln_invoice" && opt_truthy (p_lnInvoice details))
              (default "" (p_lnInvoice details)))
    as (invoiceMsats & decoding & Hdecode).
  exists invoiceMsats, decoding.
  split; [intros w0; split; apply Hdecode|].
  cbv zeta. subst run.
  pattern (fst (makePayment env details w)), (snd (makePayment env details w)).
  apply (wp_run (makePayment env details) _ w).
  unfold makePayment. apply wp_bind, wp_log, wp_bind.
  eapply wp_fst_snd; [exact Hload|apply loadWallet_world|]. cbv beta iota.
  match goal with |- wp _ _ ?W => set (w0 := W) end.
  assert (Htr0 : trace w0 = tr0)
    by (subst w0 tr0; cbn [trace push_events]; rewrite <- app_assoc; reflexivity).
  assert (Hst0 : state_of w0 = state_of w) by reflexivity.
  clearbody w0.
  rewrite Htype, Hid. change (default "" (Some identifier)) with identifier.
  cbn [opt_truthy]. rewrite Htruthy. cbn [negb].
  apply wp_bind. eapply wp_refresh; [exact Hbase|exact Htruthy|].
  match goal with |- wp _ _ ?W => set (w1 := W) end.
  assert (Htr1 : trace w1 = tr1)
    by (subst w1 tr1; cbn [trace push_events]; rewrite Htr0; reflexivity).
  assert (Hst1 : state_of w1 = state_of w) by (rewrite <- Hst0; reflexivity).
  clearbody w1. clear Htr0 Hst0 w0.
  apply wp_bind. eapply wp_balance; [exact Hbase|].
  match goal with |- wp _ _ ?W => set (w2 := W) end.
  assert (Htr2 : trace w2 = tr2)
    by (subst w2 tr2; cbn [trace push_events]; rewrite Htr1; reflexivity).
  assert (Hst2 : state_of w2 = state_of w) by (rewrite <- Hst1; reflexivity).
  rewrite Htr1. fold balance. clearbody w2. clear Hst1 Htr1 w1.
  apply wp_bind.
  destruct (Hdecode w2) as (Hfst & Htr3 & Hst3). cbv zeta in Hfst, Htr3, Hst3.
  eapply wp_fst_snd; [exact Hfst|reflexivity|]. cbv beta iota.
  match goal with |- wp _ _ ?W => set (w3 := W) in * end.
  rewrite Htr2 in Htr3. rewrite Hst2 in Hst3. clearbody w3. clear Hfst Htr2 Hst2 w2.
  unfold pay_path, pay_body.
  destruct (String.eqb (p_type details) "ln_address") eqn:Hln.
  - apply andb_prop in Hvalid as [Haddress Hamount]. rewrite Haddress, Hamount.
    cbn [negb orb andb]. unfold nwcliPayLnAddress.
    eapply wp_api_pay; [exact Hbase|reflexivity|]. cbv zeta.
    cbn [trace push_events]. rewrite Htr3.
    split; [rewrite app_assoc; reflexivity|]. split; [reflexivity|exact Hst3].
  - rewrite Hvalid. cbn [negb]. unfold nwcliPayInvoice.
    eapply wp_api_pay; [exact Hbase|reflexivity|]. cbv zeta.
    cbn [trace push_events]. rewrite Htr3.
    split; [rewrite app_assoc; reflexivity|]. split; [reflexivity|exact Hst3].
Qed.

Lemma prepayment_failures_do_not_abort_witness :
  let env := sample_env no_vars http_only_pays lnurl_down decode_fails pay_down in
  let run := makePayment env pay_invoice_for_alice world_alice_api in
  trace (snd run)
  = [EvLog "[WalletManager] Processing payment for npub npub1alice:";
     EvDb "SELECT ... FROM user_wallets WHERE user_npub = ?";
     EvLog "[nwcli] request";
     EvHttp "POST" "http://127.0.0.1/api/refreshLedger" None
       (JObj [("nickname", JStr "beacon-alice")]);
     EvLog "[nwcli] error";
     EvLog "[WalletManager] refreshLedger failed (non-fatal)";
     EvLog "[nwcli] request";
     EvHttp "GET" "http://127.0.0.1/api/balance?nickname=beacon-alice" None JUndefined;
     EvLog "[nwcli] error";
     EvLog "[WalletManager] Failed to fetch balance before payment";
     EvLog "[WalletManager] Failed to decode invoice amount";
     EvLog "[nwcli] request";
     EvHttp "POST" "http://127.0.0.1/api/payInvoice" None
       (JObj [("nickname", JStr "beacon-alice"); ("invoice", JStr "lnbc10u1sample")]);
     EvLog "[nwcli] response"]
  /\ fst run
     = Ok {| pr_success := true; pr_receipt := Some (JStr hex64_sample);
             pr_error := None |}.
Proof.
  intros env run.
  destruct (prepayment_failures_do_not_abort env pay_invoice_for_alice
              {| wd_type := api; wd_npub := "npub1alice"; wd_nwcUri := None;
                 wd_lnAddress := None; wd_apiIdentifier := Some "beacon-alice";
                 wd_apiSubAccountId := Some "sub-1";
                 wd_apiLabel := Some "beacon-whatsapp-alice" |}
              "beacon-alice" "http://127.0.0.1" world_alice_api)
    as (invoiceMsats & decoding & Hdecode & Htrace & Hresult & _);
    try reflexivity.
  destruct (Hdecode empty_world) as [Hmsats Hevents].
  vm_compute in Hmsats, Hevents.
  injection Hmsats as <-. subst decoding.
  split.
  - etransitivity; [exact Htrace|]. vm_compute. reflexivity.
  - etransitivity; [exact Hresult|]. vm_compute. reflexivity.
Defined.

(** the ledger refresh and the balance fetch both throw, and the payment
    is made and succeeds *)
Example payment_after_failed_refresh :
  let env := sample_env no_vars http_only_pays lnurl_down decode_fails pay_down in
  fst (makePayment env pay_invoice_for_alice world_alice_api)
  = Ok {| pr_success := true; pr_receipt := Some (JStr hex64_sample); pr_error := None |}.
Proof. vm_compute. reflexivity. Qed.

Lemma calls_ok_app (env : Env) (tr a b : list Event) :
  calls_ok env tr (a ++ b) = calls_ok env tr a && calls_ok env (tr ++ a) b.
Proof.
  revert tr. induction a as [|e rest IH]; intros tr.
  - rewrite app_nil_r. reflexivity.
  - cbn [calls_ok app]. rewrite IH, <- app_assoc, andb_assoc. reflexivity.
Qed.

Lemma calls_ok_off_path (env : Env) (tr events : list Event) :
  forallb (fun e => negb (on_payment_path env e)) events = true ->
  calls_ok env tr events = true.
Proof.
  revert tr. induction events as [|e rest IH]; intros tr H; [reflexivity|].
  cbn [calls_ok forallb] in *. apply andb_prop in H as [He Hrest].
  apply negb_true_iff in He. rewrite He, IH by assumption. reflexivity.
Qed.

Lemma calls_ok_spec (env : Env) (tr events before after : list Event) (call : Event) :
  calls_ok env tr events = true ->
  events = (before ++ call :: after)%list ->
  on_payment_path env call = true ->
  call_throws env (tr ++ before) call = false.
Proof.
  intros Hok -> Hpath. rewrite calls_ok_app in Hok.
  apply andb_prop in Hok as [_ Hok]. cbn [calls_ok] in Hok.
  apply andb_prop in Hok as [Hok _]. rewrite Hpath in Hok.
  apply negb_true_iff in Hok. exact Hok.
Qed.

Lemma off_path_no_pay (env : Env) (events : list Event) :
  forallb (fun e => negb (on_payment_path env e)) events = true ->
  forallb (fun e => negb (is_pay_call env e)) events = true.
Proof.
  induction events as [|e rest IH]; [reflexivity|].
  cbn [forallb]. intros H. apply andb_prop in H as [He Hrest].
  rewrite IH by assumption. destruct e; try reflexivity; cbn in *; rewrite ?He; auto.
Qed.

Lemma on_course_refl (env : Env) (w : World) : on_course env w w.
Proof. exists []. rewrite app_nil_r. repeat split. Qed.

Lemma on_course_push (env : Env) (events : list Event) (w0 w : World) :
  forallb (fun e => negb (on_payment_path env e)) events = true ->
  on_course env w0 w -> on_course env w0 (push_events events w).
Proof.
  intros Hevents (evs & Ht & Hok & Hpay). exists (evs ++ events)%list.
  cbn [trace push_events]. rewrite Ht, <- app_assoc, calls_ok_app, Hok, forallb_app, Hpay.
  rewrite calls_ok_off_path, off_path_no_pay by assumption. repeat split.
Qed.

Lemma on_course_fetch (env : Env) (url : string) (data : JsValue) (w0 w : World) :
  fetch_json env (trace w) url = Ok data ->
  on_course env w0 w -> on_course env w0 (push_events [EvFetch url] w).
Proof.
  intros Hfetch (evs & Ht & Hok & Hpay). exists (evs ++ [EvFetch url])%list.
  cbn [trace push_events]. rewrite Ht, <- app_assoc, calls_ok_app, Hok, forallb_app, Hpay.
  cbn [calls_ok on_payment_path call_throws andb]. rewrite <- Ht, Hfetch. repeat split.
Qed.

Lemma on_course_trans (env : Env) (w0 w1 w2 : World) :
  on_course env w0 w1 -> on_course env w1 w2 -> on_course env w0 w2.
Proof.
  intros (evs1 & Ht1 & Hok1 & Hpay1) (evs2 & Ht2 & Hok2 & Hpay2).
  exists (evs1 ++ evs2)%list.
  rewrite Ht2, Ht1, <- app_assoc, calls_ok_app, Hok1, forallb_app, Hpay1, Hpay2.
  rewrite <- Ht1, Hok2. repeat split.
Qed.

Lemma on_course_extends (env : Env) (w w' : World) :
  on_course env w w' -> extends (fun _ => true) w w'.
Proof.
  intros (evs & Ht & _). exists evs. split; [exact Ht|].
  clear. induction evs; simpl; auto.
Qed.

Lemma call_pays_returns (env : Env) (tr : list Event) (e : Event) :
  call_pays env tr e = true -> call_throws env tr e = false.
Proof.
  destruct e; cbn [call_pays call_throws]; try discriminate.
  - destruct (http_fetch env tr method url body) as [response|]; [|discriminate].
    intros H. apply andb_prop in H as [H _]. cbn [failed]. rewrite H. reflexivity.
  - destruct (nwc_payInvoice env tr nwcUri invoice); [reflexivity|discriminate].
Qed.

Lemma succeeded_call (env : Env) (call : Event) (w0 w : World) :
  on_course env w0 w ->
  is_pay_call env call = true ->
  call_pays env (trace w) call = true ->
  succeeded env w0 (push_events [call] w).
Proof.
  intros (evs & Ht & Hok & Hpay) Hcall Hpays.
  exists (evs ++ [call])%list. cbn [trace push_events].
  split; [rewrite Ht, <- !app_assoc; reflexivity|]. split.
  - rewrite calls_ok_app, Hok. cbn [calls_ok andb]. rewrite <- Ht.
    rewrite (call_pays_returns _ _ _ Hpays), andb_false_r. reflexivity.
  - exists evs, call, []. rewrite <- Ht. auto.
Qed.

Lemma succeeded_push (env : Env) (events : list Event) (w0 w : World) :
  forallb (fun e => negb (on_payment_path env e)) events = true ->
  succeeded env w0 w -> succeeded env w0 (push_events events w).
Proof.
  intros Hevents (evs & Ht & Hok & before & call & after & -> & Hcall & Hpays).
  exists ((before ++ call :: after) ++ events)%list. cbn [trace push_events].
  split; [rewrite Ht, <- !app_assoc; reflexivity|]. split.
  - rewrite calls_ok_app, Hok. apply calls_ok_off_path, Hevents.
  - exists before, call, (after ++ events)%list.
    rewrite <- app_assoc. auto.
Qed.

Lemma eqb_app_l (a b c : string) : String.eqb (a ++ b) (a ++ c) = String.eqb b c.
Proof.
  induction a as [|x a IH]; [reflexivity|].
  change (String.eqb (String x (a ++ b)) (String x (a ++ c)) = String.eqb b c).
  cbn [String.eqb]. destruct (Ascii.eqb_spec x x); [exact IH|congruence].
Qed.

Lemma is_pay_call_http (env : Env) (base method path : string)
    (authorization : option string) (body : JsValue) :
  buildBaseUrl env = Ok base ->
  is_pay_call env (EvHttp method (base ++ path) authorization body)
  = String.eqb method "POST"
    && (String.eqb path "/api/payInvoice" || String.eqb path "/api/payLnAddress").
Proof. intros Hbase. cbn [is_pay_call]. rewrite Hbase, !eqb_app_l. reflexivity. Qed.

Lemma forallb_any (events : list Event) : forallb any_event events = true.
Proof. induction events; simpl; auto. Qed.

Lemma extends_any_push (events : list Event) (w0 w : World) :
  extends any_event w0 w -> extends any_event w0 (push_events events w).
Proof. apply extends_push, forallb_any. Qed.

Ltac extends_solve :=
  repeat apply extends_any_push; first [assumption | apply extends_refl].

(** a request that is not the payment request *)
Lemma request_off_path (env : Env) (path : string) (init_method : option string)
    (init_body : JsValue) (w : World) :
  startsWith path "/" = true ->
  String.eqb path "/api/payInvoice" = false ->
  String.eqb path "/api/payLnAddress" = false ->
  wp (request env path init_method init_body) (fun _ w' => on_course env w w') w.
Proof.
  intros Hslash Hinvoice Haddress. unfold request. rewrite Hslash.
  apply wp_bind, wp_lift.
  destruct (buildBaseUrl env) as [base|e] eqn:Hbase; [|apply on_course_refl].
  assert (Hoff : forall method,
             forallb (fun e => negb (on_payment_path env e))
               [EvHttp method (base ++ path) (getAuthHeader env) init_body] = true).
  { intros method. cbn [forallb on_payment_path].
    rewrite (is_pay_call_http _ _ _ _ _ _ Hbase), Hinvoice, Haddress, andb_false_r.
    reflexivity. }
  wp_steps;
    repeat first [apply on_course_push; [first [reflexivity|apply Hoff]|]];
    apply on_course_refl.
Qed.

Lemma request_extends (env : Env) (path : string) (init_method : option string)
    (init_body : JsValue) (w0 w : World) :
  extends any_event w0 w ->
  wp (request env path init_method init_body) (fun _ w' => extends any_event w0 w') w.
Proof. intros H. unfold request. wp_steps; extends_solve. Qed.

Ltac course_solve :=
  repeat first
    [ apply on_course_push; [reflexivity|]
    | eapply on_course_fetch; [eassumption|] ];
  first [assumption | apply on_course_refl].

Lemma getInvoiceFromLnAddress_course (env : Env) (lnAddress : string)
    (amountSats : number) (w0 w : World) :
  on_course env w0 w ->
  wp (getInvoiceFromLnAddress env lnAddress amountSats)
     (fun r w' =>
        extends any_event w w'
        /\ match r with
           | Ok _ => on_course env w0 w'
           | Raise _ => True
           end) w.
Proof.
  intros Hcourse. unfold getInvoiceFromLnAddress, fetch.
  destruct (split_name_domain lnAddress) as [name domain].
  wp_go; (split; [extends_solve|]); try exact I; course_solve.
Qed.

Lemma nwc_pay_spec (env : Env) (client : string) (invoice : JsValue) (w0 w : World) :
  on_course env w0 w ->
  wp (nwc_pay env client invoice)
     (fun r w' =>
        extends any_event w w'
        /\ match r with
           | Ok result =>
               explained result /\ (pr_success result = true -> succeeded env w0 w')
           | Raise _ => True
           end) w.
Proof.
  intros Hcourse. unfold nwc_pay, client_payInvoice.
  apply wp_bind, wp_bind, wp_get_world, wp_bind, wp_emit, wp_lift.
  destruct (nwc_payInvoice env _ _ _) as [result|e] eqn:Hpay;
    [|split; [extends_solve|exact I]].
  match goal with |- wp (if ?c then _ else _) _ _ => destruct c eqn:Hpreimage end;
    apply wp_ret; (split; [extends_solve|]).
  - split; [intros H; discriminate|]. intros _.
    apply succeeded_call; [exact Hcourse|reflexivity|].
    cbn [call_pays]. rewrite Hpay.
    destruct result; try discriminate Hpreimage; exact Hpreimage.
  - split; [apply failure_explained; reflexivity|]. intros H. discriminate H.
Qed.

Lemma refresh_course (env : Env) (identifier : option string)
    (handler : Thrown -> M unit) (w : World) :
  wp (try_catch (refreshLedgerIfSupported env identifier) handler)
     (fun r w' => r = Ok tt /\ on_course env w w') w.
Proof.
  unfold refreshLedgerIfSupported. apply wp_try_catch.
  destruct identifier as [id|]; [|apply wp_ret; split; [reflexivity|apply on_course_refl]].
  destruct (negb (str_truthy id)); [apply wp_ret; split; [reflexivity|apply on_course_refl]|].
  apply wp_try_catch, wp_bind. unfold nwcliRefreshLedger.
  eapply wp_mono; [apply request_off_path; reflexivity|].
  cbv beta. intros [data|e] w' Hcourse.
  - apply wp_ret. auto.
  - apply wp_log. split; [reflexivity|]. course_solve.
Qed.

Lemma balance_course (env : Env) (identifier : string) (w : World) :
  wp (try_catch
        (let* balanceResponse := nwcliFetchBalance env identifier in
         let snapshot :=
           (extractMsats (Number_of_string env) balanceResponse,
            extractPendingMsats (Number_of_string env) balanceResponse) in
         log "[WalletManager] API wallet snapshot before payment" ;;;
         ret (Some snapshot))
        (fun balanceError =>
           logWalletError "[WalletManager] Failed to fetch balance before payment"
                          balanceError ;;;
           ret None))
     (fun r w' => (exists snapshot, r = Ok snapshot) /\ on_course env w w') w.
Proof.
  apply wp_try_catch, wp_bind. unfold nwcliFetchBalance.
  eapply wp_mono; [apply request_off_path; reflexivity|].
  cbv beta. intros [data|e] w' Hcourse.
  - apply wp_bind, wp_log, wp_ret. split; [eauto|]. course_solve.
  - apply wp_bind, wp_log, wp_ret. split; [eauto|]. course_solve.
Qed.

Lemma decode_course (env : Env) (decode_it : bool) (invoice : string) (w : World) :
  wp (if decode_it then decodeInvoiceMsats env invoice else ret None)
     (fun r w' => (exists invoiceMsats, r = Ok invoiceMsats) /\ on_course env w w') w.
Proof.
  destruct decode_it; [|apply wp_ret; split; [eauto|apply on_course_refl]].
  unfold decodeInvoiceMsats. wp_go; (split; [eauto|]); course_solve.
Qed.

Lemma api_pay_spec (env : Env) (path : string) (body : JsValue)
    (snapshot : option (option number * option number))
    (requestMsats : option number) (w0 w : World) :
  path = "/api/payLnAddress" \/ path = "/api/payInvoice" ->
  on_course env w0 w ->
  wp (let* response := request env path (Some "POST") body in
      ret (api_outcome env snapshot response requestMsats))
     (fun r w' =>
        extends any_event w w'
        /\ match r with
           | Ok result =>
               explained result /\ (pr_success result = true -> succeeded env w0 w')
           | Raise _ => True
           end) w.
Proof.
  intros Hpath Hcourse. apply wp_bind. unfold request.
  replace (startsWith path "/") with true by (destruct Hpath as [-> | ->]; reflexivity).
  change (toUpperCase (if str_truthy "POST" then "POST" else "GET")) with "POST".
  apply wp_bind, wp_lift.
  destruct (buildBaseUrl env) as [base|e] eqn:Hbase;
    [|split; [extends_solve|exact I]].
  apply wp_bind, wp_log, wp_try_catch, wp_bind, wp_get_world.
  apply wp_bind, wp_emit, wp_bind, wp_lift.
  destruct (http_fetch env _ _ _ _) as [response|e] eqn:Hfetch.
  - apply wp_bind, wp_log. destruct (resp_ok response) eqn:Hresp; cbn [negb].
    + apply wp_ret, wp_ret. split; [extends_solve|].
      split; [apply api_outcome_explained|].
      unfold api_outcome.
      destruct (i_success (interpretNwcliPaymentResponse (Number_of_string env)
                             (resp_data response))) eqn:Hsuccess;
        [|intros H; discriminate H].
      intros _. apply succeeded_push; [reflexivity|].
      apply succeeded_call.
      * course_solve.
      * rewrite (is_pay_call_http _ _ _ _ _ _ Hbase).
        destruct Hpath as [-> | ->]; reflexivity.
      * cbn [call_pays]. rewrite Hfetch, Hresp, Hsuccess. reflexivity.
    + apply wp_throw, wp_bind, wp_log, wp_throw. split; [extends_solve|exact I].
  - apply wp_bind, wp_log, wp_throw. split; [extends_solve|exact I].
Qed.
Lemma succeeded_from (env : Env) (w0 w1 w' : World) :
  on_course env w0 w1 -> succeeded env w1 w' -> succeeded env w0 w'.
Proof.
  intros (evs1 & Ht1 & Hok1 & Hpay1)
         (evs2 & Ht2 & Hok2 & before & call & after & -> & Hcall & Hpays).
  exists (evs1 ++ before ++ call :: after)%list.
  split; [rewrite Ht2, Ht1, <- app_assoc; reflexivity|]. split.
  - rewrite calls_ok_app, Hok1, <- Ht1. exact Hok2.
  - exists (evs1 ++ before)%list, call, after.
    split; [rewrite <- app_assoc; reflexivity|]. split; [exact Hcall|].
    rewrite app_assoc, <- Ht1. exact Hpays.
Qed.

(** C10, as stated, fails: the HTTP requests of the ledger refresh and of
    the balance fetch throw inside [makePayment], and the outcome is a
    success, not [{success: false, error}]. *)
Lemma refresh_exception_is_not_the_outcome :
  let env := sample_env no_vars http_only_pays lnurl_down decode_fails pay_down in
  let run := makePayment env pay_invoice_for_alice world_alice_api in
  (forall w, fst (nwcliRefreshLedger env "beacon-alice" w) = Raise (new_Error "fetch failed"))
  /\ trace (snd run) !! 3%nat
     = Some (EvHttp "POST" "http://127.0.0.1/api/refreshLedger" None
               (JObj [("nickname", JStr "beacon-alice")]))
  /\ fst run
     = Ok {| pr_success := true; pr_receipt := Some (JStr hex64_sample);
             pr_error := None |}.
Proof.
  cbv zeta. split; [intros w; reflexivity|].
  split; vm_compute; reflexivity.
Qed.

(** C10, amended.  For every pending payment whose wallet resolves,
    [makePayment] returns a result and never throws, and a result that is
    a failure carries a non-empty error string.  Of the events the call
    adds to the trace: whenever a remote call of the payment path (a fetch
    of the LNURL exchange, the nwc [payInvoice] call, or the HTTP
    [payInvoice]/[payLnAddress] request) throws, the result is a failure;
    so it is when the nwc session cannot be set up; and a result is a
    success only if one of these events is the payment call and that call
    returned a success.  An exception of the ledger refresh or of the
    balance fetch before an HTTP payment is caught as well, but it need
    not make the result a failure, as the example above shows. *)
Theorem makePayment_returns_an_outcome
    (env : Env) (details : PendingPayment) (wallet : WalletDetails) (w : World) :
  fst (loadWallet env (p_npub details) (push_events [makePayment_log details] w))
  = Ok (Some wallet) ->
  exists result events,
    fst (makePayment env details w) = Ok result
    /\ trace (snd (makePayment env details w)) = (trace w ++ events)%list
    /\ (pr_success result = false ->
        exists error, pr_error result = Some error /\ str_truthy error = true)
    /\ (forall before call after,
          events = (before ++ call :: after)%list ->
          on_payment_path env call = true ->
          call_throws env (trace w ++ before) call = true ->
          pr_success result = false)
    /\ (wd_type wallet = nwc ->
        nwc_connect env (default "" (wd_nwcUri wallet)) <> None ->
        pr_success result = false)
    /\ (pr_success result = true ->
        exists before call after,
          events = (before ++ call :: after)%list
          /\ is_pay_call env call = true
          /\ call_pays env (trace w ++ before) call = true).
Proof.
  intros Hload.
  set (connected := wd_type wallet = nwc ->
                    nwc_connect env (default "" (wd_nwcUri wallet)) = None).
  enough (Hwp : wp (makePayment env details)
                  (fun r w' =>
                     exists result,
                       r = Ok result
                       /\ explained result
                       /\ extends any_event w w'
                       /\ (pr_success result = true -> succeeded env w w' /\ connected))
                  w).
  { destruct Hwp as (result & Hresult & Hexplained & (events & Htrace & _) & Hsuccess).
    exists result, events. split; [exact Hresult|]. split; [exact Htrace|].
    split; [exact Hexplained|].
    assert (Hsucceeded : pr_success result = true ->
              calls_ok env (trace w) events = true
              /\ exists before call after,
                   events = (before ++ call :: after)%list
                   /\ is_pay_call env call = true
                   /\ call_pays env (trace w ++ before) call = true).
    { intros H. destruct (Hsuccess H) as [(evs & Hevs & Hok & Hpaid) _].
      rewrite Htrace in Hevs. apply app_inv_head in Hevs. subst evs. auto. }
    split; [|split].
    - intros before call after Hevents Hpath Hthrows.
      destruct (pr_success result); [|reflexivity].
      destruct (Hsucceeded eq_refl) as [Hok _].
      rewrite (calls_ok_spec _ _ _ _ _ _ Hok Hevents Hpath) in Hthrows.
      discriminate Hthrows.
    - intros Htype Hconnect. destruct (pr_success result); [|reflexivity].
      destruct (Hsuccess eq_refl) as [_ Hconnected]. elim Hconnect. apply Hconnected, Htype.
    - intros H. apply Hsucceeded, H. }
  assert (Hfails : forall error w',
             str_truthy error = true -> extends any_event w w' ->
             exists result,
               Ok (failure error) = Ok result
               /\ explained result
               /\ extends any_event w w'
               /\ (pr_success result = true -> succeeded env w w' /\ connected)).
  { intros error w' Herror Hext. exists (failure error).
    split; [reflexivity|]. split; [apply failure_explained, Herror|].
    split; [exact Hext|]. intros H. discriminate H. }
  unfold makePayment. apply wp_bind, wp_log, wp_bind.
  eapply wp_fst_snd; [exact Hload|apply loadWallet_world|]. cbv beta iota.
  match goal with |- wp _ _ ?W => set (w1 := W) end.
  assert (Hcourse : on_course env w w1) by (subst w1; course_solve).
  clearbody w1.
  destruct (wd_type wallet) eqn:Htype.
  - match goal with |- wp (if ?c then _ else _) _ _ => destruct c end.
    { apply wp_ret, Hfails; [reflexivity|apply (on_course_extends env), Hcourse]. }
    assert (Hhandler : forall e w',
               extends any_event w w' ->
               wp (logWalletError "[WalletManager] makePayment failed" e ;;;
                   ret (failure (message_or e "An unknown error occurred.")))
                  (fun r w' =>
                     exists result,
                       r = Ok result
                       /\ explained result
                       /\ extends any_event w w'
                       /\ (pr_success result = true -> succeeded env w w' /\ connected))
                  w').
    { intros e w' Hext. apply wp_bind, wp_log, wp_ret, Hfails.
      - apply message_or_truthy. reflexivity.
      - extends_solve. }
    apply wp_try_catch, wp_bind. unfold nwc_client.
    destruct (nwc_connect env _) as [e|] eqn:Hconnect;
      [apply wp_throw, Hhandler, (on_course_extends env), Hcourse|].
    apply wp_ret.
    assert (Hpay : forall client invoice w2,
               on_course env w w2 ->
               wp (nwc_pay env client invoice)
                  (fun r w' =>
                     match r with
                     | Ok a =>
                         exists result,
                           Ok a = Ok result
                           /\ explained result
                           /\ extends any_event w w'
                           /\ (pr_success result = true -> succeeded env w w' /\ connected)
                     | Raise e0 =>
                         wp (logWalletError "[WalletManager] makePayment failed" e0 ;;;
                             ret (failure (message_or e0 "An unknown error occurred.")))
                            (fun r w' =>
                               exists result,
                                 r = Ok result
                                 /\ explained result
                                 /\ extends any_event w w'
                                 /\ (pr_success result = true
                                     -> succeeded env w w' /\ connected))
                            w'
                     end) w2).
    { intros client invoice w2 Hw2. eapply wp_mono; [apply (nwc_pay_spec env _ _ w), Hw2|].
      cbv beta. intros [a|e] w' [Hext H].
      - destruct H as [Hexplained Hsucceeded]. exists a.
        split; [reflexivity|]. split; [exact Hexplained|].
        split; [eapply extends_trans; [apply (on_course_extends env), Hw2|exact Hext]|].
        intros Ha. split; [apply Hsucceeded, Ha|]. intros _. reflexivity.
      - apply Hhandler.
        eapply extends_trans; [apply (on_course_extends env), Hw2|exact Hext]. }
    match goal with |- wp (if ?c then _ else _) _ _ => destruct c end;
      [|apply Hpay, Hcourse].
    match goal with |- wp (if ?c then _ else _) _ _ => destruct c end.
    { apply wp_ret, Hfails; [reflexivity|apply (on_course_extends env), Hcourse]. }
    apply wp_bind.
    eapply wp_mono; [apply (getInvoiceFromLnAddress_course env _ _ w), Hcourse|].
    cbv beta. intros [invoice|e] w2 [Hext Hw2].
    + apply Hpay, Hw2.
    + apply Hhandler.
      eapply extends_trans; [apply (on_course_extends env), Hcourse|exact Hext].
  - match goal with |- wp (if ?c then _ else _) _ _ => destruct c end.
    { apply wp_ret, Hfails; [reflexivity|apply (on_course_extends env), Hcourse]. }
    apply wp_bind.
    eapply wp_mono; [apply refresh_course|].
    cbv beta. intros r w2 [-> Hw2]. apply (on_course_trans _ _ _ _ Hcourse) in Hw2.
    clear Hcourse. clear dependent w1.
    apply wp_bind.
    eapply wp_mono; [apply balance_course|].
    cbv beta. intros r w3 [[snapshot ->] Hw3]. apply (on_course_trans _ _ _ _ Hw2) in Hw3.
    clear Hw2. clear dependent w2.
    apply wp_bind.
    eapply wp_mono; [apply decode_course|].
    cbv beta. intros r w4 [[invoiceMsats ->] Hw4]. apply (on_course_trans _ _ _ _ Hw3) in Hw4.
    clear Hw3. clear dependent w3.
    assert (Hhandler : forall requestMsats e w',
               extends any_event w w' ->
               wp (logWalletError "[WalletManager] makePayment failed" e ;;;
                   ret (failure (appendBalanceContext snapshot
                                   (default "An unknown error occurred."
                                            (if_found (extractMessageFromError e)))
                                   requestMsats)))
                  (fun r w' =>
                     exists result,
                       r = Ok result
                       /\ explained result
                       /\ extends any_event w w'
                       /\ (pr_success result = true -> succeeded env w w' /\ connected))
                  w').
    { intros requestMsats e w' Hext. apply wp_bind, wp_log, wp_ret, Hfails.
      - apply appendBalanceContext_truthy, default_if_found_truthy. reflexivity.
      - extends_solve. }
    assert (Hpay : forall path body requestMsats,
               path = "/api/payLnAddress" \/ path = "/api/payInvoice" ->
               wp (try_catch
                     (let* response := request env path (Some "POST") body in
                      ret (api_outcome env snapshot response requestMsats))
                     (fun error =>
                        logWalletError "[WalletManager] makePayment failed" error ;;;
                        ret (failure (appendBalanceContext snapshot
                                        (default "An unknown error occurred."
                                                 (if_found (extractMessageFromError error)))
                                        (if String.eqb (p_type details) "ln_address"
                                         then (if String.eqb (p_type details) "ln_address"
                                                  && amount_truthy (p_amount details)
                                               then Some (num_scale
                                                            (default NaN (p_amount details))
                                                            1000)
                                               else None)
                                         else invoiceMsats)))))
                  (fun r w' =>
                     exists result,
                       r = Ok result
                       /\ explained result
                       /\ extends any_event w w'
                       /\ (pr_success result = true -> succeeded env w w' /\ connected))
                  w4).
    { intros path body requestMsats Hpath. apply wp_try_catch.
      eapply wp_mono; [apply (api_pay_spec env _ _ _ _ w), Hw4; exact Hpath|].
      cbv beta. intros [a|e] w' [Hext H].
      - destruct H as [Hexplained Hsucceeded]. exists a.
        split; [reflexivity|]. split; [exact Hexplained|].
        split; [eapply extends_trans; [apply (on_course_extends env), Hw4|exact Hext]|].
        intros Ha. split; [apply Hsucceeded, Ha|]. intros H. discriminate H.
      - apply Hhandler.
        eapply extends_trans; [apply (on_course_extends env), Hw4|exact Hext]. }
    destruct (String.eqb (p_type details) "ln_address") eqn:Hln.
    + match goal with
      | |- wp (try_catch (if ?c then _ else _) _) _ _ => destruct c
      end.
      { apply wp_try_catch, wp_ret, Hfails;
          [reflexivity|apply (on_course_extends env), Hw4]. }
      apply Hpay. left. reflexivity.
    + match goal with
      | |- wp (try_catch (if ?c then _ else _) _) _ _ => destruct c
      end.
      { apply wp_try_catch, wp_ret, Hfails;
          [reflexivity|apply (on_course_extends env), Hw4]. }
      apply Hpay. right. reflexivity.
Qed.

Lemma makePayment_returns_an_outcome_witness :
  let env := sample_env shared_vars http_down lnurl_down decode_fails pay_settles in
  let run := makePayment env pay_invoice_for_alice empty_world in
  exists result events,
    fst run = Ok result
    /\ trace (snd run) = events
    /\ (pr_success result = false ->
        exists error, pr_error result = Some error /\ str_truthy error = true)
    /\ (forall before call after,
          events = (before ++ call :: after)%list ->
          on_payment_path env call = true ->
          call_throws env before call = true ->
          pr_success result = false)
    /\ (nwc_connect env "nostr+walletconnect://shared" <> None ->
        pr_success result = false)
    /\ (pr_success result = true ->
        exists before call after,
          events = (before ++ call :: after)%list
          /\ is_pay_call env call = true
          /\ call_pays env before call = true).
Proof.
  intros env run.
  destruct (makePayment_returns_an_outcome env pay_invoice_for_alice
              {| wd_type := nwc; wd_npub := "npub1alice";
                 wd_nwcUri := Some "nostr+walletconnect://shared"; wd_lnAddress := None;
                 wd_apiIdentifier := None; wd_apiSubAccountId := None;
                 wd_apiLabel := None |} empty_world)
    as (result & events & Hresult & Htrace & Hexplained & Hthrows & Hsession & Hpaid).
  - reflexivity.
  - exists result, events. split; [exact Hresult|]. split; [exact Htrace|].
    split; [exact Hexplained|]. split; [exact Hthrows|].
    split; [exact (Hsession eq_refl)|exact Hpaid].
Defined.

(** the invoice is paid through the shared relay wallet: the payment call
    is the last event of the trace and its preimage is the receipt *)
Example invoice_paid_by_relay_wallet :
  let env := sample_env shared_vars http_down lnurl_down decode_fails pay_settles in
  let run := makePayment env pay_invoice_for_alice empty_world in
  fst run
  = Ok {| pr_success := true; pr_receipt := Some (JStr hex64_sample); pr_error := None |}
  /\ trace (snd run)
     = [EvLog "[WalletManager] Processing payment for npub npub1alice:";
        EvDb "SELECT ... FROM user_wallets WHERE user_npub = ?";
        EvNwcPayInvoice "nostr+walletconnect://shared" (JStr "lnbc10u1sample")].
Proof. vm_compute. split; reflexivity. Qed.

(** the LNURL service is unreachable: the exception becomes the error of
    the outcome *)
Example lnurl_exception_becomes_failure :
  fst (makePayment (sample_env shared_vars http_down lnurl_down decode_fails pay_down)
         pay_bob_one_sat empty_world)
  = Ok {| pr_success := false; pr_receipt := None; pr_error := Some "fetch failed" |}.
Proof. vm_compute. reflexivity. Qed.

(** * Further properties of the code *)

(** ** Response normalizer: what the extractors return *)

Lemma trim_truthy (s : string) : str_truthy (trim s) = true -> str_truthy s = true.
Proof. destruct s; [discriminate|reflexivity]. Qed.

Lemma with_field_Some {B : Type} (key : string) (f : JsValue -> option B)
    (fields : list (string * JsValue)) (y : B) :
  with_field key f fields = Some y ->
  exists kv, In kv fields /\ fst kv = key /\ f (snd kv) = Some y.
Proof.
  induction fields as [|kv rest IH]; simpl; [discriminate|].
  destruct (String.eqb (fst kv) key) eqn:Hkey.
  - intros H. exists kv. apply String.eqb_eq in Hkey. auto.
  - intros H. destruct (IH H) as (kv' & Hin & Hk & Hf). exists kv'. auto.
Qed.

(** X1.  Whatever the response, an error message extracted from it is not
    the empty string. *)
Theorem extractErrorMessage_not_empty (response : JsValue) (message : string) :
  extractErrorMessage response = Some message -> str_truthy message = true.
Proof.
  revert message.
  induction response as [| |b|n|s|items IH|fields IH] using JsValue_ind;
    intros message; cbn [extractErrorMessage]; try discriminate.
  - cbv zeta. destruct (str_truthy (trim s)) eqn:Ht; [|discriminate].
    intros [= <-]. exact Ht.
  - intros H. apply first_result_Some in H as (x & _ & Hx).
    destruct (typeof x); try discriminate.
    apply if_found_Some in Hx. tauto.
  - match goal with
    | |- match ?direct with _ => _ end = _ -> _ => destruct direct as [m|] eqn:Hdirect
    end.
    + intros [= <-]. apply first_result_Some in Hdirect as (key & _ & Hkey).
      destruct (field key fields); try discriminate.
      destruct (str_truthy (trim s)) eqn:Ht; [|discriminate].
      injection Hkey as <-. apply trim_truthy, Ht.
    + cbv zeta. match goal with |- (if ?c then _ else _) = _ -> _ => destruct c end.
      * intros [= <-]. reflexivity.
      * intros H. apply first_result_Some in H as (kv & _ & Hkv).
        destruct (typeof (snd kv)); try discriminate.
        apply if_found_Some in Hkv. tauto.
Qed.

Lemma extractErrorMessage_not_empty_witness :
  str_truthy "insufficient funds" = true.
Proof.
  apply (extractErrorMessage_not_empty
           (JObj [("code", JNum (Fin 402));
                  ("data", JObj [("reason", JStr "insufficient funds")])])).
  reflexivity.
Defined.

Lemma as_invoice_Some (value : JsValue) (s : string) :
  as_invoice value = Some s -> looksLikeInvoice (JStr s) = true.
Proof.
  destruct value; simpl; try discriminate.
  match goal with |- (if ?c then _ else _) = _ -> _ => destruct c eqn:Hc end;
    [|discriminate].
  intros [= <-]. exact Hc.
Qed.

Lemma extractInvoiceFromResponse_sound (response : JsValue) (invoice : string) :
  extractInvoiceFromResponse response = Some invoice ->
  looksLikeInvoice (JStr invoice) = true.
Proof.
  revert invoice.
  induction response as [| |b|n|s|items IH|fields IH] using JsValue_ind;
    intros invoice; try discriminate.
  - apply as_invoice_Some.
  - cbn [extractInvoiceFromResponse]. intros H.
    apply first_result_Some in H as (x & Hin & Hx).
    destruct (as_invoice x) as [inv|] eqn:Hinv.
    + injection Hx as <-. eapply as_invoice_Some, Hinv.
    + destruct (typeof x); try discriminate.
      apply if_found_Some in Hx as [Hx _].
      rewrite List.Forall_forall in IH. exact (IH x Hin invoice Hx).
  - cbn [extractInvoiceFromResponse].
    match goal with
    | |- match ?direct with _ => _ end = _ -> _ => destruct direct as [inv|] eqn:Hdirect
    end.
    + intros [= <-]. apply first_result_Some in Hdirect as (key & _ & Hkey).
      eapply as_invoice_Some, Hkey.
    + intros H. apply first_result_Some in H as (kv & Hin & Hkv).
      destruct (as_invoice (snd kv)) as [inv|] eqn:Hinv.
      * injection Hkv as <-. eapply as_invoice_Some, Hinv.
      * destruct (typeof (snd kv)); try discriminate.
        apply if_found_Some in Hkv as [Hkv _].
        rewrite List.Forall_forall in IH. exact (IH kv Hin invoice Hkv).
Qed.

(** X2.  Whatever the response, a string extracted from it as the invoice
    starts with "ln" in any letter case and is longer than 10
    characters. *)
Theorem extractInvoiceFromResponse_looks_like_invoice (response : JsValue) (invoice : string) :
  extractInvoiceFromResponse response = Some invoice ->
  startsWith (toLowerCase invoice) "ln" = true
  /\ (10 < String.length invoice)%nat.
Proof.
  intros H. apply extractInvoiceFromResponse_sound in H. simpl in H.
  apply andb_prop in H as [H1 H2].
  split; [exact H1|]. apply Nat.ltb_lt. exact H2.
Qed.

Lemma extractInvoiceFromResponse_looks_like_invoice_witness :
  startsWith (toLowerCase "LNBC10u1sample") "ln" = true
  /\ (10 < String.length "LNBC10u1sample")%nat.
Proof.
  apply (extractInvoiceFromResponse_looks_like_invoice
           (JObj [("data", JArr [JNum (Fin 1); JObj [("pr", JStr "LNBC10u1sample")]])])).
  reflexivity.
Defined.


Lemma extractMsats_strong (Number_of_string : string -> number) (value : JsValue) :
  (forall n, extractMsats Number_of_string value = Some n -> isNaN n = false)
  /\ (forall entries, value = JArr entries ->
      forall entry n, In entry entries ->
                      extractMsats Number_of_string entry = Some n -> isNaN n = false).
Proof.
  induction value as [| |b|n0|s|items IH|fields IH] using JsValue_ind;
    (split; [|try discriminate]); cbn [extractMsats]; try discriminate.
  - destruct n0; simpl; try discriminate. intros n [= <-]. reflexivity.
  - cbv zeta. destruct (isNaN (Number_of_string s)) eqn:Hnan; simpl; [discriminate|].
    intros n [= <-]. exact Hnan.
  - intros entries [= <-] entry n Hin. rewrite List.Forall_forall in IH.
    apply (IH entry Hin).
  - rewrite List.Forall_forall in IH. intros n.
    assert (Hfield : forall key, with_field key (extractMsats Number_of_string) fields = Some n ->
                                 isNaN n = false).
    { intros key H. apply with_field_Some in H as (kv & Hin & _ & Hkv).
      apply (IH kv Hin). exact Hkv. }
    match goal with
    | |- match ?direct with _ => _ end = _ -> _ => destruct direct as [m|] eqn:Hdirect
    end.
    { intros [= <-]. apply first_result_Some in Hdirect as (key & _ & Hkey).
      eapply Hfield, Hkey. }
    match goal with
    | |- match ?nested with _ => _ end = _ -> _ => destruct nested as [m|] eqn:Hnested
    end.
    { intros [= <-]. apply first_result_Some in Hnested as (key & _ & Hkey).
      eapply Hfield, Hkey. }
    intros H. apply with_field_Some in H as (kv & Hin & _ & Hkv).
    destruct (snd kv) as [| | | | |entries|] eqn:Hbalances; try discriminate.
    apply first_result_Some in Hkv as (entry & Hentry & He).
    destruct (IH kv Hin) as [_ Harr]. rewrite Hbalances in Harr.
    exact (Harr entries eq_refl entry n Hentry He).
Qed.

Lemma extractPendingMsats_strong (Number_of_string : string -> number) (value : JsValue) :
  (forall n, extractPendingMsats Number_of_string value = Some n -> isNaN n = false)
  /\ (forall entries, value = JArr entries ->
      forall entry n, In entry entries ->
                      extractPendingMsats Number_of_string entry = Some n ->
                      isNaN n = false).
Proof.
  induction value as [| |b|n0|s|items IH|fields IH] using JsValue_ind;
    (split; [|try discriminate]); cbn [extractPendingMsats]; try discriminate.
  - destruct n0; simpl; try discriminate. intros n [= <-]. reflexivity.
  - cbv zeta. destruct (isNaN (Number_of_string s)) eqn:Hnan; simpl; [discriminate|].
    intros n [= <-]. exact Hnan.
  - intros entries [= <-] entry n Hin. rewrite List.Forall_forall in IH.
    apply (IH entry Hin).
  - rewrite List.Forall_forall in IH. intros n.
    assert (Hfield : forall key,
               with_field key (extractPendingMsats Number_of_string) fields = Some n ->
               isNaN n = false).
    { intros key H. apply with_field_Some in H as (kv & Hin & _ & Hkv).
      apply (IH kv Hin). exact Hkv. }
    match goal with
    | |- match ?direct with _ => _ end = _ -> _ => destruct direct as [m|] eqn:Hdirect
    end.
    { intros [= <-]. apply first_result_Some in Hdirect as (key & _ & Hkey).
      eapply Hfield, Hkey. }
    match goal with
    | |- match ?nested with _ => _ end = _ -> _ => destruct nested as [m|] eqn:Hnested
    end.
    { intros [= <-]. apply first_result_Some in Hnested as (key & _ & Hkey).
      eapply Hfield, Hkey. }
    intros H. apply with_field_Some in H as (kv & Hin & _ & Hkv).
    destruct (snd kv) as [| | | | |entries|] eqn:Hpending; try discriminate.
    apply first_result_Some in Hkv as (entry & Hentry & He).
    destruct (IH kv Hin) as [_ Harr]. rewrite Hpending in Harr.
    exact (Harr entries eq_refl entry n Hentry He).
Qed.

(** X3.  Whatever the response and whatever the host's number parser, an
    amount extracted as the balance or as the pending amount is never
    NaN; a JSON number is only accepted when it is finite. *)
Theorem extracted_amounts_are_numbers (Number_of_string : string -> number) :
  (forall response n,
      extractMsats Number_of_string response = Some n -> isNaN n = false)
  /\ (forall response n,
        extractPendingMsats Number_of_string response = Some n -> isNaN n = false)
  /\ (forall n m, extractMsats Number_of_string (JNum n) = Some m ->
                  m = n /\ isFinite n = true).
Proof.
  split; [|split].
  - intros response. apply extractMsats_strong.
  - intros response. apply extractPendingMsats_strong.
  - intros n m. simpl. destruct (isFinite n) eqn:Hfin; [|discriminate].
    intros [= <-]. auto.
Qed.

Lemma extracted_amounts_are_numbers_witness :
  isNaN (Fin 21000) = false.
Proof.
  destruct (extracted_amounts_are_numbers (fun _ => NaN)) as (Hbalance & _ & _).
  apply (Hbalance (JObj [("data", JObj [("balances", JArr [JStr "n/a"; JNum (Fin 21000)])])])).
  reflexivity.
Defined.

(** X4.  [hasPayResult] holds exactly when some object of the tree, at any
    depth and also inside arrays, has a truthy [payResult] field; the
    separate look at [record.result.payResult] adds nothing. *)
Theorem hasPayResult_anywhere (value : JsValue) :
  hasPayResult value = any_object (fun fields => truthy (field "payResult" fields)) value.
Proof.
  induction value as [| |b|n|s|items IH|fields IH] using JsValue_ind;
    cbn [hasPayResult any_object]; try reflexivity.
  - rewrite List.Forall_forall in IH.
    induction items as [|x rest IHrest]; [reflexivity|]. simpl.
    rewrite (IH x) by (left; reflexivity). f_equal.
    apply IHrest. intros y Hy. apply IH. right. exact Hy.
  - rewrite List.Forall_forall in IH.
    assert (Hnested : existsb (fun kv => hasPayResult (snd kv)) fields
                      = existsb (fun kv => any_object (fun f => truthy (field "payResult" f))
                                             (snd kv)) fields).
    { clear -IH. induction fields as [|kv rest IHrest]; [reflexivity|]. simpl.
      rewrite (IH kv) by (left; reflexivity). f_equal.
      apply IHrest. intros y Hy. apply IH. right. exact Hy. }
    destruct (truthy (field "payResult" fields)); [reflexivity|].
    cbv zeta. cbn [orb].
    match goal with |- (if ?c then _ else _) = _ => destruct c eqn:Hresult end;
      [|exact Hnested].
    symmetry. apply existsb_exists.
    apply andb_prop in Hresult as [Hresult Hpay].
    apply andb_prop in Hresult as [Htruthy Hobject].
    assert (Hin : exists kv, In kv fields /\ snd kv = field "result" fields).
    { clear -Htruthy. induction fields as [|[k v] rest IHrest]; [discriminate|].
      simpl in *. destruct (String.eqb k "result").
      - exists (k, v). auto.
      - destruct (IHrest Htruthy) as (kv & Hin & Hkv). exists kv. auto. }
    destruct Hin as (kv & Hin & Hkv). exists kv. split; [exact Hin|].
    rewrite Hkv. destruct (field "result" fields); try discriminate.
    simpl in *. rewrite Hpay. reflexivity.
Qed.


Lemma field_In (key : string) (fields : list (string * JsValue)) :
  field key fields <> JUndefined ->
  exists kv, In kv fields /\ fst kv = key /\ snd kv = field key fields.
Proof.
  induction fields as [|[k v] rest IH]; simpl; [congruence|].
  destruct (String.eqb k key) eqn:Hk.
  - intros _. exists (k, v). apply String.eqb_eq in Hk. auto.
  - intros H. destruct (IH H) as (kv & Hin & Hkey & Hv). exists kv. auto.
Qed.

(** X5.  A verdict of [findSuccessFlag] is always backed by the response:
    the tree holds that boolean, or a string that is one of the words read
    as that verdict (in any letter case). *)
Theorem findSuccessFlag_is_backed (response : JsValue) (b : bool) :
  findSuccessFlag response = Some b ->
  any_bool b response = true \/ any_string (says b) response = true.
Proof.
  revert b.
  induction response as [| |b0|n|s|items IH|fields IH] using JsValue_ind;
    intros b; cbn [findSuccessFlag any_bool any_string]; try discriminate.
  - destruct b0; [|discriminate]. intros [= <-]. left. reflexivity.
  - intros H. right. unfold says. rewrite H. apply Bool.eqb_reflx.
  - intros H. apply first_result_Some in H as (x & Hin & Hx).
    rewrite List.Forall_forall in IH.
    destruct (IH x Hin b Hx) as [H|H]; [left|right];
      apply existsb_exists; exists x; auto.
  - rewrite List.Forall_forall in IH.
    assert (Hword : forall key word,
               field key fields = JStr word -> successOfString word = Some b ->
               existsb (fun kv => any_string (says b) (snd kv)) fields = true).
    { intros key word Hfield Hw.
      destruct (field_In key fields) as (kv & Hin & _ & Hkv); [congruence|].
      apply existsb_exists. exists kv. split; [exact Hin|].
      rewrite Hkv, Hfield. simpl. unfold says. rewrite Hw. apply Bool.eqb_reflx. }
    destruct (field "success" fields) as [| |b0| | | |] eqn:Hsuccess.
    3: { intros [= <-]. left.
         destruct (field_In "success" fields) as (kv & Hin & _ & Hkv); [congruence|].
         apply existsb_exists. exists kv. split; [exact Hin|].
         rewrite Hkv, Hsuccess. simpl. apply Bool.eqb_reflx. }
    all: destruct (field "status" fields) as [| | | |status| |] eqn:Hstatus;
      try (intros H; right; eapply Hword; eassumption).
    all: destruct (field "state" fields) as [| | | |state| |] eqn:Hstate;
      try (intros H; right; eapply Hword; eassumption).
    all: intros H; apply first_result_Some in H as (kv & Hin & Hkv);
      destruct (IH kv Hin b Hkv) as [H|H]; [left|right];
      apply existsb_exists; exists kv; auto.
Qed.

Lemma findSuccessFlag_is_backed_witness :
  any_bool false (JObj [("result", JObj [("state", JStr "FAILED")])]) = true
  \/ any_string (says false) (JObj [("result", JObj [("state", JStr "FAILED")])]) = true.
Proof.
  apply findSuccessFlag_is_backed. reflexivity.
Defined.

(** X6.  [buildBalanceInsight] yields no text exactly when the balance,
    the pending amount and the requested amount are all unknown. *)
Theorem buildBalanceInsight_none (balanceMsats pendingMsats requestMsats : option number) :
  buildBalanceInsight balanceMsats pendingMsats requestMsats = None
  <-> balanceMsats = None /\ pendingMsats = None /\ requestMsats = None.
Proof.
  split.
  - destruct balanceMsats, pendingMsats, requestMsats;
      cbv [buildBalanceInsight push_if app]; try discriminate. auto.
  - intros (-> & -> & ->). reflexivity.
Qed.

Lemma prefix_app (a b : string) : String.prefix a (a ++ b) = true.
Proof.
  induction a as [|c r IH]; simpl; [destruct b; reflexivity|].
  destruct (ascii_dec c c); [exact IH|congruence].
Qed.

Lemma prefix_refl (a : string) : String.prefix a a = true.
Proof.
  induction a as [|c r IH]; simpl; [reflexivity|].
  destruct (ascii_dec c c); [exact IH|congruence].
Qed.

(** X7.  The failure message enriched with the balance context starts
    with the original message, and is the original message when nothing is
    known of balance, pending amount and request. *)
Theorem appendBalanceContext_keeps_message
    (balanceSnapshot : option (option number * option number)) (message : string)
    (requestMsats : option number) :
  startsWith (appendBalanceContext balanceSnapshot message requestMsats) message = true
  /\ appendBalanceContext None message None = message.
Proof.
  split; [|reflexivity].
  unfold appendBalanceContext, startsWith.
  destruct (buildBalanceInsight _ _ _) as [i|]; [|apply prefix_refl].
  destruct (str_truthy i); [apply prefix_app|apply prefix_refl].
Qed.


(** ** Further properties of the wallet manager *)

Lemma loadWallet_spec (env : Env) (npub : string) (w : World) :
  wp (loadWallet env npub)
     (fun r w' =>
        state_of w' = state_of w
        /\ forall wallet, r = Ok (Some wallet) ->
             wd_npub wallet = npub
             /\ match wd_type wallet with
                | nwc =>
                    wd_apiIdentifier wallet = None
                    /\ exists nwcUri,
                         wd_nwcUri wallet = Some nwcUri
                         /\ ((user_wallets w !! npub = None
                              /\ nwcUri = trim (getEnv env "SHARED_NWC_STRING" "")
                              /\ str_truthy nwcUri = true)
                             \/ exists row,
                                  user_wallets w !! npub = Some row
                                  /\ decrypt env (js_String (encrypted_nwc_string row))
                                     = Ok nwcUri)
                | api =>
                    wd_nwcUri wallet = None
                    /\ opt_truthy (wd_apiIdentifier wallet) = true
                    /\ exists row,
                         user_wallets w !! npub = Some row
                         /\ wd_apiIdentifier wallet = Some (js_String (api_identifier row))
                end) w.
Proof.
  unfold loadWallet, db.
  wp_steps; world_simpl; (split; [reflexivity|]); intros wallet Hwallet;
    try discriminate; injection Hwallet as <-; cbn [wd_npub wd_type wd_nwcUri wd_apiIdentifier];
    (split; [reflexivity|]).
  all: world_simpl.
  all: repeat match goal with
              | H : context [push_events _ _] |- _ => cbn [user_wallets push_events] in H
              end.
  - split; [reflexivity|]. eexists. split; [reflexivity|]. right.
    eexists. split; [eassumption|].
    match goal with H : negb (str_truthy (if ?c then _ else _)) = false |- _ =>
      destruct c; [|discriminate H] end.
    assumption.
  - split; [reflexivity|].
    match goal with H : negb _ = false |- _ => apply negb_false_iff in H; rename H into Hid end.
    split; [exact Hid|].
    eexists. split; [eassumption|].
    unfold String_or_null in *. destruct (truthy (api_identifier _)); [reflexivity|discriminate].
  - split; [reflexivity|]. eexists. split; [reflexivity|]. left. auto.
Qed.

(** X8.  A wallet that [loadWallet] returns belongs to the user asked
    for, and is usable as what it claims to be: a generated wallet
    carries a non-empty identifier taken from the user's row and no
    credential; a wallet-connect wallet carries a credential, which is
    the shared string (non-empty, and only when the user has no row) or
    the decryption of the stored column.  Loading changes no table and
    no queue. *)
Theorem loadWallet_returns_usable_wallet
    (env : Env) (npub : string) (w : World) (wallet : WalletDetails) :
  fst (loadWallet env npub w) = Ok (Some wallet) ->
  state_of (snd (loadWallet env npub w)) = state_of w
  /\ wd_npub wallet = npub
  /\ match wd_type wallet with
     | nwc =>
         wd_apiIdentifier wallet = None
         /\ exists nwcUri,
              wd_nwcUri wallet = Some nwcUri
              /\ ((user_wallets w !! npub = None
                   /\ nwcUri = trim (getEnv env "SHARED_NWC_STRING" "")
                   /\ str_truthy nwcUri = true)
                  \/ exists row,
                       user_wallets w !! npub = Some row
                       /\ decrypt env (js_String (encrypted_nwc_string row)) = Ok nwcUri)
     | api =>
         wd_nwcUri wallet = None
         /\ opt_truthy (wd_apiIdentifier wallet) = true
         /\ exists row,
              user_wallets w !! npub = Some row
              /\ wd_apiIdentifier wallet = Some (js_String (api_identifier row))
     end.
Proof.
  intros H. destruct (wp_run _ _ _ (loadWallet_spec env npub w)) as [Hframe Hwallet].
  split; [exact Hframe|]. apply Hwallet, H.
Qed.

Lemma loadWallet_returns_usable_wallet_witness :
  exists row,
    user_wallets world_alice_api !! "npub1alice" = Some row
    /\ js_String (api_identifier row) = "beacon-alice".
Proof.
  destruct (loadWallet_returns_usable_wallet
              (sample_env no_vars http_down lnurl_down decode_fails pay_down)
              "npub1alice" world_alice_api
              {| wd_type := api; wd_npub := "npub1alice"; wd_nwcUri := None;
                 wd_lnAddress := None; wd_apiIdentifier := Some "beacon-alice";
                 wd_apiSubAccountId := Some "sub-1";
                 wd_apiLabel := Some "beacon-whatsapp-alice" |})
    as (_ & _ & _ & _ & row & Hrow & Hid).
  - vm_compute. reflexivity.
  - exists row. split; [exact Hrow|]. injection Hid as <-. reflexivity.
Defined.


(** X9.  [validateNwcString] never throws and writes nothing: its verdict
    is [true] exactly when the wallet-connect client can be built from
    the string and the balance request made right after the first log
    line is answered; it never asks the wallet to pay. *)
Theorem validateNwcString_verdict (env : Env) (nwcUri : string) (w : World) :
  state_of (snd (validateNwcString env nwcUri w)) = state_of w
  /\ pay_calls (snd (validateNwcString env nwcUri w)) = pay_calls w
  /\ exists valid,
       fst (validateNwcString env nwcUri w) = Ok valid
       /\ (valid = true <->
           nwc_connect env nwcUri = None
           /\ exists balance,
                nwc_getBalance env
                  (trace w ++ [EvLog "[WalletManager] Validating NWC URI..."])%list
                  nwcUri = Ok balance).
Proof.
  apply (wp_run (validateNwcString env nwcUri)
           (fun r w' => state_of w' = state_of w /\ pay_calls w' = pay_calls w
                        /\ exists valid, r = Ok valid /\ (valid = true <-> _))).
  unfold validateNwcString, nwc_client, client_getBalance.
  wp_steps; world_simpl;
    (split; [reflexivity|]);
    (split; [rewrite ?push_events_push; apply pay_calls_push; reflexivity|]);
    eexists; (split; [reflexivity|]).
  - split; [discriminate|]. intros [H _]. discriminate.
  - split; [intros _|reflexivity]. split; [reflexivity|].
    cbn [trace push_events] in *. eauto.
  - split; [discriminate|]. intros [_ [balance H]].
    cbn [trace push_events] in *. congruence.
Qed.


Lemma wp_bind_run {A B : Type} (c : M A) (k : A -> M B)
    (Q : Outcome B -> World -> Prop) (w : World) :
  match fst (c w) with
  | Ok a => wp (k a) Q (snd (c w))
  | Raise e => Q (Raise e) (snd (c w))
  end ->
  wp (bind c k) Q w.
Proof. unfold wp, bind. destruct (c w) as [[a|e] w']; simpl; auto. Qed.

Lemma loadWallet_frame (env : Env) (npub : string) (w : World) :
  state_of (snd (loadWallet env npub w)) = state_of w.
Proof. exact (proj1 (wp_run _ _ _ (loadWallet_spec env npub w))). Qed.

Lemma state_of_push (events : list Event) (w w0 : World) :
  state_of w = state_of w0 -> state_of (push_events events w) = state_of w0.
Proof. intros <-. reflexivity. Qed.

Ltac frame_solve :=
  repeat apply state_of_push; first [assumption | reflexivity].

(** X10.  [getBalance] only reads.  It throws only what [loadWallet]
    throws; every other failure comes back as a result that names a
    non-empty error and no balance, and a success carries a balance and
    no error. *)
Theorem getBalance_outcome (env : Env) (npub : string) (w : World) :
  state_of (snd (getBalance env npub w)) = state_of w
  /\ match fst (getBalance env npub w) with
     | Ok result =>
         if br_success result
         then (exists sats, br_balance result = Some sats) /\ br_error result = None
         else br_balance result = None
              /\ exists error, br_error result = Some error /\ str_truthy error = true
     | Raise e => fst (loadWallet env npub w) = Raise e
     end.
Proof.
  apply (wp_run (getBalance env npub)
           (fun r w' => state_of w' = state_of w /\ match r with Ok _ => _ | Raise _ => _ end)).
  unfold getBalance. apply wp_bind_run.
  pose proof (loadWallet_frame env npub w) as Hframe.
  destruct (fst (loadWallet env npub w)) as [wallet|e]; [|split; [exact Hframe|reflexivity]].
  set (w1 := snd (loadWallet env npub w)) in *. clearbody w1.
  unfold nwc_client, client_getBalance, nwcliFetchBalance, request.
  wp_go; world_simpl; (split; [frame_solve|]); cbn [br_success br_balance br_error balance_failure];
    try (split; [reflexivity|]); eauto using message_or_truthy.
Qed.


Lemma if_found_truthy (o : option string) (s : string) :
  if_found o = Some s -> o = Some s /\ str_truthy s = true.
Proof.
  destruct o as [t|]; simpl; [|discriminate].
  destruct (str_truthy t) eqn:Ht; [|discriminate]. intros [= <-]. auto.
Qed.

(** X11.  [createInvoice] only reads.  It throws only what [loadWallet]
    throws; every other failure comes back as a result that names a
    non-empty error and no invoice.  A success carries a non-empty
    invoice and no error, and unless the wallet is a wallet-connect
    wallet the invoice is a string that starts with "ln" in any letter
    case. *)
Theorem createInvoice_outcome (env : Env) (npub : string) (amountSats : number) (w : World) :
  state_of (snd (createInvoice env npub amountSats w)) = state_of w
  /\ match fst (createInvoice env npub amountSats w) with
     | Ok result =>
         if ir_success result
         then ir_error result = None
              /\ exists invoice,
                   ir_invoice result = Some invoice
                   /\ truthy invoice = true
                   /\ (looksLikeInvoice invoice = true
                       \/ exists wallet,
                            fst (loadWallet env npub w) = Ok (Some wallet)
                            /\ wd_type wallet = nwc)
         else ir_invoice result = None
              /\ exists error, ir_error result = Some error /\ str_truthy error = true
     | Raise e => fst (loadWallet env npub w) = Raise e
     end.
Proof.
  apply (wp_run (createInvoice env npub amountSats)
           (fun r w' => state_of w' = state_of w /\ match r with Ok _ => _ | Raise _ => _ end)).
  unfold createInvoice. apply wp_bind_run.
  pose proof (loadWallet_frame env npub w) as Hframe.
  destruct (fst (loadWallet env npub w)) as [wallet|e]; [|split; [exact Hframe|reflexivity]].
  set (w1 := snd (loadWallet env npub w)) in *. clearbody w1.
  unfold nwc_client, client_makeInvoice, nwcliCreateInvoice, request.
  wp_go; world_simpl; (split; [frame_solve|]);
    cbn [ir_success ir_invoice ir_error invoice_failure];
    try (split; [reflexivity|]);
    eauto 6 using message_or_truthy, default_if_found_truthy.
  - eexists. split; [reflexivity|]. split; [assumption|].
    right. eexists. split; [reflexivity|assumption].
  - match goal with
    | H : if_found (extractInvoiceFromResponse _) = Some _ |- _ =>
        apply if_found_truthy in H as [Hinv Htruthy];
        apply extractInvoiceFromResponse_sound in Hinv
    end.
    eexists. split; [reflexivity|]. split; [exact Htruthy|]. left. exact Hinv.
Qed.


Lemma of_opt_string_truthy (o : option string) :
  opt_truthy o = true -> truthy (of_opt_string o) = true.
Proof. destruct o; simpl; [auto|discriminate]. Qed.

(** X12.  [getLNAddress] only reads.  It throws only what [loadWallet]
    or the database throws; every other failure comes back as a result
    that names a non-empty error and no address, and a success carries a
    non-empty address and no error. *)
Theorem getLNAddress_outcome (env : Env) (npub : string) (w : World) :
  state_of (snd (getLNAddress env npub w)) = state_of w
  /\ match fst (getLNAddress env npub w) with
     | Ok result =>
         if lr_success result
         then lr_error result = None
              /\ exists lnAddress,
                   lr_lnAddress result = Some lnAddress /\ truthy lnAddress = true
         else lr_lnAddress result = None
              /\ exists error, lr_error result = Some error /\ str_truthy error = true
     | Raise e =>
         fst (loadWallet env npub w) = Raise e \/ exists tr, db_error env tr = Some e
     end.
Proof.
  apply (wp_run (getLNAddress env npub)
           (fun r w' => state_of w' = state_of w /\ match r with Ok _ => _ | Raise _ => _ end)).
  unfold getLNAddress. apply wp_bind_run.
  pose proof (loadWallet_frame env npub w) as Hframe.
  destruct (fst (loadWallet env npub w)) as [wallet|e];
    [|split; [exact Hframe|left; reflexivity]].
  set (w1 := snd (loadWallet env npub w)) in *. clearbody w1.
  unfold db.
  wp_go; world_simpl; (split; [frame_solve|]);
    cbn [lr_success lr_lnAddress lr_error lnaddress_failure lnaddress_found];
    try (split; [reflexivity|]);
    eauto using of_opt_string_truthy.
Qed.


Lemma includes_at_cons (c : ascii) (r : string) :
  includes (String c r) "@" = false -> c <> "@"%char /\ includes r "@" = false.
Proof.
  cbn [includes String.prefix]. intros H. apply orb_false_elim in H as [Hc Hr].
  split; [|exact Hr]. intros ->. destruct r; discriminate.
Qed.

Lemma cut_at_absent (s : string) :
  includes s "@" = false -> cut_at "@" s = (s, None).
Proof.
  induction s as [|c r IH]; [reflexivity|].
  intros H. apply includes_at_cons in H as [Hc Hr].
  cbn [cut_at]. apply Ascii.eqb_neq in Hc. rewrite Hc, (IH Hr). reflexivity.
Qed.

Lemma cut_at_found (name rest : string) :
  includes name "@" = false ->
  cut_at "@" (name ++ String "@" rest) = (name, Some rest).
Proof.
  induction name as [|c r IH]; [reflexivity|].
  intros H. apply includes_at_cons in H as [Hc Hr].
  simpl. apply Ascii.eqb_neq in Hc. rewrite Hc, (IH Hr). reflexivity.
Qed.

(** X13.  An address with no "@", with nothing before its first "@", or
    with nothing after its only "@" is rejected by
    [getInvoiceFromLnAddress] with "Invalid Lightning Address format."
    before anything is fetched: the first log line is all that
    happens. *)
Theorem malformed_ln_address_is_rejected
    (env : Env) (lnAddress : string) (amountSats : number) (w : World) :
  includes lnAddress "@" = false
  \/ startsWith lnAddress "@" = true
  \/ (exists name, includes name "@" = false /\ lnAddress = name ++ "@") ->
  getInvoiceFromLnAddress env lnAddress amountSats w
  = (Raise (new_Error "Invalid Lightning Address format."),
     push_events [EvLog ("[LNURL] Getting invoice for " ++ lnAddress)] w).
Proof.
  intros H. unfold getInvoiceFromLnAddress, split_name_domain.
  destruct H as [H|[H|(name & Hname & ->)]].
  - rewrite (cut_at_absent _ H). cbn [opt_truthy negb]. rewrite orb_true_r. reflexivity.
  - destruct lnAddress as [|c r]; [discriminate|].
    unfold startsWith in H. cbn [String.prefix] in H.
    destruct (ascii_dec "@" c) as [<-|]; [|discriminate].
    reflexivity.
  - rewrite (cut_at_found name "" Hname). cbn [cut_at fst opt_truthy str_truthy negb].
    rewrite orb_true_r. reflexivity.
Qed.

Lemma malformed_ln_address_is_rejected_witness :
  fst (getInvoiceFromLnAddress
         (sample_env no_vars http_down lnurl_overcharging decode_5000_sats pay_down)
         "bob.pay.example" (Fin 5000) empty_world)
  = Raise (new_Error "Invalid Lightning Address format.").
Proof.
  rewrite (malformed_ln_address_is_rejected
             (sample_env no_vars http_down lnurl_overcharging decode_5000_sats pay_down)
             "bob.pay.example" (Fin 5000) empty_world); [reflexivity|].
  left. reflexivity.
Defined.


(** ** Further properties of the worker *)

(** X14.  With no master wallet configured, choosing a generated wallet
    makes no request to the wallet service and writes no wallet: the
    handler returns normally, the user is told that the wallet could not
    be created, is put back to [awaiting_choice] and is sent the wallet
    question again. *)
Theorem generate_wallet_without_master_wallet
    (env : Env) (msg : BeaconMessage) (metaCtx : JsValue) (state : OnboardingStep)
    (w : World) :
  str_truthy (trim (getEnv env "NWCLI_MASTER_WALLET" "")) = false ->
  let run := handleGenerateWallet env msg metaCtx state w in
  let reply body :=
    {| out_to := source_from msg; out_body := body;
       out_gateway := source_gateway msg; out_ctx := metaCtx |} in
  fst run = Ok tt
  /\ user_wallets (snd run) = user_wallets w
  /\ onboardingState (snd run)
     = <[source_from msg := awaiting_choice (step_npub state)]> (onboardingState w)
  /\ identityOut (snd run)
     = (identityOut w
        ++ [reply "Sorry, I couldn't create a wallet right now. Let's try that again.";
            reply wallet_choice_prompt])%list
  /\ trace (snd run)
     = (trace w
        ++ [EvLog ("[identity] Creating API wallet for " ++ source_from msg
                     ++ " with label "
                     ++ generateSubAccountLabel (gw_type (source_gateway msg))
                          (source_from msg) (step_npub state));
            EvLog "[identity] Failed to generate API wallet"])%list.
Proof.
  intros Hmaster run reply. subst run.
  apply (wp_run (handleGenerateWallet env msg metaCtx state)
           (fun r w' =>
              r = Ok tt /\ user_wallets w' = user_wallets w
              /\ onboardingState w' = _ /\ identityOut w' = _ /\ trace w' = _)).
  unfold handleGenerateWallet, createSubAccount, getMasterWallet, set_state,
    promptWalletChoice, enqueueIdentityOut.
  rewrite Hmaster. cbn [negb].
  wp_steps. world_simpl. rewrite <- ?app_assoc. repeat split; reflexivity.
Qed.

Lemma generate_wallet_without_master_wallet_witness :
  let run :=
    handleGenerateWallet
      (sample_env no_vars http_subaccount_created lnurl_down decode_fails pay_down)
      (message_from_alice "2") JNull (awaiting_choice "npub1alice") world_alice_choosing in
  fst run = Ok tt /\ user_wallets (snd run) = user_wallets world_alice_choosing.
Proof.
  intros run.
  destruct (generate_wallet_without_master_wallet
              (sample_env no_vars http_subaccount_created lnurl_down decode_fails pay_down)
              (message_from_alice "2") JNull (awaiting_choice "npub1alice")
              world_alice_choosing) as (Hok & Hwallets & _).
  - reflexivity.
  - split; [exact Hok|exact Hwallets].
Defined.


(** ** Saving and loading wallets *)

Lemma saveApiWallet_strings (env : Env) (npub identifier subAccountId label : string)
    (w : World) :
  (forall tr, db_error env tr = None) ->
  wp (saveApiWallet env npub (JStr identifier) (JStr subAccountId) (JStr label))
     (fun r w' =>
        r = Ok tt
        /\ user_wallets w'
           = <[npub := api_row (JStr identifier) (JStr subAccountId) (JStr label)]>
               (user_wallets w)) w.
Proof.
  intros Hdb. unfold saveApiWallet, sql_bind.
  apply wp_try_catch, wp_bind, wp_db; [exact Hdb|].
  wp_steps. world_simpl. split; reflexivity.
Qed.

Lemma loadWallet_row (env : Env) (npub : string) (row : WalletRow) (w : World) :
  (forall tr, db_error env tr = None) ->
  user_wallets w !! npub = Some row ->
  fst (loadWallet env npub w)
  = fst (match user_wallets w !! npub with
         | Some row =>
             let walletType := toLowerCase (js_String (js_or (wallet_type row) (JStr ""))) in
             if String.eqb walletType "nwc" then
               let encrypted :=
                 if truthy (encrypted_nwc_string row)
                 then js_String (encrypted_nwc_string row) else "" in
               if negb (str_truthy encrypted) then ret None
               else
                 let* nwcUri := lift (decrypt env encrypted) in
                 ret (Some {| wd_type := nwc; wd_npub := npub; wd_nwcUri := Some nwcUri;
                              wd_lnAddress := String_or_null (ln_address row);
                              wd_apiIdentifier := None; wd_apiSubAccountId := None;
                              wd_apiLabel := None |})
             else if String.eqb walletType "api" then
               let identifier := String_or_null (api_identifier row) in
               if negb (opt_truthy identifier) then ret None
               else
                 ret (Some {| wd_type := api; wd_npub := npub; wd_nwcUri := None;
                              wd_lnAddress := String_or_null (ln_address row);
                              wd_apiIdentifier := identifier;
                              wd_apiSubAccountId := String_or_null (api_subaccount_id row);
                              wd_apiLabel := String_or_null (api_label row) |})
             else ret None
         | None => ret None
         end (push_events [EvDb "SELECT ... FROM user_wallets WHERE user_npub = ?"] w)).
Proof.
  intros Hdb Hrow. unfold loadWallet, bind at 1. rewrite db_ok by assumption.
  unfold bind at 1, get_world. cbn [user_wallets push_events]. rewrite Hrow. reflexivity.
Qed.

(** X15.  A generated wallet that is saved is the wallet that is loaded:
    when the database answers, after [saveApiWallet] with a non-empty
    identifier [loadWallet] returns a wallet of type api with that
    identifier, the sub-account id and the label (absent when empty), no
    credential and no Lightning Address, and [getLNAddress] answers that
    generated wallets have none. *)
Theorem saved_generated_wallet_is_loaded
    (env : Env) (npub identifier subAccountId label : string) (w : World) :
  (forall tr, db_error env tr = None) ->
  str_truthy identifier = true ->
  let saved :=
    snd (saveApiWallet env npub (JStr identifier) (JStr subAccountId) (JStr label) w) in
  fst (loadWallet env npub saved)
  = Ok (Some {| wd_type := api; wd_npub := npub; wd_nwcUri := None;
                wd_lnAddress := None; wd_apiIdentifier := Some identifier;
                wd_apiSubAccountId :=
                  if str_truthy subAccountId then Some subAccountId else None;
                wd_apiLabel := if str_truthy label then Some label else None |})
  /\ fst (getLNAddress env npub saved)
     = Ok (lnaddress_failure "Lightning Address not available for generated wallets.").
Proof.
  intros Hdb Hid saved.
  destruct (wp_run _ _ _ (saveApiWallet_strings env npub identifier subAccountId label w Hdb))
    as [_ Hsaved].
  fold saved in Hsaved.
  assert (Hrow : user_wallets saved !! npub
                 = Some (api_row (JStr identifier) (JStr subAccountId) (JStr label))).
  { rewrite Hsaved. apply lookup_insert_eq. }
  assert (Hload : fst (loadWallet env npub saved)
                  = Ok (Some {| wd_type := api; wd_npub := npub; wd_nwcUri := None;
                                wd_lnAddress := None; wd_apiIdentifier := Some identifier;
                                wd_apiSubAccountId :=
                                  if str_truthy subAccountId then Some subAccountId else None;
                                wd_apiLabel :=
                                  if str_truthy label then Some label else None |})).
  { rewrite (loadWallet_row env npub _ saved Hdb Hrow).
    cbn [user_wallets push_events]. rewrite Hrow.
    unfold api_row, String_or_null.
    cbn [wallet_type api_identifier api_subaccount_id api_label ln_address
         encrypted_nwc_string].
    change (toLowerCase (js_String (js_or (JStr "api") (JStr "")))) with "api".
    cbn. rewrite Hid. cbn. rewrite Hid. cbn.
    destruct (str_truthy subAccountId), (str_truthy label); reflexivity. }
  split; [exact Hload|].
  unfold getLNAddress, bind.
  destruct (loadWallet env npub saved) as [r w']. cbn [fst] in Hload. subst r.
  cbn. reflexivity.
Qed.

Lemma saved_generated_wallet_is_loaded_witness :
  fst (getLNAddress
         (sample_env no_vars http_down lnurl_down decode_fails pay_down) "npub1alice"
         (snd (saveApiWallet
                 (sample_env no_vars http_down lnurl_down decode_fails pay_down)
                 "npub1alice" (JStr "beacon-alice") (JStr "sub-1") (JStr "") empty_world)))
  = Ok (lnaddress_failure "Lightning Address not available for generated wallets.").
Proof.
  apply (saved_generated_wallet_is_loaded
           (sample_env no_vars http_down lnurl_down decode_fails pay_down)
           "npub1alice" "beacon-alice" "sub-1" "" empty_world); reflexivity.
Defined.

Lemma saveNwcWallet_saved (env : Env) (npub nwcString encrypted : string)
    (lnAddress : option string) (w : World) :
  (forall tr, db_error env tr = None) ->
  encrypt env nwcString = Ok encrypted ->
  wp (saveNwcWallet env npub nwcString lnAddress)
     (fun r w' =>
        r = Ok tt
        /\ state_of w'
           = state_of (upd_user_wallets
               (<[npub := {| wallet_type := JStr "nwc";
                             encrypted_nwc_string := JStr encrypted;
                             ln_address := if opt_truthy lnAddress
                                           then of_opt_string lnAddress else JNull;
                             api_identifier := JNull;
                             api_subaccount_id := JNull;
                             api_label := JNull |}]> (user_wallets w)) w)) w.
Proof.
  intros Hdb Henc. unfold saveNwcWallet.
  apply wp_try_catch, wp_bind, wp_db; [exact Hdb|].
  rewrite Henc. wp_steps. world_simpl. split; reflexivity.
Qed.

(** X16.  A wallet-connect string that is saved is the credential that
    is loaded: when the database answers and the stored text is not empty
    and decrypts to the string that was encrypted, after [saveNwcWallet]
    [loadWallet] returns a wallet of type nwc whose credential is that
    string and whose Lightning Address is the one given, absent when none
    or an empty one was given. *)
Theorem saved_nwc_wallet_is_loaded
    (env : Env) (npub nwcString encrypted : string) (lnAddress : option string)
    (w : World) :
  (forall tr, db_error env tr = None) ->
  encrypt env nwcString = Ok encrypted ->
  decrypt env encrypted = Ok nwcString ->
  str_truthy encrypted = true ->
  fst (loadWallet env npub (snd (saveNwcWallet env npub nwcString lnAddress w)))
  = Ok (Some {| wd_type := nwc; wd_npub := npub; wd_nwcUri := Some nwcString;
                wd_lnAddress := if opt_truthy lnAddress then lnAddress else None;
                wd_apiIdentifier := None; wd_apiSubAccountId := None;
                wd_apiLabel := None |}).
Proof.
  intros Hdb Henc Hdec Htruthy.
  destruct (wp_run _ _ _ (saveNwcWallet_saved env npub nwcString encrypted lnAddress w Hdb Henc))
    as [_ Hsaved].
  set (saved := snd (saveNwcWallet env npub nwcString lnAddress w)) in *.
  apply state_of_eq in Hsaved as (Hwallets & _).
  cbn [user_wallets upd_user_wallets] in Hwallets.
  pose proof (lookup_insert_eq (user_wallets w) npub) as Hrow.
  specialize (Hrow {| wallet_type := JStr "nwc";
                      encrypted_nwc_string := JStr encrypted;
                      ln_address := if opt_truthy lnAddress
                                    then of_opt_string lnAddress else JNull;
                      api_identifier := JNull;
                      api_subaccount_id := JNull;
                      api_label := JNull |}).
  rewrite <- Hwallets in Hrow.
  rewrite (loadWallet_row env npub _ saved Hdb Hrow).
  cbn [user_wallets push_events]. rewrite Hrow.
  cbn [wallet_type api_identifier api_subaccount_id api_label ln_address
       encrypted_nwc_string].
  change (toLowerCase (js_String (js_or (JStr "nwc") (JStr "")))) with "nwc".
  cbn. rewrite Htruthy. cbn. rewrite Htruthy. cbn. unfold bind, lift. rewrite Hdec. cbn.
  destruct lnAddress as [a|]; [|reflexivity].
  unfold String_or_null. cbn. destruct (str_truthy a) eqn:Ha; cbn; rewrite ?Ha; reflexivity.
Qed.

Lemma saved_nwc_wallet_is_loaded_witness :
  fst (loadWallet
         (sample_env no_vars http_down lnurl_down decode_fails pay_down) "npub1alice"
         (snd (saveNwcWallet
                 (sample_env no_vars http_down lnurl_down decode_fails pay_down)
                 "npub1alice" "nostr+walletconnect://alice" (Some "") empty_world)))
  = Ok (Some {| wd_type := nwc; wd_npub := "npub1alice";
                wd_nwcUri := Some "nostr+walletconnect://alice";
                wd_lnAddress := None;
                wd_apiIdentifier := None; wd_apiSubAccountId := None;
                wd_apiLabel := None |}).
Proof.
  apply (saved_nwc_wallet_is_loaded
           (sample_env no_vars http_down lnurl_down decode_fails pay_down)
           "npub1alice" "nostr+walletconnect://alice" "nostr+walletconnect://alice"
           (Some "") empty_world); reflexivity.
Defined.


Lemma wp_sql_bind (env : Env) (v : JsValue) (Q : Outcome JsValue -> World -> Prop)
    (w : World) :
  (forall r, Q r w) -> wp (sql_bind env v) Q w.
Proof. intros H. destruct v; apply H. Qed.

(** X17.  Saving a wallet never throws, whatever the database and the
    encryption do, and can change nothing but the row of the user: every
    other row of [user_wallets] and every other table and queue are as
    before.  When the database throws, the row of the user is as before
    too, and the caller is not told. *)
Theorem saving_a_wallet_never_throws
    (env : Env) (npub nwcString : string) (lnAddress : option string)
    (identifier subAccountId label : JsValue) (w : World) :
  let touches_only_the_row (run : Outcome unit * World) :=
    fst run = Ok tt
    /\ local_npub_map (snd run) = local_npub_map w
    /\ onboardingState (snd run) = onboardingState w
    /\ pendingStore (snd run) = pendingStore w
    /\ identityOut (snd run) = identityOut w
    /\ (forall other, other <> npub ->
          user_wallets (snd run) !! other = user_wallets w !! other)
    /\ (forall e, db_error env (trace w) = Some e ->
          user_wallets (snd run) = user_wallets w) in
  touches_only_the_row (saveNwcWallet env npub nwcString lnAddress w)
  /\ touches_only_the_row (saveApiWallet env npub identifier subAccountId label w).
Proof.
  intros touches. subst touches. cbv beta. split.
  - apply (wp_run (saveNwcWallet env npub nwcString lnAddress)
             (fun r w' => r = Ok tt /\ local_npub_map w' = _ /\ onboardingState w' = _
                          /\ pendingStore w' = _ /\ identityOut w' = _
                          /\ (forall other, other <> npub -> user_wallets w' !! other = _)
                          /\ (forall e, db_error env (trace w) = Some e -> user_wallets w' = _))).
    unfold saveNwcWallet, db. wp_steps; world_simpl; repeat split; auto; try congruence.
    intros other Hother. apply lookup_insert_ne. congruence.
  - apply (wp_run (saveApiWallet env npub identifier subAccountId label)
             (fun r w' => r = Ok tt /\ local_npub_map w' = _ /\ onboardingState w' = _
                          /\ pendingStore w' = _ /\ identityOut w' = _
                          /\ (forall other, other <> npub -> user_wallets w' !! other = _)
                          /\ (forall e, db_error env (trace w) = Some e -> user_wallets w' = _))).
    unfold saveApiWallet, db.
    repeat first [wp_step | apply wp_sql_bind; intros [?|?]];
      world_simpl; repeat split; auto; try congruence;
      intros other Hother; apply lookup_insert_ne; congruence.
Qed.

Lemma saving_a_wallet_never_throws_witness :
  fst (saveApiWallet (db_down (sample_env no_vars http_down lnurl_down decode_fails pay_down))
         "npub1bob" (JStr "beacon-bob") JUndefined JNull world_alice_api) = Ok tt
  /\ user_wallets
       (snd (saveApiWallet
               (db_down (sample_env no_vars http_down lnurl_down decode_fails pay_down))
               "npub1bob" (JStr "beacon-bob") JUndefined JNull world_alice_api))
     = user_wallets world_alice_api.
Proof.
  destruct (saving_a_wallet_never_throws
              (db_down (sample_env no_vars http_down lnurl_down decode_fails pay_down))
              "npub1bob" "" None (JStr "beacon-bob") JUndefined JNull world_alice_api)
    as [_ (Hok & _ & _ & _ & _ & _ & Hdown)].
  split; [exact Hok|]. apply (Hdown (new_Error "database is locked")). reflexivity.
Defined.

Lemma ensureBotId_total (env : Env) (ctx : JsValue) (gatewayType gatewayUser : string)
    (w : World) :
  exists res, fst (ensureBotId env ctx gatewayType gatewayUser w) = Ok res.
Proof. exact (proj1 (wp_run _ _ _ (ensureBotId_frame env ctx gatewayType gatewayUser w))). Qed.

(** X18.  Neither [handleOnboarding] nor the callback of
    [startIdentityWorker] ever throws: whatever the host, the database and
    the remote parties do, each returns normally. *)
Theorem worker_never_throws (env : Env) (msg : BeaconMessage) (messageText : string)
    (w : World) :
  fst (handleOnboarding env msg messageText w) = Ok tt
  /\ fst (startIdentityWorker env msg w) = Ok tt.
Proof.
  split.
  - apply (wp_run (handleOnboarding env msg messageText) (fun r _ => r = Ok tt)).
    unfold handleOnboarding. apply wp_bind, wp_log, wp_bind.
    match goal with
    | |- wp ?c _ ?w0 =>
        assert (Hensured : exists res, fst (c w0) = Ok res)
    end.
    { match goal with |- context [if ?c then _ else _] => destruct c end;
        [eexists; reflexivity|apply ensureBotId_total]. }
    destruct Hensured as [res Hres]. unfold wp at 1. rewrite Hres.
    unfold wp, try_catch.
    match goal with |- context [match ?body ?w0 with _ => _ end] =>
      destruct (body w0) as [[[]|e] w'] end; reflexivity.
  - unfold startIdentityWorker, try_catch.
    match goal with |- context [match ?body ?w0 with _ => _ end] =>
      destruct (body w0) as [[[]|e] w'] end; reflexivity.
Qed.


(** ** Onboarding, step by step *)

Lemma ensured_frame (env : Env) (fromCtx : bool) (given : option string * JsValue)
    (ctx : JsValue) (gatewayType gatewayUser : string) (w : World) :
  wp (if fromCtx then ret given else ensureBotId env ctx gatewayType gatewayUser)
     (fun r w' => (exists res, r = Ok res) /\ state_of w' = state_of w) w.
Proof.
  destruct fromCtx; [|apply ensureBotId_frame].
  apply wp_ret. split; [eexists; reflexivity|reflexivity].
Qed.

Ltac wp_start c w :=
  pattern (fst (c w)), (snd (c w)); apply (wp_run c _ w).

Ltac wp_onboarding_enter :=
  unfold handleOnboarding; apply wp_bind, wp_log, wp_bind;
  eapply wp_mono; [apply ensured_frame|];
  cbv beta; intros ? ? [[? ->] Hframe];
  apply state_of_eq in Hframe as (Hwallets & Hmap & Honb & Hpend & Hout);
  cbn [user_wallets local_npub_map onboardingState pendingStore identityOut push_events]
    in Hwallets, Hmap, Honb, Hpend, Hout;
  apply wp_try_catch, wp_bind, wp_get_world.

(** X19.  First contact.  When the database answers and the signer
    yields a non-empty npub, a message from a user with no onboarding
    state creates the user: the mapping of the gateway user to that npub is
    stored, the state of the user becomes [awaiting_choice] and the wallet
    question is the one message sent.  No wallet is written. *)
Theorem first_contact_starts_onboarding
    (env : Env) (msg : BeaconMessage) (messageText npub : string) (w : World) :
  (forall tr, db_error env tr = None) ->
  (forall tr, new_signer_npub env tr = Ok npub) ->
  str_truthy npub = true ->
  onboardingState w !! source_from msg = None ->
  let run := handleOnboarding env msg messageText w in
  fst run = Ok tt
  /\ onboardingState (snd run)
     = <[source_from msg := awaiting_choice npub]> (onboardingState w)
  /\ (exists ctx,
        identityOut (snd run) = (identityOut w ++ [reply_to msg ctx wallet_choice_prompt])%list)
  /\ (exists row,
        local_npub_map (snd run)
          !! (gw_type (source_gateway msg), getEnv env "GATEWAY_NPUB" "", source_from msg)
        = Some row
        /\ user_npub row = npub)
  /\ user_wallets (snd run) = user_wallets w
  /\ pendingStore (snd run) = pendingStore w.
Proof.
  intros Hdb Hsigner Hnpub Hstate run. subst run.
  apply (wp_run (handleOnboarding env msg messageText)
           (fun r w' => r = Ok tt /\ onboardingState w' = _ /\ (exists ctx, identityOut w' = _)
                        /\ (exists row, local_npub_map w' !! _ = Some row /\ _)
                        /\ user_wallets w' = _ /\ pendingStore w' = _)).
  wp_onboarding_enter.
  rewrite Honb, Hstate.
  unfold createNewUser, upsertLocalNpubMap, set_state, promptWalletChoice, enqueueIdentityOut.
  apply wp_bind, wp_try_catch, wp_bind, wp_db; [exact Hdb|].
  apply wp_bind, wp_get_world, wp_bind, wp_emit, wp_bind, wp_lift.
  rewrite Hsigner.
  apply wp_bind, wp_bind, wp_db; [exact Hdb|].
  wp_steps.
  { match goal with H : negb _ = true |- _ => rewrite Hnpub in H; discriminate H end. }
  world_simpl. rewrite Honb, Hout, Hwallets, Hpend.
  split; [reflexivity|]. split; [reflexivity|].
  split; [eexists; reflexivity|].
  split; [|split; reflexivity].
  rewrite lookup_insert_eq. eexists. split; [reflexivity|].
  destruct (local_npub_map _ !! _); reflexivity.
Qed.

Lemma first_contact_starts_onboarding_witness :
  onboardingState
    (snd (handleOnboarding
            (sample_env gateway_vars http_down lnurl_down decode_fails pay_down)
            (message_from_alice "hello") "hello" empty_world))
  = <["alice" := awaiting_choice "npub1fresh"]> (onboardingState empty_world).
Proof.
  apply (first_contact_starts_onboarding
           (sample_env gateway_vars http_down lnurl_down decode_fails pay_down)
           (message_from_alice "hello") "hello" "npub1fresh" empty_world); reflexivity.
Defined.


(** X20.  Answers that are neither a wallet-connect string nor the
    choice of a generated wallet.  While the user is [awaiting_choice],
    choice 1 moves them to [awaiting_nwc] and asks for the wallet-connect
    string, and an answer that is no choice leaves the state as it is and
    sends the wallet question again.  While the user is [awaiting_nwc]
    the state stays and a reminder is sent.  In each case the handler
    returns normally, exactly one message is sent and no wallet is
    written. *)
Theorem wallet_choice_answers
    (env : Env) (msg : BeaconMessage) (messageText : string) (state : OnboardingStep)
    (w : World) :
  onboardingState w !! source_from msg = Some state ->
  looksLikeNwcString (trim messageText) = false ->
  parseWalletChoice (trim messageText) <> Some choice2 ->
  let run := handleOnboarding env msg messageText w in
  let answered (next : option OnboardingStep) (body : string) :=
    fst run = Ok tt
    /\ user_wallets (snd run) = user_wallets w
    /\ onboardingState (snd run)
       = match next with
         | Some step => <[source_from msg := step]> (onboardingState w)
         | None => onboardingState w
         end
    /\ exists ctx, identityOut (snd run) = (identityOut w ++ [reply_to msg ctx body])%list in
  match state with
  | awaiting_choice npub =>
      match parseWalletChoice (trim messageText) with
      | Some _ =>
          answered (Some (awaiting_nwc npub))
            "Alright, let's set up your Bitcoin wallet. Please respond with a nostr wallet connect string and I'll do the rest."
      | None => answered None wallet_choice_prompt
      end
  | awaiting_nwc npub =>
      answered None
        "I'm still waiting on a valid wallet connect string. You can also reply 2 to generate a new wallet."
  | awaiting_ln_address npub => True
  end.
Proof.
  intros Hstate Hnwc Hchoice run answered. subst answered run. cbv beta.
  destruct state as [npub|npub|npub]; [| |exact I].
  - destruct (parseWalletChoice (trim messageText)) as [[|]|] eqn:Hp; [|congruence|];
      wp_start (handleOnboarding env msg messageText) w;
      wp_onboarding_enter;
      rewrite Honb, Hstate, Hnwc, Hp;
      unfold set_state, promptWalletChoice, enqueueIdentityOut;
      wp_steps; world_simpl; rewrite ?Honb, ?Hout, ?Hwallets;
      (split; [reflexivity|]); (split; [reflexivity|]); (split; [reflexivity|]);
      eexists; reflexivity.
  - wp_start (handleOnboarding env msg messageText) w.
    wp_onboarding_enter.
    rewrite Honb, Hstate, Hnwc.
    unfold enqueueIdentityOut.
    destruct (parseWalletChoice (trim messageText)) as [[|]|] eqn:Hp; [|congruence|];
      wp_steps; world_simpl; rewrite ?Honb, ?Hout, ?Hwallets;
      (split; [reflexivity|]); (split; [reflexivity|]); (split; [reflexivity|]);
      eexists; reflexivity.
Qed.

Lemma wallet_choice_answers_witness :
  onboardingState
    (snd (handleOnboarding
            (sample_env gateway_vars http_down lnurl_down decode_fails pay_down)
            (message_from_alice " 1) ") " 1) " world_alice_choosing))
  = <["alice" := awaiting_nwc "npub1alice"]> (onboardingState world_alice_choosing).
Proof.
  apply (wallet_choice_answers
           (sample_env gateway_vars http_down lnurl_down decode_fails pay_down)
           (message_from_alice " 1) ") " 1) " (awaiting_choice "npub1alice")
           world_alice_choosing).
  - vm_compute. reflexivity.
  - reflexivity.
  - vm_compute. discriminate.
Defined.


Lemma validateNwcString_spec (env : Env) (nwcUri : string) (w : World) :
  wp (validateNwcString env nwcUri)
     (fun r w' =>
        state_of w' = state_of w
        /\ exists valid,
             r = Ok valid
             /\ (nwc_connect env nwcUri <> None -> valid = false)
             /\ (nwc_connect env nwcUri = None ->
                 (forall tr, exists balance, nwc_getBalance env tr nwcUri = Ok balance) ->
                 valid = true)) w.
Proof.
  unfold validateNwcString, nwc_client, client_getBalance.
  wp_steps; world_simpl; (split; [reflexivity|]); eexists; (split; [reflexivity|]);
    split; try congruence; auto.
  intros _ Hall.
  match goal with H : nwc_getBalance _ ?tr _ = Raise _ |- _ =>
    destruct (Hall tr) as [balance Hbalance]; congruence end.
Qed.

(** X21.  A wallet-connect string sent while the user is
    [awaiting_choice] or [awaiting_nwc].  If the client cannot be built
    from it, the user is told so, the state stays and no wallet is
    written.  If the client can be built, the wallet answers the balance
    request, the database answers and the string is encrypted, the row of
    the user becomes an nwc row holding the encrypted string and no
    Lightning Address, the state becomes [awaiting_ln_address] and the
    user is asked for the address. *)
Theorem wallet_connect_string_answers
    (env : Env) (msg : BeaconMessage) (messageText : string) (state : OnboardingStep)
    (w : World) :
  onboardingState w !! source_from msg = Some state ->
  (state = awaiting_choice (step_npub state) \/ state = awaiting_nwc (step_npub state)) ->
  looksLikeNwcString (trim messageText) = true ->
  let run := handleOnboarding env msg messageText w in
  fst run = Ok tt
  /\ (nwc_connect env (trim messageText) <> None ->
      onboardingState (snd run) = onboardingState w
      /\ user_wallets (snd run) = user_wallets w
      /\ exists ctx,
           identityOut (snd run)
           = (identityOut w
              ++ [reply_to msg ctx "Hey that didn't work, please ensure it's a valid wallet connect string or reply 2 to generate a new wallet."])%list)
  /\ (forall encrypted,
        nwc_connect env (trim messageText) = None ->
        (forall tr, exists balance, nwc_getBalance env tr (trim messageText) = Ok balance) ->
        (forall tr, db_error env tr = None) ->
        encrypt env (trim messageText) = Ok encrypted ->
        onboardingState (snd run)
        = <[source_from msg := awaiting_ln_address (step_npub state)]> (onboardingState w)
        /\ user_wallets (snd run)
           = <[step_npub state := nwc_row encrypted None]> (user_wallets w)
        /\ exists ctx,
             identityOut (snd run)
             = (identityOut w
                ++ [reply_to msg ctx "That all worked, please can you tell me your lightning address for this wallet? Or if it's not available just say No"])%list).
Proof.
  intros Hstate Hkind Hnwc run. subst run.
  wp_start (handleOnboarding env msg messageText) w.
  wp_onboarding_enter.
  rewrite Honb, Hstate.
  destruct state as [npub|npub|npub];
    [| |destruct Hkind as [Hk|Hk]; discriminate Hk];
    cbn [step_npub]; rewrite Hnwc.
  all: unfold handleNwcProvided; apply wp_bind;
    (eapply wp_mono; [apply validateNwcString_spec|]);
    cbv beta; intros r w1 (Hframe & valid & -> & Hinvalid & Hvalid);
    apply state_of_eq in Hframe as (Hwallets1 & _ & Honb1 & _ & Hout1);
    unfold saveNwcWallet, set_state, enqueueIdentityOut, db;
    destruct valid.
  all: wp_steps; world_simpl; rewrite ?Hwallets1, ?Honb1, ?Hout1, ?Hwallets, ?Honb, ?Hout.
  all: (split; [reflexivity|]).
  all: split;
    [intros Hbad;
     first [solve [specialize (Hinvalid Hbad); discriminate]
           |split; [reflexivity|]; split; [reflexivity|]; eexists; reflexivity]
    |intros encrypted Hconnect Hbalance Hdb Henc;
     first [solve [specialize (Hvalid Hconnect Hbalance); discriminate]
           |solve [match goal with H : db_error _ _ = Some _ |- _ =>
                     rewrite Hdb in H; discriminate H end]
           |solve [congruence]
           |idtac]].
  all: injection Henc as <-.
  all: unfold nwc_row; cbn [step_npub opt_truthy].
  all: split; [reflexivity|]; split; [reflexivity|]; eexists; reflexivity.
Qed.

Lemma wallet_connect_string_answers_witness :
  user_wallets
    (snd (handleOnboarding
            (sample_env gateway_vars http_down lnurl_down decode_fails pay_down)
            (message_from_alice "nostr+walletconnect://alice")
            "nostr+walletconnect://alice" world_alice_choosing))
  = <["npub1alice" := nwc_row "nostr+walletconnect://alice" None]>
      (user_wallets world_alice_choosing).
Proof.
  destruct (wallet_connect_string_answers
              (sample_env gateway_vars http_down lnurl_down decode_fails pay_down)
              (message_from_alice "nostr+walletconnect://alice")
              "nostr+walletconnect://alice" (awaiting_choice "npub1alice")
              world_alice_choosing) as (_ & _ & Hvalid).
  - vm_compute. reflexivity.
  - left. reflexivity.
  - reflexivity.
  - destruct (Hvalid "nostr+walletconnect://alice") as (_ & Hwallets & _).
    + reflexivity.
    + intros tr. eexists. reflexivity.
    + reflexivity.
    + reflexivity.
    + exact Hwallets.
Defined.


(** X22.  The answer to the Lightning Address question.  When the
    database answers, the notification of the new user succeeds and the
    user has a wallet row, any answer ends the onboarding: the answer,
    trimmed, is stored as the Lightning Address of the row without any
    check, or NULL when it is "no" in any letter case; the onboarding
    state of the user is deleted and the closing message is sent. *)
Theorem ln_address_answer_completes_onboarding
    (env : Env) (msg : BeaconMessage) (messageText npub : string) (row : WalletRow)
    (w : World) :
  (forall tr, db_error env tr = None) ->
  (forall tr, notify_brain env tr = None) ->
  onboardingState w !! source_from msg = Some (awaiting_ln_address npub) ->
  user_wallets w !! npub = Some row ->
  let run := handleOnboarding env msg messageText w in
  fst run = Ok tt
  /\ user_wallets (snd run)
     = <[npub := with_ln_address row
                   (if String.eqb (toLowerCase (trim messageText)) "no"
                    then JNull else JStr (trim messageText))]> (user_wallets w)
  /\ onboardingState (snd run) = delete (source_from msg) (onboardingState w)
  /\ exists ctx,
       identityOut (snd run) = (identityOut w ++ [reply_to msg ctx completion_message])%list.
Proof.
  intros Hdb Hnotify Hstate Hrow run. subst run.
  wp_start (handleOnboarding env msg messageText) w.
  wp_onboarding_enter.
  rewrite Honb, Hstate.
  apply wp_bind, wp_db; [exact Hdb|].
  apply wp_bind, wp_get_world. world_simpl. rewrite Hwallets, Hrow.
  unfold finishOnboarding, notifyBrainOfNewUser, enqueueIdentityOut.
  apply wp_bind, wp_set_user_wallets, wp_bind, wp_log, wp_bind, wp_get_world.
  apply wp_bind, wp_set_onboardingState, wp_bind, wp_bind, wp_get_world, wp_bind, wp_emit.
  rewrite Hnotify. wp_steps. world_simpl. rewrite ?Honb, ?Hout, ?Hwallets.
  split; [reflexivity|]. split; [reflexivity|]. split; [reflexivity|].
  eexists. reflexivity.
Qed.

Lemma ln_address_answer_completes_onboarding_witness :
  user_wallets
    (snd (handleOnboarding
            (sample_env gateway_vars http_down lnurl_down decode_fails pay_down)
            (message_from_alice " No ") " No " world_alice_nwc))
  = <["npub1alice" := with_ln_address (nwc_row "nostr+walletconnect://alice" None) JNull]>
      (user_wallets world_alice_nwc).
Proof.
  apply (ln_address_answer_completes_onboarding
           (sample_env gateway_vars http_down lnurl_down decode_fails pay_down)
           (message_from_alice " No ") " No " "npub1alice"
           (nwc_row "nostr+walletconnect://alice" None) world_alice_nwc);
    reflexivity.
Defined.


(** ** The worker and the database *)

Lemma wp_db_down (env : Env) (statement : string) (Q : Outcome unit -> World -> Prop)
    (w : World) :
  (forall tr, db_error env tr <> None) ->
  (forall e, Q (Raise e) (push_events [EvDb statement] w)) ->
  wp (db env statement) Q w.
Proof.
  intros Hdown H. unfold db. apply wp_bind, wp_get_world, wp_bind, wp_emit.
  destruct (db_error env (trace w)) as [e|] eqn:He; [apply wp_throw, H|].
  exfalso. exact (Hdown _ He).
Qed.

Lemma quiet_refl (w : World) : quiet w w.
Proof. split; [reflexivity|apply extends_refl]. Qed.

Lemma quiet_push (events : list Event) (w0 w : World) :
  forallb is_log_or_db events = true ->
  quiet w0 w -> quiet w0 (push_events events w).
Proof.
  intros Hevents [Hstate Htrace]. split.
  - rewrite <- Hstate. reflexivity.
  - apply extends_push; assumption.
Qed.

Lemma quiet_trans (w0 w1 w2 : World) : quiet w0 w1 -> quiet w1 w2 -> quiet w0 w2.
Proof.
  intros [H1 H1'] [H2 H2']. split; [congruence|eapply extends_trans; eassumption].
Qed.

Lemma quiet_pay_calls (w w' : World) : quiet w w' -> pay_calls w' = pay_calls w.
Proof.
  intros [_ H]. eapply extends_pay_calls; [|exact H].
  intros [] He; try discriminate He; reflexivity.
Qed.

Ltac quiet_solve :=
  repeat (apply quiet_push; [reflexivity|]); first [assumption | apply quiet_refl].

Lemma ensured_quiet (env : Env) (fromCtx : bool) (given : option string * JsValue)
    (ctx : JsValue) (gatewayType gatewayUser : string) (w : World) :
  wp (if fromCtx then ret given else ensureBotId env ctx gatewayType gatewayUser)
     (fun r w' => (exists res, r = Ok res) /\ quiet w w') w.
Proof.
  destruct fromCtx; [apply wp_ret; split; [eexists; reflexivity|apply quiet_refl]|].
  unfold ensureBotId, resolveUserLinks_gatewayBotId, db.
  wp_steps; (split; [eexists; reflexivity|quiet_solve]).
Qed.

Lemma rememberGatewayBotId_down (env : Env) (gt gn gu bot : string) (w : World) :
  (forall tr, db_error env tr <> None) ->
  wp (rememberGatewayBotId env gt gn gu bot) (fun _ w' => quiet w w') w.
Proof.
  intros Hdown. unfold rememberGatewayBotId.
  destruct (negb (str_truthy (trim bot))); [apply wp_ret, quiet_refl|].
  apply wp_bind, wp_db_down; [exact Hdown|]. intros e. quiet_solve.
Qed.

Lemma isUserKnown_down (env : Env) (gatewayUser gatewayType : string) (w : World) :
  (forall tr, db_error env tr <> None) ->
  wp (isUserKnown env gatewayUser gatewayType) (fun r w' => r = Ok false /\ quiet w w') w.
Proof.
  intros Hdown. unfold isUserKnown.
  apply wp_try_catch, wp_bind, wp_db_down; [exact Hdown|]. intros e.
  wp_steps. split; [reflexivity|quiet_solve].
Qed.

Lemma createNewUser_down (env : Env) (gatewayType gatewayUser : string)
    (gatewayBotId : option string) (w : World) :
  (forall tr, db_error env tr <> None) ->
  wp (createNewUser env gatewayType gatewayUser gatewayBotId)
     (fun r w' => r = Ok None /\ quiet w w') w.
Proof.
  intros Hdown. unfold createNewUser.
  apply wp_try_catch, wp_bind, wp_db_down; [exact Hdown|]. intros e.
  wp_steps. split; [reflexivity|quiet_solve].
Qed.

(** X23.  While every use of the database fails ([getDB()] or the
    statement run on it), a message from a user who is not being
    onboarded changes no table: the worker returns
    normally, the pending payment of the user is kept even when the
    message is "yes", nothing is paid (all that happens is log lines and
    failing database statements: no wallet is called and no request is
    sent), and the user is sent at most one
    message, the apology that the account could not be created. *)
Theorem database_outage_keeps_pending_payment
    (env : Env) (msg : BeaconMessage) (w : World) :
  (forall tr, db_error env tr <> None) ->
  onboardingState w !! source_from msg = None ->
  let run := startIdentityWorker env msg w in
  fst run = Ok tt
  /\ user_wallets (snd run) = user_wallets w
  /\ local_npub_map (snd run) = local_npub_map w
  /\ onboardingState (snd run) = onboardingState w
  /\ pendingStore (snd run) = pendingStore w
  /\ pay_calls (snd run) = pay_calls w
  /\ (identityOut (snd run) = identityOut w
      \/ exists ctx,
           identityOut (snd run)
           = (identityOut w
              ++ [reply_to msg ctx "Sorry, there was an error creating your account. Please try again later."])%list)
  /\ exists events,
       trace (snd run) = (trace w ++ events)%list
       /\ forallb is_log_or_db events = true.
Proof.
  intros Hdown Hstate run. subst run.
  assert (Hdone : forall w', quiet w w' ->
            Ok tt = Ok tt
            /\ user_wallets w' = user_wallets w
            /\ local_npub_map w' = local_npub_map w
            /\ onboardingState w' = onboardingState w
            /\ pendingStore w' = pendingStore w
            /\ pay_calls w' = pay_calls w
            /\ (identityOut w' = identityOut w
                \/ exists ctx,
                     identityOut w'
                     = (identityOut w
                        ++ [reply_to msg ctx "Sorry, there was an error creating your account. Please try again later."])%list)
            /\ exists events,
                 trace w' = (trace w ++ events)%list
                 /\ forallb is_log_or_db events = true).
  { intros w' Hq. pose proof (quiet_pay_calls _ _ Hq) as Hp. destruct Hq as [Hs Ht].
    apply state_of_eq in Hs as (? & ? & ? & ? & ?). auto 10. }
  wp_start (startIdentityWorker env msg) w.
  unfold startIdentityWorker.
  apply wp_try_catch, wp_bind, wp_log.
  set (w0 := push_events _ w).
  assert (Hw0 : quiet w w0) by (subst w0; quiet_solve). clearbody w0.
  destruct (negb (str_truthy (trim (default "" (source_text msg)))));
    [apply wp_ret, Hdone, Hw0|].
  apply wp_bind.
  match goal with
  | |- wp ?c ?Q _ =>
      assert (Hremember : wp c (fun _ w' => quiet w0 w') w0)
  end.
  { repeat match goal with |- wp (if ?c then _ else _) _ _ => destruct c end;
      try (apply wp_ret, quiet_refl).
    apply rememberGatewayBotId_down, Hdown. }
  eapply wp_mono; [exact Hremember|]. cbv beta. clear Hremember.
  intros r w1 Hw1. apply (quiet_trans _ _ _ Hw0) in Hw1. clear dependent w0.
  destruct r as [[]|e]; [|apply wp_log, Hdone; quiet_solve].
  apply wp_bind. eapply wp_mono; [apply isUserKnown_down, Hdown|]. cbv beta.
  intros r w2 [-> Hw2]. apply (quiet_trans _ _ _ Hw1) in Hw2. clear dependent w1.
  apply wp_bind, wp_get_world. cbn [negb orb].
  unfold handleOnboarding. apply wp_bind, wp_log, wp_bind.
  eapply wp_mono; [apply ensured_quiet|]. cbv beta.
  intros r w3 [[ensured ->] Hw3].
  assert (Hw3' : quiet w w3).
  { eapply quiet_trans; [|exact Hw3]. quiet_solve. }
  clear Hw3 Hw2. clear dependent w2.
  apply wp_try_catch, wp_bind, wp_get_world.
  replace (onboardingState w3 !! source_from msg) with (@None OnboardingStep)
    by (destruct Hw3' as [Hs _]; apply state_of_eq in Hs as (_ & _ & -> & _);
        symmetry; exact Hstate).
  apply wp_bind. eapply wp_mono; [apply createNewUser_down, Hdown|]. cbv beta.
  intros r w4 [-> Hw4]. apply (quiet_trans _ _ _ Hw3') in Hw4.
  unfold enqueueIdentityOut. apply wp_bind, wp_get_world, wp_set_identityOut.
  pose proof (quiet_pay_calls _ _ Hw4) as Hp.
  destruct Hw4 as [Hs Ht]. apply state_of_eq in Hs as (? & ? & ? & ? & Hout).
  world_simpl. rewrite Hout.
  repeat (split; [assumption || reflexivity|]).
  split; [right; eexists; reflexivity|exact Ht].
Qed.

Lemma database_outage_keeps_pending_payment_witness :
  pendingStore
    (snd (startIdentityWorker
            (db_down (sample_env gateway_vars http_down lnurl_down decode_fails pay_settles))
            (message_from_alice "yes") world_alice_known))
  = pendingStore world_alice_known.
Proof.
  apply (database_outage_keeps_pending_payment
           (db_down (sample_env gateway_vars http_down lnurl_down decode_fails pay_settles))
           (message_from_alice "yes") world_alice_known).
  - intros tr. discriminate.
  - reflexivity.
Defined.


Lemma isUserKnown_row (env : Env) (gatewayUser gatewayType : string) (w : World) :
  (forall tr, db_error env tr = None) ->
  is_Some (local_npub_map w !! (gatewayType, getEnv env "GATEWAY_NPUB" "", gatewayUser)) ->
  fst (isUserKnown env gatewayUser gatewayType w) = Ok true.
Proof.
  intros Hdb Hrow. wp_start (isUserKnown env gatewayUser gatewayType) w.
  unfold isUserKnown. apply wp_try_catch, wp_bind, wp_db; [exact Hdb|].
  wp_steps. world_simpl. rewrite bool_decide_eq_true_2 by exact Hrow. reflexivity.
Qed.

(** X24.  A user that is created is known.  When the database answers
    and the signer yields an npub, [createNewUser] returns that npub and
    stores it for the triple of gateway type, [GATEWAY_NPUB] and gateway
    user; [isUserKnown] then answers [true] for that user, and no other
    mapping has changed. *)
Theorem created_user_is_known
    (env : Env) (gatewayType gatewayUser npub : string) (gatewayBotId : option string)
    (w : World) :
  (forall tr, db_error env tr = None) ->
  (forall tr, new_signer_npub env tr = Ok npub) ->
  let run := createNewUser env gatewayType gatewayUser gatewayBotId w in
  let key := (gatewayType, getEnv env "GATEWAY_NPUB" "", gatewayUser) in
  fst run = Ok (Some npub)
  /\ (exists row, local_npub_map (snd run) !! key = Some row /\ user_npub row = npub)
  /\ (forall other, other <> key ->
        local_npub_map (snd run) !! other = local_npub_map w !! other)
  /\ fst (isUserKnown env gatewayUser gatewayType (snd run)) = Ok true.
Proof.
  intros Hdb Hsigner run key.
  assert (Hrun : fst run = Ok (Some npub)
                 /\ (exists row, local_npub_map (snd run) !! key = Some row
                                 /\ user_npub row = npub)
                 /\ (forall other, other <> key ->
                       local_npub_map (snd run) !! other = local_npub_map w !! other)).
  { subst run. wp_start (createNewUser env gatewayType gatewayUser gatewayBotId) w.
    unfold createNewUser, upsertLocalNpubMap.
    apply wp_try_catch, wp_bind, wp_db; [exact Hdb|].
    apply wp_bind, wp_get_world, wp_bind, wp_emit, wp_bind, wp_lift.
    rewrite Hsigner.
    apply wp_bind, wp_bind, wp_db; [exact Hdb|].
    wp_steps. world_simpl. fold key.
    split; [reflexivity|]. split.
    - rewrite lookup_insert_eq. eexists. split; [reflexivity|].
      destruct (local_npub_map w !! key); reflexivity.
    - intros other Hother. apply lookup_insert_ne. congruence. }
  destruct Hrun as (Hok & Hrow & Hothers).
  split; [exact Hok|]. split; [exact Hrow|]. split; [exact Hothers|].
  apply isUserKnown_row; [exact Hdb|].
  destruct Hrow as (row & Hrow & _). fold key. rewrite Hrow. eauto.
Qed.

Lemma created_user_is_known_witness :
  fst (isUserKnown
         (sample_env gateway_vars http_down lnurl_down decode_fails pay_down)
         "alice" "whatsapp"
         (snd (createNewUser
                 (sample_env gateway_vars http_down lnurl_down decode_fails pay_down)
                 "whatsapp" "alice" None empty_world)))
  = Ok true.
Proof.
  apply (created_user_is_known
           (sample_env gateway_vars http_down lnurl_down decode_fails pay_down)
           "whatsapp" "alice" "npub1fresh" None empty_world); reflexivity.
Defined.

(** X25.  A bot id that is remembered is the one found later.  When the
    database answers, the trimmed [GATEWAY_NPUB] is not empty and the user
    has a mapping under it, then after [rememberGatewayBotId] with a bot
    id that is not empty and has no surrounding white space,
    [ensureBotId] on a context with no bot id returns that bot id and
    writes it into the context. *)
Theorem remembered_bot_id_is_found
    (env : Env) (gatewayType gatewayUser gatewayBotId : string) (ctx : JsValue)
    (w : World) :
  (forall tr, db_error env tr = None) ->
  let gatewayNpub := trim (getEnv env "GATEWAY_NPUB" "") in
  str_truthy gatewayNpub = true ->
  is_Some (local_npub_map w !! (gatewayType, gatewayNpub, gatewayUser)) ->
  trim gatewayBotId = gatewayBotId ->
  str_truthy gatewayBotId = true ->
  prop ctx "botid" = JUndefined ->
  fst (ensureBotId env ctx gatewayType gatewayUser
         (snd (rememberGatewayBotId env gatewayType gatewayNpub gatewayUser gatewayBotId w)))
  = Ok (Some gatewayBotId, set_prop ctx "botid" (JStr gatewayBotId)).
Proof.
  intros Hdb gatewayNpub Hnpub [old Hold] Htrim Hbot Hctx.
  assert (Hremembered :
            exists row,
              local_npub_map
                (snd (rememberGatewayBotId env gatewayType gatewayNpub gatewayUser
                        gatewayBotId w))
                !! (gatewayType, gatewayNpub, gatewayUser) = Some row
              /\ gateway_bot_id row = Some gatewayBotId).
  { wp_start (rememberGatewayBotId env gatewayType gatewayNpub gatewayUser gatewayBotId) w.
    unfold rememberGatewayBotId. rewrite Htrim, Hbot. cbn [negb].
    apply wp_bind, wp_db; [exact Hdb|]. apply wp_bind, wp_get_world.
    world_simpl. rewrite Hold. apply wp_set_local_npub_map. world_simpl.
    rewrite lookup_insert_eq. eexists. split; reflexivity. }
  destruct Hremembered as (row & Hrow & Hbotid).
  set (w1 := snd (rememberGatewayBotId env gatewayType gatewayNpub gatewayUser
                    gatewayBotId w)) in *.
  wp_start (ensureBotId env ctx gatewayType gatewayUser) w1.
  unfold ensureBotId, resolveUserLinks_gatewayBotId. rewrite Hctx.
  cbn [str_truthy String.eqb negb]. fold gatewayNpub. rewrite Hnpub. cbn [negb].
  apply wp_try_catch, wp_bind, wp_try_catch, wp_bind, wp_db; [exact Hdb|].
  apply wp_bind, wp_get_world. world_simpl. rewrite Hrow, Hbotid.
  cbn [opt_truthy]. rewrite Hbot. apply wp_ret.
  cbn [option_map opt_truthy]. rewrite Htrim, Hbot. apply wp_ret. reflexivity.
Qed.

Lemma remembered_bot_id_is_found_witness :
  fst (ensureBotId
         (sample_env gateway_vars http_down lnurl_down decode_fails pay_down)
         (JObj [("networkID", JStr "whatsapp")]) "whatsapp" "alice"
         (snd (rememberGatewayBotId
                 (sample_env gateway_vars http_down lnurl_down decode_fails pay_down)
                 "whatsapp" "npub1gateway" "alice" "bot-7" world_alice_known)))
  = Ok (Some "bot-7", JObj [("networkID", JStr "whatsapp"); ("botid", JStr "bot-7")]).
Proof.
  apply (remembered_bot_id_is_found
           (sample_env gateway_vars http_down lnurl_down decode_fails pay_down)
           "whatsapp" "alice" "bot-7" (JObj [("networkID", JStr "whatsapp")])
           world_alice_known); try reflexivity.
  vm_compute. eauto.
Defined.


(** X26.  Only "yes" confirms a payment.  When the database answers, a
    message from a known user who is not being onboarded, whose text is
    made of ASCII characters and, trimmed,
    is not "yes" in any letter case (it may be blank), is dropped:
    the worker returns normally, the pending payment of the user stays in
    the store, no message is sent, no table changes, and all that
    happens is logging and database statements. *)
Theorem only_yes_confirms_a_payment (env : Env) (msg : BeaconMessage) (w : World) :
  (forall tr, db_error env tr = None) ->
  is_Some (local_npub_map w !! (gw_type (source_gateway msg),
                                getEnv env "GATEWAY_NPUB" "", source_from msg)) ->
  onboardingState w !! source_from msg = None ->
  is_ascii_text (default "" (source_text msg)) = true ->
  toLowerCase (trim (default "" (source_text msg))) <> "yes" ->
  let run := startIdentityWorker env msg w in
  fst run = Ok tt
  /\ pendingStore (snd run) = pendingStore w
  /\ identityOut (snd run) = identityOut w
  /\ user_wallets (snd run) = user_wallets w
  /\ onboardingState (snd run) = onboardingState w
  /\ exists events,
       trace (snd run) = (trace w ++ events)%list
       /\ forallb is_log_or_db events = true.
Proof.
  intros Hdb Hknown Hstate _ Hyes run. subst run.
  wp_start (startIdentityWorker env msg) w.
  unfold startIdentityWorker.
  apply wp_try_catch, wp_bind, wp_log.
  destruct (negb (str_truthy (trim (default "" (source_text msg))))).
  { apply wp_ret. world_simpl. repeat (split; [reflexivity|]).
    eexists. split; reflexivity. }
  apply wp_bind.
  set (w0 := push_events _ w).
  set (remembered := fun (r : Outcome unit) (w1 : World) =>
         r = Ok tt
         /\ user_wallets w1 = user_wallets w0
         /\ onboardingState w1 = onboardingState w0
         /\ pendingStore w1 = pendingStore w0
         /\ identityOut w1 = identityOut w0
         /\ (forall k, is_Some (local_npub_map w0 !! k) -> is_Some (local_npub_map w1 !! k))
         /\ exists evs, remember_events evs /\ trace w1 = (trace w0 ++ evs)%list).
  match goal with
  | |- wp ?c ?Q _ => assert (Hremember : wp c remembered w0)
  end.
  { assert (Hskip : remembered (Ok tt) w0).
    { repeat split; auto. exists []. split; [left; reflexivity|].
      symmetry. apply app_nil_r. }
    repeat match goal with |- wp (if ?c then _ else _) _ _ => destruct c end;
      try (apply wp_ret, Hskip).
    unfold remembered. apply rememberGatewayBotId_spec, Hdb. }
  eapply wp_mono; [exact Hremember|]. unfold remembered. cbv beta. clear Hremember remembered.
  intros r w1 (-> & Hwallets & Honb & Hpend & Hout & Hmap & evs & Hevs & Htrace).
  apply wp_bind. unfold isUserKnown.
  apply wp_try_catch, wp_bind, wp_db; [exact Hdb|].
  apply wp_bind, wp_get_world. apply wp_ret.
  apply wp_bind, wp_get_world.
  cbn [local_npub_map onboardingState push_events].
  rewrite bool_decide_eq_true_2 by (apply Hmap; exact Hknown).
  rewrite bool_decide_eq_false_2
    by (rewrite Honb; unfold w0; cbn [onboardingState push_events];
        rewrite Hstate; intros [? ?]; discriminate).
  cbn [negb orb].
  apply String.eqb_neq in Hyes. rewrite Hyes.
  apply wp_log. world_simpl.
  rewrite Hpend, Hout, Hwallets, Honb, Htrace. unfold w0. world_simpl.
  repeat (split; [reflexivity|]).
  eexists. split; [rewrite <- !app_assoc; reflexivity|].
  rewrite !forallb_app. cbn [forallb is_log_or_db andb].
  destruct Hevs as [->| ->]; reflexivity.
Qed.

Lemma only_yes_confirms_a_payment_witness :
  identityOut
    (snd (startIdentityWorker
            (sample_env gateway_vars http_down lnurl_down decode_fails pay_settles)
            (message_from_alice "yes please") world_alice_known))
  = [].
Proof.
  destruct (only_yes_confirms_a_payment
              (sample_env gateway_vars http_down lnurl_down decode_fails pay_settles)
              (message_from_alice "yes please") world_alice_known)
    as (_ & _ & Hout & _).
  - reflexivity.
  - vm_compute. eauto.
  - reflexivity.
  - reflexivity.
  - vm_compute. discriminate.
  - exact Hout.
Defined.


(** ** Labels and amounts *)

Lemma string_take_length (n : nat) (s : string) :
  (String.length (string_take n s) <= n)%nat.
Proof.
  revert s. induction n as [|n IH]; intros s; [reflexivity|].
  destruct s as [|c r]; simpl; [lia|]. specialize (IH r). lia.
Qed.

Lemma string_drop_length (n : nat) (s : string) :
  String.length (string_drop n s) = (String.length s - n)%nat.
Proof.
  revert s. induction n as [|n IH]; intros s; simpl; [lia|].
  destruct s as [|c r]; simpl; [reflexivity|]. apply IH.
Qed.

Lemma toLowerCase_length (s : string) :
  String.length (toLowerCase s) = String.length s.
Proof. induction s as [|c r IH]; simpl; [reflexivity|]. rewrite IH. reflexivity. Qed.

Lemma slice_last_length (n : nat) (s : string) :
  (String.length (slice_last n s) <= n)%nat.
Proof. unfold slice_last. rewrite string_drop_length. lia. Qed.

Lemma string_length_app (a b : string) :
  String.length (a ++ b) = (String.length a + String.length b)%nat.
Proof. induction a as [|c r IH]; simpl; [reflexivity|]. rewrite IH. reflexivity. Qed.

Lemma prefix_empty (s : string) : String.prefix "" s = true.
Proof. destruct s; reflexivity. Qed.

(** X27.  The label of a generated wallet is at most 32 characters long
    and starts with "beacon-"; when the gateway type has at most 18
    characters nothing is cut off: the label is "beacon-", the gateway
    type, "-" and a suffix of at most 6 characters. *)
Theorem generateSubAccountLabel_shape (gatewayType gatewayUser npub : string) :
  let label := generateSubAccountLabel gatewayType gatewayUser npub in
  (String.length label <= 32)%nat
  /\ startsWith label "beacon-" = true
  /\ ((String.length gatewayType <= 18)%nat ->
      exists suffix,
        label = "beacon-" ++ gatewayType ++ "-" ++ suffix
        /\ (String.length suffix <= 6)%nat).
Proof.
  intros label. subst label. unfold generateSubAccountLabel.
  set (suffix := toLowerCase _).
  assert (Hsuffix : (String.length suffix <= 6)%nat).
  { subst suffix. rewrite toLowerCase_length.
    destruct (str_truthy _); apply slice_last_length. }
  clearbody suffix.
  assert (Hlen : String.length ("beacon-" ++ gatewayType ++ "-" ++ suffix)
                 = (8 + String.length gatewayType + String.length suffix)%nat).
  { rewrite !string_length_app. simpl. lia. }
  destruct (Nat.ltb 32 _) eqn:Hlong.
  - split; [apply string_take_length|]. split; [unfold startsWith; simpl; apply prefix_empty|].
    intros Hshort. apply Nat.ltb_lt in Hlong. lia.
  - apply Nat.ltb_ge in Hlong. split; [exact Hlong|]. split; [unfold startsWith; simpl; apply prefix_empty|].
    intros _. exists suffix. split; [reflexivity|exact Hsuffix].
Qed.

Lemma generateSubAccountLabel_shape_witness :
  exists suffix,
    generateSubAccountLabel "whatsapp" "+44 7700 900123" "npub1alice"
    = "beacon-whatsapp-" ++ suffix
    /\ (String.length suffix <= 6)%nat.
Proof.
  destruct (generateSubAccountLabel_shape "whatsapp" "+44 7700 900123" "npub1alice")
    as (_ & _ & H).
  destruct H as (suffix & Hlabel & Hsuffix); [simpl; lia|].
  exists suffix. split; [exact Hlabel|exact Hsuffix].
Defined.

(** X28.  [decodeInvoiceMsats] never throws and changes no table: it
    yields nothing, or the finite number that is the amount section of
    the decoded invoice. *)
Theorem decodeInvoiceMsats_total (env : Env) (invoice : string) (w : World) :
  state_of (snd (decodeInvoiceMsats env invoice w)) = state_of w
  /\ exists amount,
       fst (decodeInvoiceMsats env invoice w) = Ok amount
       /\ match amount with
          | Some msats =>
              isFinite msats = true
              /\ exists sections,
                   decodeBolt11 env (JStr invoice) = Ok sections
                   /\ msats = js_Number env (amount_section_value sections)
          | None => True
          end.
Proof.
  wp_start (decodeInvoiceMsats env invoice) w.
  unfold decodeInvoiceMsats.
  wp_steps; world_simpl; (split; [reflexivity|]); eexists; (split; [reflexivity|]);
    try exact I.
  destruct (isFinite _) eqn:Hfinite; [|exact I].
  split; [exact Hfinite|]. eexists. split; reflexivity.
Qed.


(** ** Outbound dispatcher *)

(** X29.  The dispatcher sends a message at most once, and only to a
    gateway whose id is 64 hexadecimal characters: a request that is sent
    names that gateway, a non-empty network and a non-empty user, has bot
    type "id" and carries the body of the message. *)
Theorem dispatch_sends_only_to_a_valid_gateway
    (env : Env) (Date_now : string) (new_GatewayCvmClient : string -> option Thrown)
    (receiveMessage : string -> ReceiveMessageRequest -> Outcome JsValue)
    (msg : GatewayOutData) :
  let events :=
    dispatchIdentityOut env Date_now new_GatewayCvmClient receiveMessage msg in
  (length (List.filter is_receive events) <= 1)%nat
  /\ forall target req,
       In (DReceiveMessage target req) events ->
       test_hex64 target = true
       /\ req_returnGatewayID req = target
       /\ str_truthy (req_networkID req) = true
       /\ str_truthy (req_userId req) = true
       /\ req_botType req = "id"
       /\ req_message req = out_body (out_message msg).
Proof.
  intros events. subst events. unfold dispatchIdentityOut. cbv zeta.
  destruct (negb (test_hex64 _)) eqn:Hhex;
    [split; [simpl; lia|intros ? ? [H|[]]; discriminate H]|].
  destruct (negb (str_truthy _)) eqn:Hnet;
    [split; [simpl; lia|intros ? ? [H|[]]; discriminate H]|].
  destruct (negb (str_truthy (js_String (js_or (js_or (prop _ "userId") _) _)))) eqn:Huser;
    [split; [simpl; lia|intros ? ? [H|[]]; discriminate H]|].
  apply negb_false_iff in Hhex, Hnet, Huser.
  destruct (new_GatewayCvmClient _);
    [split; [simpl; lia|intros ? ? [H|[]]; discriminate H]|].
  split.
  - destruct (receiveMessage _ _); simpl; lia.
  - intros target req [H|[H|H]]; [discriminate H| |].
    + injection H as <- <-.
      cbn [req_returnGatewayID req_networkID req_userId req_botType req_message].
      repeat split; assumption.
    + destruct (receiveMessage _ _); destruct H as [H|[]]; discriminate H.
Qed.


Lemma dispatch_sends_only_to_a_valid_gateway_witness :
  test_hex64 hex64_sample = true.
Proof.
  destruct (dispatch_sends_only_to_a_valid_gateway
              (sample_env no_vars http_down lnurl_down decode_fails pay_down)
              "1700000000000" client_ok receive_ok
              (queued (reply_to (message_from_alice "hello")
                                (JObj [("returnGatewayID", JStr hex64_sample)])
                                "hello alice"))) as [_ H].
  apply (H hex64_sample
           {| req_refId := "1700000000000"; req_returnGatewayID := hex64_sample;
              req_networkID := "whatsapp"; req_botid := ""; req_botType := "id";
              req_groupID := JUndefined; req_userId := "alice"; req_messageID := None;
              req_message := "hello alice" |}).
  vm_compute. right. left. reflexivity.
Defined.




